(** * Convex Auth, Next.js server side: request authenticator and action proxy

    A shallow embedding of [src/nextjs/server/request.ts]
    ([handleAuthenticationInRequest], [validateCors], [getRefreshedTokens],
    [decodeToken]) and of the proxy module ([proxyAuthActionToConvex],
    [shouldProxyAuthAction]), followed by the properties of the
    specification that were checked against them.

    Conventions.
    - JavaScript values that travel through the code untyped (the parsed
      request body, the arguments of a backend call, a JSON response body)
      are terms of [value]; [undefined] and [null] are kept apart.
    - The arithmetic of the refresh scheduler is the double arithmetic of
      JavaScript: a Number is a binary64 value of [SpecFloat], NaN and the
      infinities included.  The claims [exp] and [iat] of a decoded token are
      the Numbers the unvalidated claims convert to (NaN for a missing one);
      [Date.now()] is an integral time value.  On whole-second claims within
      range every operation of the scheduler is exact (section "Double
      arithmetic on integers").
    - Effects (the request-scoped cookie view, calls to the backend, thrown
      errors) are threaded by the monad [M] over a [World]; every cookie read
      and every backend call is appended to the world's trace.
    - Logging ([logVerbose], [console.error]) has no effect on results and is
      left out. *)

From Stdlib Require Import ZArith List String Ascii Bool Lia.
From Stdlib Require Import SpecFloat.
Import ListNotations.
Local Open Scope string_scope.
Local Open Scope list_scope.
Local Open Scope Z_scope.

Set Implicit Arguments.

(* ------------------------------------------------------------------ *)
(** ** JavaScript values *)

#[warnings="-register-all"]
Inductive value : Type :=
| VUndefined
| VNull
| VBool (b : bool)
| VNum (n : Z)
| VStr (s : string)
| VArr (items : list value)
| VObj (fields : list (string * value)).

(** Own-property lookup in an object literal: the first binding of the key. *)
Fixpoint assocGet (fields : list (string * value)) (key : string) : option value :=
  match fields with
  | [] => None
  | (k, v) :: rest => if String.eqb k key then Some v else assocGet rest key
  end.

(** Property assignment [obj.key = v]: an existing key keeps its position,
    a new key is added at the end. *)
Fixpoint assocSet (fields : list (string * value)) (key : string) (v : value)
  : list (string * value) :=
  match fields with
  | [] => [(key, v)]
  | (k, old) :: rest =>
      if String.eqb k key then (k, v) :: rest else (k, old) :: assocSet rest key v
  end.

(** [x.key] for the keys the source reads ([action], [args], [refreshToken]):
    [None] is the TypeError raised on [undefined] and [null]; primitives and
    arrays have no such property and give [undefined]. *)
Definition getProp (x : value) (key : string) : option value :=
  match x with
  | VUndefined | VNull => None
  | VObj fields =>
      Some match assocGet fields key with Some v => v | None => VUndefined end
  | _ => Some VUndefined
  end.

(** [x.key = v] on a value that is known to carry the key. *)
Definition setProp (x : value) (key : string) (v : value) : value :=
  match x with
  | VObj fields => VObj (assocSet fields key v)
  | other => other
  end.

(** [x !== undefined] *)
Definition isDefined (x : value) : bool :=
  match x with VUndefined => false | _ => true end.

(** [x === "literal"] *)
Definition strictEqStr (x : value) (lit : string) : bool :=
  match x with VStr s => String.eqb s lit | _ => false end.

(** [s ?? undefined] for a [string | null]. *)
Definition orUndefined (s : option string) : value :=
  match s with Some x => VStr x | None => VUndefined end.

(* ------------------------------------------------------------------ *)
(** ** Numbers

    A JavaScript Number is an IEEE 754 binary64 value: [spec_float] at a
    precision of 53 bits with the infinities at exponent 1024, one NaN, two
    zeros.  The operations round to nearest, ties to even. *)

Module Number.

Definition t : Type := spec_float.

Definition prec : Z := 53.
Definition emax : Z := 1024.

Definition NaN : t := S754_nan.

Definition isNaN (x : t) : bool :=
  match x with S754_nan => true | _ => false end.

(** The Number of an integer literal, or of an integral time value. *)
Definition ofZ (z : Z) : t := binary_normalize prec emax z 0 false.

(** [x * y], [x + y], [x - y], [x / y] *)
Definition mul (x y : t) : t := SFmul prec emax x y.
Definition add (x y : t) : t := SFadd prec emax x y.
Definition sub (x y : t) : t := SFsub prec emax x y.
Definition div (x y : t) : t := SFdiv prec emax x y.

(** [x > y] and [x <= y]; both are false when an operand is NaN. *)
Definition gt (x y : t) : bool := SFltb y x.
Definition le (x y : t) : bool := SFleb x y.

(** The binary64 form of a positive integer of at most 53 bits, with the
    sign [s]: the mantissa shifted to 53 bits. *)
Definition canonical (s : bool) (z : positive) : t :=
  S754_finite s (Pos.shiftl_nat z (53 - Pos.size_nat z))
    (Z.of_nat (Pos.size_nat z) - 53).

End Number.

Module Math.

(** [Math.max(x, y)]: NaN if an operand is NaN; [+0] is larger than [-0]. *)
Definition max (x y : Number.t) : Number.t :=
  match SFcompare x y with
  | None => Number.NaN
  | Some Lt => y
  | Some Gt => x
  | Some Eq => match x with S754_zero true => y | _ => x end
  end.

(** [Math.min(x, y)]: NaN if an operand is NaN; [-0] is smaller than [+0]. *)
Definition min (x y : Number.t) : Number.t :=
  match SFcompare x y with
  | None => Number.NaN
  | Some Lt => x
  | Some Gt => y
  | Some Eq => match x with S754_zero false => y | _ => x end
  end.

End Math.

Arguments Number.ofZ : simpl never.
Arguments Number.mul : simpl never.
Arguments Number.add : simpl never.
Arguments Number.sub : simpl never.
Arguments Number.div : simpl never.
Arguments Number.gt : simpl never.
Arguments Number.le : simpl never.
Arguments Math.max : simpl never.
Arguments Math.min : simpl never.

(* ------------------------------------------------------------------ *)
(** ** Strings: the three operations of [shouldProxyAuthAction] and
       [String.prototype.includes] *)

(** [s.endsWith("/")] *)
Fixpoint endsWithSlash (s : string) : bool :=
  match s with
  | EmptyString => false
  | String c EmptyString => Ascii.eqb c "/"%char
  | String _ rest => endsWithSlash rest
  end.

(** [s.slice(0, -1)] *)
Fixpoint sliceDropLast (s : string) : string :=
  match s with
  | EmptyString => EmptyString
  | String _ EmptyString => EmptyString
  | String c rest => String c (sliceDropLast rest)
  end.

(** [s.includes(needle)] *)
Definition includes (s needle : string) : bool :=
  match String.index 0 needle s with Some _ => true | None => false end.

(** Truthiness of a [string | null]: [null] and the empty string are falsy. *)
Definition truthy (s : option string) : bool :=
  match s with
  | Some EmptyString | None => false
  | Some _ => true
  end.

(* ------------------------------------------------------------------ *)
(** ** Requests, URLs, responses *)

Record URL : Type := mkURL {
  origin : string;                          (* scheme, host and port *)
  pathname : string;
  searchParams : list (string * string)     (* in query order *)
}.

(** [url.searchParams.get(name)]: the first value of the name, or [null]. *)
Fixpoint searchParamsGet (params : list (string * string)) (name : string)
  : option string :=
  match params with
  | [] => None
  | (k, v) :: rest => if String.eqb k name then Some v else searchParamsGet rest name
  end.

(** [url.searchParams.delete(name)]: every pair of that name is removed. *)
Definition searchParamsDelete (params : list (string * string)) (name : string)
  : list (string * string) :=
  filter (fun kv => negb (String.eqb (fst kv) name)) params.

Definition urlDeleteParam (u : URL) (name : string) : URL :=
  mkURL (origin u) (pathname u) (searchParamsDelete (searchParams u) name).

Record NextRequest : Type := mkRequest {
  method : string;
  url : URL;                                (* [new URL(request.url)] *)
  headers : list (string * string);         (* names in lower case *)
  json : option value                       (* [await request.json()]; [None]: it rejects *)
}.

Definition headersGet (request : NextRequest) (name : string) : option string :=
  searchParamsGet (headers request) name.

Inductive CookieName : Type := CToken | CRefreshToken | CVerifier.

Inductive Body : Type :=
| BodyText (text : string)
| BodyJson (content : value).               (* [JSON.stringify(content)] *)

Record Response : Type := mkResponse {
  status : Z;
  body : Body;
  location : option URL;                    (* target of a redirect *)
  cookieWrites : list (CookieName * value)  (* assignments to the response cookies, in order *)
}.

Record TokenPair : Type := mkTokens {
  token : string;
  refreshToken : string
}.

(** The source's [{ token, refreshToken } | null | undefined]: the [tokens]
    field of a sign-in result and the outcome of the refresh scheduler. *)
Inductive Tokens : Type :=
| TokensUndefined
| TokensNull
| TokensPair (issued : TokenPair).

(** The result object of a [signIn] call: the three fields the source
    inspects, each of them optional, as the presence checks [!== undefined]
    have it, and the other own properties of the object, which travel with it
    when the proxy forwards the result as it is. *)
Record SignInResult : Type := mkSignInResult {
  redirect : option string;
  verifier : option string;
  tokens : Tokens;
  others : list (string * value)
}.

(** A result with no other property than the three. *)
Definition mkResult (redirect verifier : option string) (tokens : Tokens)
  : SignInResult :=
  mkSignInResult redirect verifier tokens [].

(** The result as [JSON.stringify] sees it: the properties that are
    defined. *)
Definition resultValue (result : SignInResult) : value :=
  VObj (match redirect result with
        | Some target => [("redirect", VStr target)]
        | None => []
        end
        ++ match verifier result with
           | Some v => [("verifier", VStr v)]
           | None => []
           end
        ++ match tokens result with
           | TokensUndefined => []
           | TokensNull => [("tokens", VNull)]
           | TokensPair issued =>
               [("tokens", VObj [("token", VStr (token issued));
                                 ("refreshToken", VStr (refreshToken issued))])]
           end
        ++ others result).

(** The [exp] and [iat] claims of a decoded access token as the arithmetic of
    the scheduler reads them ([decodedToken.exp! * 1000]): the Number the
    claim converts to, NaN for a claim that is missing or not numeric.
    [jwtDecode] validates neither claim. *)
Record JwtPayload : Type := mkJwtPayload {
  exp : Number.t;
  iat : Number.t
}.

(** A payload whose claims are whole seconds. *)
Definition mkPayload (expSeconds iatSeconds : Z) : JwtPayload :=
  mkJwtPayload (Number.ofZ expSeconds) (Number.ofZ iatSeconds).

(* ------------------------------------------------------------------ *)
(** ** The request world and its monad *)

Record Cookies : Type := mkCookies {
  cookieToken : option string;
  cookieRefreshToken : option string;
  cookieVerifier : option string
}.

(** One call [fetchAction(action, args, { url, token })]. *)
Record FetchCall : Type := mkCall {
  callAction : string;
  callArgs : value;
  callUrl : option string;
  callToken : option string
}.

Inductive FetchOutcome : Type :=
| Resolved (result : SignInResult)
| Rejected.                                 (* the call throws *)

Inductive Event : Type :=
| EvRead (name : CookieName) (seen : option string)
| EvFetch (call : FetchCall).

Record World : Type := mkWorld {
  store : Cookies;                          (* the request-scoped cookie view *)
  trace : list Event                        (* oldest event first *)
}.

Definition initialWorld (cookies : Cookies) : World := mkWorld cookies [].

Inductive Completion (A : Type) : Type :=
| Ok (a : A)
| Threw (message : string).

Arguments Threw {A} message.

Definition M (A : Type) : Type := World -> Completion A * World.

Definition ret {A} (a : A) : M A := fun w => (Ok a, w).

Definition bind {A B} (m : M A) (k : A -> M B) : M B :=
  fun w =>
    match m w with
    | (Ok a, w') => k a w'
    | (Threw e, w') => (Threw e, w')
    end.

Definition throw {A} (message : string) : M A := fun w => (Threw message, w).

(** [try { body } catch (error) { handler }] *)
Definition tryCatch {A} (body : M A) (handler : string -> M A) : M A :=
  fun w =>
    match body w with
    | (Ok a, w') => (Ok a, w')
    | (Threw e, w') => handler e w'
    end.

Definition emit (e : Event) : M unit :=
  fun w => (Ok tt, mkWorld (store w) (trace w ++ [e])).

Declare Scope js_scope.
Delimit Scope js_scope with js.
Notation "x <- m ;; k" := (bind m (fun x => k))
  (at level 61, m at next level, right associativity) : js_scope.
Notation "m ;;; k" := (bind m (fun _ => k))
  (at level 61, right associativity) : js_scope.
Local Open Scope js_scope.

(** The backend calls of a trace, in order. *)
Fixpoint fetches (events : list Event) : list FetchCall :=
  match events with
  | [] => []
  | EvFetch c :: rest => c :: fetches rest
  | EvRead _ _ :: rest => fetches rest
  end.

(** The cookie values read in a trace, in order. *)
Fixpoint reads (events : list Event) : list (CookieName * option string) :=
  match events with
  | [] => []
  | EvRead n v :: rest => (n, v) :: reads rest
  | EvFetch _ :: rest => reads rest
  end.

(* ------------------------------------------------------------------ *)
(** ** Cookie store and response helpers ([cookies.js], [utils.js]) *)

Definition cookieOf (c : Cookies) (name : CookieName) : option string :=
  match name with
  | CToken => cookieToken c
  | CRefreshToken => cookieRefreshToken c
  | CVerifier => cookieVerifier c
  end.

Definition cookieWith (c : Cookies) (name : CookieName) (v : option string) : Cookies :=
  match name with
  | CToken => mkCookies v (cookieRefreshToken c) (cookieVerifier c)
  | CRefreshToken => mkCookies (cookieToken c) v (cookieVerifier c)
  | CVerifier => mkCookies (cookieToken c) (cookieRefreshToken c) v
  end.

(** Modelled from the spec: [getRequestCookies] of [cookies.js], which is not
    among the sources.  Reading a field of [getRequestCookies()] returns what
    the request-scoped cookie view holds for it, a string or [null]. *)
Definition readCookie (name : CookieName) : M (option string) :=
  fun w =>
    let seen := cookieOf (store w) name in
    (Ok seen, mkWorld (store w) (trace w ++ [EvRead name seen])).

(** Modelled from the spec: [getRequestCookiesInMiddleware] of [cookies.js],
    which is not among the sources.  Assigning a field of the view it returns
    overwrites the same request-scoped store that [getRequestCookies] reads. *)
Definition writeRequestCookie (name : CookieName) (v : option string) : M unit :=
  fun w => (Ok tt, mkWorld (cookieWith (store w) name v) (trace w)).

(** Modelled from the spec: [jsonResponse] of [utils.js], which is not among
    the sources: a success response whose body is the JSON text of its
    argument. *)
Definition jsonResponse (content : value) : Response :=
  mkResponse 200 (BodyJson content) None [].

(** [getResponseCookies(response).name = v] *)
Definition setResponseCookie (r : Response) (name : CookieName) (v : value) : Response :=
  mkResponse (status r) (body r) (location r) (cookieWrites r ++ [(name, v)]).

(** Modelled from the spec: [setAuthCookies] of [utils.js], which is not among
    the sources.  A token pair is written to the [token] and [refreshToken]
    cookies; [null] clears all three auth cookies. *)
Definition setAuthCookies (r : Response) (t : option TokenPair) : Response :=
  match t with
  | Some issued =>
      setResponseCookie
        (setResponseCookie r CToken (VStr (token issued)))
        CRefreshToken (VStr (refreshToken issued))
  | None =>
      setResponseCookie
        (setResponseCookie (setResponseCookie r CToken VNull) CRefreshToken VNull)
        CVerifier VNull
  end.

(** [new Response(text, { status })] *)
Definition textResponse (text : string) (code : Z) : Response :=
  mkResponse code (BodyText text) None [].

(** [NextResponse.redirect(target)] *)
Definition redirectResponse (target : URL) : Response :=
  mkResponse 307 (BodyText "") (Some target) [].

(* ------------------------------------------------------------------ *)
(** ** The program *)

Section Server.

(** The collaborators outside the repository's sources:
    [fetchAction] of [convex/nextjs], [jwtDecode] of [jwt-decode] ([None]:
    it throws), [Date.now()], and the classifier [isCorsRequest] of
    [utils.js]. *)
Variable fetchAction : FetchCall -> FetchOutcome.
Variable jwtDecode : string -> option JwtPayload.
Variable now : Z.
Variable isCorsRequest : NextRequest -> bool.

(** [await fetchAction(action, args, { url, token })] *)
Definition fetch (call : FetchCall) : M SignInResult :=
  emit (EvFetch call) ;;;
  match fetchAction call with
  | Resolved result => ret result
  | Rejected => throw "fetchAction failed"
  end.

(** *** request.ts *)

Definition REQUIRED_TOKEN_LIFETIME_MS : Number.t := Number.ofZ 60000.
Definition MINIMUM_REQUIRED_TOKEN_LIFETIME_MS : Number.t := Number.ofZ 10000.

Definition decodeToken (t : string) : option JwtPayload := jwtDecode t.

Definition validateCors (request : NextRequest) : M unit :=
  if isCorsRequest request then
    writeRequestCookie CToken None ;;;
    writeRequestCookie CRefreshToken None ;;;
    writeRequestCookie CVerifier None
  else ret tt.

Definition totalTokenLifetimeMs (decodedToken : JwtPayload) : Number.t :=
  Number.sub (Number.mul (exp decodedToken) (Number.ofZ 1000))
             (Number.mul (iat decodedToken) (Number.ofZ 1000)).

(** [now] is the time value [Date.now()] returns, an integer. *)
Definition minimumExpiration (decodedToken : JwtPayload) : Number.t :=
  Number.add (Number.ofZ now)
    (Math.min REQUIRED_TOKEN_LIFETIME_MS
       (Math.max MINIMUM_REQUIRED_TOKEN_LIFETIME_MS
          (Number.div (totalTokenLifetimeMs decodedToken) (Number.ofZ 10)))).

(** The arguments of the refresh call, [{ refreshToken }]. *)
Definition refreshCall (refreshToken : string) : FetchCall :=
  mkCall "auth:signIn" (VObj [("refreshToken", VStr refreshToken)]) None None.

Definition getRefreshedTokens : M Tokens :=
  token <- readCookie CToken ;;
  refreshToken <- readCookie CRefreshToken ;;
  match refreshToken, token with
  | None, None => ret TokensUndefined
  | None, Some _ | Some _, None => ret TokensNull
  | Some refreshToken, Some token =>
      match decodeToken token with
      | None => ret TokensNull
      | Some decodedToken =>
          if Number.gt (Number.mul (exp decodedToken) (Number.ofZ 1000))
                       (minimumExpiration decodedToken)
          then ret TokensUndefined
          else
            tryCatch
              (result <- fetch (refreshCall refreshToken) ;;
               match tokens result with
               | TokensUndefined =>
                   throw "Invalid `signIn` action result for token refresh"
               | refreshed => ret refreshed
               end)
              (fun _ => ret TokensNull)
      end
  end.

(** The arguments of the code exchange, [{ params: { code }, verifier }]. *)
Definition codeExchangeCall (code : string) (verifier : value) : FetchCall :=
  mkCall "auth:signIn"
    (VObj [("params", VObj [("code", VStr code)]); ("verifier", verifier)])
    None None.

Inductive AuthResult : Type :=
| KindRedirect (response : Response)
| KindRefreshTokens (refreshTokens : Tokens).

(** The guard of the code exchange. *)
Definition isCodeExchange (request : NextRequest) : bool :=
  truthy (searchParamsGet (searchParams (url request)) "code")
  && String.eqb (method request) "GET"
  && match headersGet request "accept" with
     | Some accept => includes accept "text/html"
     | None => false
     end.

Definition handleAuthenticationInRequest (request : NextRequest) : M AuthResult :=
  let requestUrl := url request in
  validateCors request ;;;
  refreshTokens <- getRefreshedTokens ;;
  match searchParamsGet (searchParams requestUrl) "code" with
  | Some code =>
      if isCodeExchange request then
        verifier <- readCookie CVerifier ;;
        let redirectUrl := urlDeleteParam requestUrl "code" in
        tryCatch
          (result <- fetch (codeExchangeCall code (orUndefined verifier)) ;;
           match tokens result with
           | TokensUndefined =>
               throw "Invalid `signIn` action result for code exchange"
           | TokensNull =>
               ret (KindRedirect (setAuthCookies (redirectResponse redirectUrl) None))
           | TokensPair issued =>
               ret (KindRedirect
                      (setAuthCookies (redirectResponse redirectUrl) (Some issued)))
           end)
          (fun _ =>
             ret (KindRedirect (setAuthCookies (redirectResponse redirectUrl) None)))
      else ret (KindRefreshTokens refreshTokens)
  | None => ret (KindRefreshTokens refreshTokens)
  end.

(** *** The proxy module *)

Record ProxyOptions : Type := mkOptions {
  convexUrl : option string;
  verbose : option bool
}.

(** Lines 550 to 583: the response for the result of the backend call. *)
Definition proxyRespond (action : string) (result : SignInResult) : Response :=
  if String.eqb action "auth:signIn" then
    match redirect result with
    | Some target =>
        setResponseCookie
          (jsonResponse (VObj [("redirect", VStr target)]))
          CVerifier (orUndefined (verifier result))
    | None =>
        match tokens result with
        | TokensPair issued =>
            setAuthCookies
              (jsonResponse
                 (VObj [("tokens",
                         VObj [("token", VStr (token issued));
                               ("refreshToken", VStr "dummy")])]))
              (Some issued)
        | TokensNull =>
            setAuthCookies (jsonResponse (VObj [("tokens", VNull)])) None
        | TokensUndefined =>
            (* [return jsonResponse(result)]: the result as it came *)
            jsonResponse (resultValue result)
        end
    end
  else
    setAuthCookies (jsonResponse VNull) None.

(** Lines 541 to 549: the backend call, then the response. *)
Definition proxyFetchAndRespond (options : ProxyOptions) (action : string)
    (args : value) (bearer : option string) : M Response :=
  result <- fetch (mkCall action args (convexUrl options) bearer) ;;
  ret (proxyRespond action result).

(** The property read [x.key] as a computation. *)
Definition prop (x : value) (key : string) : M value :=
  match getProp x key with
  | Some v => ret v
  | None => throw "TypeError: cannot read properties of undefined or null"
  end.

Definition requestJson (request : NextRequest) : M value :=
  match json request with
  | Some parsed => ret parsed
  | None => throw "SyntaxError: the body is not JSON"
  end.

Definition proxyAuthActionToConvex (request : NextRequest) (options : ProxyOptions)
  : M Response :=
  if negb (String.eqb (method request) "POST") then
    ret (textResponse "Invalid method" 405)
  else if isCorsRequest request then
    ret (textResponse "Invalid origin" 403)
  else
    parsed <- requestJson request ;;
    action <- prop parsed "action" ;;
    args <- prop parsed "args" ;;
    if negb (strictEqStr action "auth:signIn")
       && negb (strictEqStr action "auth:signOut")
    then ret (textResponse "Invalid action" 400)
    else if strictEqStr action "auth:signIn" then
      clientRefreshToken <- prop args "refreshToken" ;;
      if isDefined clientRefreshToken then
        refreshToken <- readCookie CRefreshToken ;;
        match refreshToken with
        | None =>
            ret (mkResponse 200 (BodyJson (VObj [("tokens", VNull)])) None [])
        | Some refreshToken =>
            proxyFetchAndRespond options "auth:signIn"
              (setProp args "refreshToken" (VStr refreshToken)) None
        end
      else
        token <- readCookie CToken ;;
        proxyFetchAndRespond options "auth:signIn" args token
    else
      token <- readCookie CToken ;;
      proxyFetchAndRespond options "auth:signOut" args token.

Definition shouldProxyAuthAction (request : NextRequest) (apiRoute : string) : bool :=
  let requestUrl := url request in
  if endsWithSlash apiRoute then
    String.eqb (pathname requestUrl) apiRoute
    || String.eqb (pathname requestUrl) (sliceDropLast apiRoute)
  else
    String.eqb (pathname requestUrl) apiRoute
    || String.eqb (pathname requestUrl) (apiRoute ++ "/")%string.

(** *** One request: the three entry points run on a fresh trace, the
    cookie view holding the cookies that came with the request. *)

Definition runScheduler (cookies : Cookies) : Completion Tokens * World :=
  getRefreshedTokens (initialWorld cookies).

Definition runAuthenticator (request : NextRequest) (cookies : Cookies)
  : Completion AuthResult * World :=
  handleAuthenticationInRequest request (initialWorld cookies).

Definition runProxy (request : NextRequest) (options : ProxyOptions)
    (cookies : Cookies) : Completion Response * World :=
  proxyAuthActionToConvex request options (initialWorld cookies).

End Server.

Definition noCookies : Cookies := mkCookies None None None.

(** The backend calls made while a request was served. *)
Definition callsOf {A} (run : Completion A * World) : list FetchCall :=
  fetches (trace (snd run)).

(** The status of the response a run ended with, if it ended with one. *)
Definition statusOf (run : Completion Response * World) : option Z :=
  match fst run with
  | Ok response => Some (status response)
  | Threw _ => None
  end.

(** The cookie values handed out while a request was served. *)
Definition readsOf {A} (run : Completion A * World) : list (CookieName * option string) :=
  reads (trace (snd run)).

(** Modelled from the spec: [isCorsRequest] of [utils.js], which is not among
    the sources.  A request is cross-origin when an [Origin] header is present
    and does not match the request's own host.  The program above takes the
    classifier as a parameter; this instance is used for concrete runs. *)
Definition originMismatch (request : NextRequest) : bool :=
  match headersGet request "origin" with
  | Some o => negb (String.eqb o (origin (url request)))
  | None => false
  end.

(** The route of [shouldProxyAuthAction] in the words of the specification:
    the route without its trailing slash, if it has one. *)
Definition withoutTrailingSlash (apiRoute : string) : string :=
  if endsWithSlash apiRoute then sliceDropLast apiRoute else apiRoute.

(** The scheduler goes on to the refresh call: the test
    [exp*1000 > minimumExpiration] of line 111 fails. *)
Definition refreshDue (now : Z) (decoded : JwtPayload) : Prop :=
  Number.gt (Number.mul (exp decoded) (Number.ofZ 1000))
            (minimumExpiration now decoded) = false.

(** The refresh condition of the specification, [exp*1000 <=
    minimumExpiration], on the Numbers of the source. *)
Definition refreshCondition (now : Z) (decoded : JwtPayload) : Prop :=
  Number.le (Number.mul (exp decoded) (Number.ofZ 1000))
            (minimumExpiration now decoded) = true.

(** The refresh condition in the words of the specification, for claims in
    whole seconds and a clock in milliseconds. *)
Definition refreshDueAt (now expSeconds iatSeconds : Z) : Prop :=
  let totalLifetimeMs := (expSeconds - iatSeconds) * 1000 in
  expSeconds * 1000 <= now + Z.min 60000 (Z.max 10000 (totalLifetimeMs / 10)).

(** Claims and clocks on which the arithmetic of the scheduler is exact:
    numeric dates of at most 4 * 10^12 seconds either side of the epoch, and
    the time values of ECMAScript, at most 8.64 * 10^15 milliseconds either
    side.  Every intermediate result then stays below 2^53. *)
Definition wholeSeconds (seconds : Z) : Prop :=
  -4000000000000 <= seconds <= 4000000000000.

Definition timeValue (now : Z) : Prop :=
  -8640000000000000 <= now <= 8640000000000000.

(** The contract of the backend in the words of the specification: the
    result of a sign-in is one of the shapes [{ redirect, verifier }] and
    [{ tokens: pair or null }], with no other property.  (The third shape of
    the contract, [null], has no field and is not a [SignInResult].) *)
Definition discriminated (result : SignInResult) : bool :=
  match redirect result, verifier result, tokens result, others result with
  | Some _, Some _, TokensUndefined, [] => true
  | None, None, TokensNull, [] => true
  | None, None, TokensPair _, [] => true
  | _, _, _, _ => false
  end.

(** The string values a JSON value holds, at any depth. *)
Fixpoint stringsOf (v : value) : list string :=
  match v with
  | VStr s => [s]
  | VArr items =>
      (fix all (l : list value) : list string :=
         match l with
         | [] => []
         | x :: rest => stringsOf x ++ all rest
         end) items
  | VObj fields =>
      (fix all (l : list (string * value)) : list string :=
         match l with
         | [] => []
         | (_, x) :: rest => stringsOf x ++ all rest
         end) fields
  | _ => []
  end.

(** The string values of a JSON body; a text body is not JSON. *)
Definition bodyStrings (b : Body) : list string :=
  match b with
  | BodyText _ => []
  | BodyJson content => stringsOf content
  end.

(** Every [refreshToken] field of a JSON value holds the placeholder. *)
Fixpoint refreshTokenFieldsAreDummy (v : value) : bool :=
  match v with
  | VArr items =>
      (fix all (l : list value) : bool :=
         match l with
         | [] => true
         | x :: rest => refreshTokenFieldsAreDummy x && all rest
         end) items
  | VObj fields =>
      (fix all (l : list (string * value)) : bool :=
         match l with
         | [] => true
         | (k, x) :: rest =>
             (if String.eqb k "refreshToken" then strictEqStr x "dummy" else true)
             && refreshTokenFieldsAreDummy x && all rest
         end) fields
  | _ => true
  end.

Definition bodyHidesRefreshToken (b : Body) : bool :=
  match b with
  | BodyText _ => true
  | BodyJson content => refreshTokenFieldsAreDummy content
  end.

(** Two backends that answer alike up to the refresh token of an issued
    pair. *)
Definition sameUpToRefreshToken (a b : FetchOutcome) : Prop :=
  match a, b with
  | Rejected, Rejected => True
  | Resolved x, Resolved y =>
      redirect x = redirect y /\ verifier x = verifier y /\ others x = others y /\
      match tokens x, tokens y with
      | TokensUndefined, TokensUndefined => True
      | TokensNull, TokensNull => True
      | TokensPair p, TokensPair q => token p = token q
      | _, _ => False
      end
  | _, _ => False
  end.

(** What a code exchange leaves in the auth cookies, in the words of the
    specification: the issued pair on success with a concrete pair, nothing
    (all cleared) on a failed call or a result without a pair. *)
Definition exchangedPair (outcome : FetchOutcome) : option TokenPair :=
  match outcome with
  | Resolved result =>
      match tokens result with
      | TokensPair issued => Some issued
      | TokensNull | TokensUndefined => None
      end
  | Rejected => None
  end.

(* ------------------------------------------------------------------ *)
(** ** Concrete collaborators and requests for the examples *)

Definition decodeAs (decoded : JwtPayload) : string -> option JwtPayload :=
  fun _ => Some decoded.

(** A decoded token without [exp] and [iat]: both convert to NaN. *)
Definition withoutClaims : JwtPayload := mkJwtPayload Number.NaN Number.NaN.

(** A decoded token with [exp] and [iat] of 1e308. *)
Definition hugeClaims : JwtPayload := mkPayload (10 ^ 308) (10 ^ 308).

Definition backendRejects : FetchCall -> FetchOutcome := fun _ => Rejected.

Definition backendReturns (result : SignInResult) : FetchCall -> FetchOutcome :=
  fun _ => Resolved result.

Definition sessionCookies : Cookies := mkCookies (Some "jwt") (Some "r1") (Some "v1").

(** [GET https://app.example/cb?code=abc123&next=home], [Accept: text/html] *)
Definition callbackRequest : NextRequest :=
  mkRequest "GET"
    (mkURL "https://app.example" "/cb" [("code", "abc123"); ("next", "home")])
    [("accept", "text/html,application/xhtml+xml"); ("host", "app.example")]
    None.

(** [GET https://app.example/cb?code=], [Accept: text/html] *)
Definition emptyCodeRequest : NextRequest :=
  mkRequest "GET"
    (mkURL "https://app.example" "/cb" [("code", "")])
    [("accept", "text/html")]
    None.

(** The same navigation, sent from a page of another origin. *)
Definition foreignRequest : NextRequest :=
  mkRequest "GET"
    (mkURL "https://app.example" "/cb" [("code", "abc123")])
    [("accept", "text/html"); ("origin", "https://evil.example")]
    None.

(** [POST https://app.example/api/auth] with a JSON body. *)
Definition proxyPost (parsed : value) : NextRequest :=
  mkRequest "POST" (mkURL "https://app.example" "/api/auth" [])
    [("content-type", "application/json")] (Some parsed).

Definition signInBody (args : value) : value :=
  VObj [("action", VStr "auth:signIn"); ("args", args)].

Definition defaultOptions : ProxyOptions := mkOptions None None.

(* ------------------------------------------------------------------ *)
(** ** The setup command

    The command-line part of the sources: the parsers of deployment names
    and admin keys, the option strings, [indent], and the configuration steps
    that run commands, ask for confirmation and write files.  Strings are
    sequences of code units below 256; console output is left out, the
    commands run, the questions asked and the files written are recorded. *)

Module Cli.

Local Open Scope string_scope.

Definition nl : string := String (ascii_of_nat 10) EmptyString.
Definition dq : string := String (ascii_of_nat 34) EmptyString.

(** [s.split(sep)] for a separator of one character: the pieces between the
    separators, at least one. *)
Fixpoint split (sep : ascii) (s : string) : list string :=
  match s with
  | EmptyString => [EmptyString]
  | String c rest =>
      if Ascii.eqb c sep then EmptyString :: split sep rest
      else match split sep rest with
           | first :: others => String c first :: others
           | [] => [String c EmptyString]
           end
  end.

(** [s.slice(n)] *)
Fixpoint slice (n : nat) (s : string) : string :=
  match n, s with
  | O, _ => s
  | S _, EmptyString => EmptyString
  | S m, String _ rest => slice m rest
  end.

(** The line terminators at which [/^/gm] matches, and the white space
    [trim] removes. *)
Definition isLineTerminator (c : ascii) : bool :=
  match nat_of_ascii c with
  | 10%nat | 13%nat => true
  | _ => false
  end.

Definition isWhiteSpace (c : ascii) : bool :=
  match nat_of_ascii c with
  | 9%nat | 10%nat | 11%nat | 12%nat | 13%nat | 32%nat | 160%nat => true
  | _ => false
  end.

(** [s.replace(/^/gm, "  ")]: two spaces at the start of the string and
    after every line terminator. *)
Fixpoint afterLineTerminators (s : string) : string :=
  match s with
  | EmptyString => EmptyString
  | String c rest =>
      String c (if isLineTerminator c then "  " ++ afterLineTerminators rest
                else afterLineTerminators rest)
  end.

Definition replaceLineStarts (s : string) : string :=
  "  " ++ afterLineTerminators s.

Definition indent (s : string) : string := slice 2 (replaceLineStarts s).

(** [s.trim()] *)
Fixpoint trimStart (s : string) : string :=
  match s with
  | EmptyString => EmptyString
  | String c rest => if isWhiteSpace c then trimStart rest else s
  end.

Fixpoint trimEnd (s : string) : string :=
  match s with
  | EmptyString => EmptyString
  | String c rest =>
      match trimEnd rest with
      | EmptyString => if isWhiteSpace c then EmptyString else String c EmptyString
      | kept => String c kept
      end
  end.

Definition trim (s : string) : string := trimEnd (trimStart s).

(** Whether a character occurs in a string, and how many line terminators
    a string has. *)
Fixpoint hasChar (c : ascii) (s : string) : bool :=
  match s with
  | EmptyString => false
  | String d rest => Ascii.eqb d c || hasChar c rest
  end.

Fixpoint lineTerminators (s : string) : nat :=
  match s with
  | EmptyString => O
  | String c rest =>
      if isLineTerminator c then S (lineTerminators rest) else lineTerminators rest
  end.

(** *** Deployment names and admin keys *)

Definition stripDeploymentTypePrefix (deployment : string) : string :=
  List.last (split ":" deployment) EmptyString.

Definition getDeploymentTypeFromConfiguredDeployment (raw : string) : option string :=
  let typeRaw := List.hd EmptyString (split ":" raw) in
  if String.eqb typeRaw "prod" || String.eqb typeRaw "dev"
     || String.eqb typeRaw "preview"
  then Some typeRaw else None.

Definition isPreviewDeployKey (adminKey : string) : bool :=
  let parts := split "|" adminKey in
  if Nat.eqb (List.length parts) 1 then false
  else
    let prefix := List.hd EmptyString parts in
    let prefixParts := split ":" prefix in
    String.eqb (List.hd EmptyString prefixParts) "preview"
    && Nat.eqb (List.length prefixParts) 3.

Definition deploymentNameFromAdminKey (adminKey : string) : option string :=
  let parts := split "|" adminKey in
  if Nat.eqb (List.length parts) 1 then None
  else if isPreviewDeployKey adminKey then None
  else Some (stripDeploymentTypePrefix (List.hd EmptyString parts)).

Definition deploymentTypeFromAdminKey (adminKey : string) : option string :=
  let parts := split ":" adminKey in
  if Nat.eqb (List.length parts) 1 then None
  else Some (List.hd EmptyString parts).

(** *** The configuration of a run *)

Module Options.
Record t : Type := make {
  url : option string;
  adminKey : option string;
  prod : option bool;
  previewName : option string;
  deploymentName : option string
}.
End Options.

Record ProjectConfig : Type := mkConfig {
  isNextjs : bool;
  usesTypeScript : bool;
  isVite : bool;
  convexFolderPath : string;
  deploymentName : string;
  deploymentType : option string;
  options : Options.t
}.

Definition deploymentNameOptions (config : ProjectConfig) : string :=
  match Options.prod (options config) with
  | Some true => "--prod"
  | _ =>
      if truthy (Options.previewName (options config)) then
        "--preview-name "
        ++ match Options.previewName (options config) with
           | Some name => name
           | None => ""
           end
      else if truthy (Options.deploymentName (options config)) then
        "--deployment-name "
        ++ match Options.deploymentName (options config) with
           | Some name => name
           | None => ""
           end
      else ""
  end.

Definition deploymentOptions (config : ProjectConfig) : string :=
  let adminKey :=
    match Options.adminKey (options config) with
    | Some key => "--admin-key '" ++ key ++ "' "
    | None => ""
    end in
  adminKey ++ deploymentNameOptions config.

(** *** The files the steps write *)

Definition authConfigSource : string :=
  "export default {" ++ nl ++
  "  providers: [" ++ nl ++
  "    {" ++ nl ++
  "      domain: process.env.CONVEX_SITE_URL," ++ nl ++
  "      applicationID: " ++ dq ++ "convex" ++ dq ++ "," ++ nl ++
  "    }," ++ nl ++
  "  ]," ++ nl ++
  "};" ++ nl.

Definition authSource : string :=
  "  import { convexAuth } from " ++ dq ++ "@xixixao/convex-auth" ++ dq ++ ";" ++ nl ++
  "  " ++ nl ++
  "  export const { auth, signIn, signOut, store } = convexAuth({" ++ nl ++
  "    providers: []," ++ nl ++
  "  });" ++ nl ++
  "  ".

Definition httpSource : string :=
  nl ++
  "import { httpRouter } from " ++ dq ++ "convex/server" ++ dq ++ ";" ++ nl ++
  "import { auth } from " ++ dq ++ "./auth" ++ dq ++ ";" ++ nl ++
  nl ++
  "const http = httpRouter();" ++ nl ++
  nl ++
  "auth.addHttpRoutes(http);" ++ nl ++
  nl ++
  "export default http;" ++ nl.

(** *** The world of a run *)

Inductive FsEntry : Type :=
| File (content : string)
| Directory.

Inductive CliEvent : Type :=
| EvExec (command : string)
| EvPrompt (message : string) (default : bool)
| EvWrite (path content : string).

Record CliWorld : Type := mkCliWorld {
  files : string -> option FsEntry;
  step : Z;                                  (* [config.step] *)
  events : list CliEvent                     (* oldest first *)
}.

Inductive Outcome (A : Type) : Type :=
| Done (a : A)
| Raised (message : string)
| Exited (code : Z).                         (* [process.exit(code)] *)

Arguments Raised {A} message.
Arguments Exited {A} code.

Definition Run (A : Type) : Type := CliWorld -> Outcome A * CliWorld.

Definition done {A} (a : A) : Run A := fun w => (Done a, w).

Definition andThen {A B} (m : Run A) (k : A -> Run B) : Run B :=
  fun w =>
    match m w with
    | (Done a, w') => k a w'
    | (Raised e, w') => (Raised e, w')
    | (Exited code, w') => (Exited code, w')
    end.

Definition record (e : CliEvent) : Run unit :=
  fun w => (Done tt, mkCliWorld (files w) (step w) (events w ++ [e])%list).

Declare Scope cli_scope.
Delimit Scope cli_scope with cli.
Notation "x <- m ;; k" := (andThen m (fun x => k))
  (at level 61, m at next level, right associativity) : cli_scope.
Notation "m ;;; k" := (andThen m (fun _ => k))
  (at level 61, right associativity) : cli_scope.
Local Open Scope cli_scope.

Definition processExit {A} (code : Z) : Run A := fun w => (Exited code, w).

Definition existsSync (path : string) : Run bool :=
  fun w => (Done match files w path with Some _ => true | None => false end, w).

Definition readFileSync (path : string) : Run string :=
  fun w =>
    match files w path with
    | Some (File content) => (Done content, w)
    | Some Directory => (Raised "EISDIR: illegal operation on a directory", w)
    | None => (Raised "ENOENT: no such file or directory", w)
    end.

(** The commands run, the questions asked and the files written by a run. *)
Fixpoint commands (log : list CliEvent) : list string :=
  match log with
  | [] => []
  | EvExec c :: rest => c :: commands rest
  | _ :: rest => commands rest
  end%list.

Fixpoint questions (log : list CliEvent) : list (string * bool) :=
  match log with
  | [] => []
  | EvPrompt m d :: rest => (m, d) :: questions rest
  | _ :: rest => questions rest
  end%list.

Fixpoint writes (log : list CliEvent) : list (string * string) :=
  match log with
  | [] => []
  | EvWrite p c :: rest => (p, c) :: writes rest
  | _ :: rest => writes rest
  end%list.

Section Steps.

(** Outside the sources: [execSync] of [child_process] ([None]: the command
    fails and [execSync] throws), the answer to an [inquirer] confirmation
    with a given default, [chalk.bold], [path.join], whether [writeFileSync]
    can write a path, and the pair [generateKeys] returns. *)
Variable execOutput : string -> option string.
Variable answer : string -> bool -> bool.
Variable bold : string -> string.
Variable pathJoin : string -> string -> string.
Variable writable : string -> bool.
Variable JWT_PRIVATE_KEY JWKS : string.

Definition execSync (command : string) : Run string :=
  record (EvExec command) ;;;
  match execOutput command with
  | Some output => done output
  | None => fun w => (Raised "Command failed", w)
  end.

Definition writeFileSync (path content : string) : Run unit :=
  fun w =>
    match files w path with
    | Some Directory => (Raised "EISDIR: illegal operation on a directory", w)
    | _ =>
        if writable path then
          (Done tt,
           mkCliWorld
             (fun p => if String.eqb p path then Some (File content) else files w p)
             (step w) (events w ++ [EvWrite path content])%list)
        else (Raised "EACCES or ENOENT: cannot write", w)
    end.

Definition formatDeploymentTypeAndName (name type : option string) : string :=
  match type with Some t => bold t ++ " " | None => "" end
  ++ "deployment"
  ++ match name with Some n => " " ++ bold n | None => "" end.

Definition printDeployment (config : ProjectConfig) : string :=
  if truthy (Options.adminKey (options config)) then
    match Options.adminKey (options config) with
    | Some key =>
        formatDeploymentTypeAndName (deploymentNameFromAdminKey key)
          (deploymentTypeFromAdminKey key)
    | None => EmptyString
    end
  else
    formatDeploymentTypeAndName (Some (deploymentName config)) (deploymentType config).

(** [logStep]: the message goes to the console; the step counter advances. *)
Definition logStep (config : ProjectConfig) (message : string) : Run unit :=
  fun w => (Done tt, mkCliWorld (files w) (step w + 1) (events w)).

Definition promptForConfirmation (message : string) (default : option bool)
  : Run bool :=
  let shown := match default with Some d => d | None => true end in
  record (EvPrompt message shown) ;;;
  done (answer message shown).

Definition promptForConfirmationOrExit (message : string) (default : option bool)
  : Run unit :=
  confirmed <- promptForConfirmation message default ;;
  if negb confirmed then processExit 1 else done tt.

Definition backendEnvVar (config : ProjectConfig) (name : string) : Run string :=
  execSync ("npx convex env get " ++ deploymentOptions config ++ " " ++ name).

Definition setEnvVar (config : ProjectConfig) (name value : string) : Run unit :=
  execSync ("npx convex env set " ++ deploymentOptions config ++ " -- "
            ++ name ++ " '" ++ value ++ "'") ;;;
  done tt.

Definition configureSiteUrl (config : ProjectConfig) : Run unit :=
  logStep config "Configure SITE_URL" ;;;
  existing <- backendEnvVar config "SITE_URL" ;;
  let value := if isVite config then "http://localhost:5173"
               else "http://localhost:3000" in
  if negb (String.eqb existing "") then
    confirmed <- promptForConfirmation
                   ("The " ++ printDeployment config
                    ++ " already has SITE_URL configured. Overwrite it to "
                    ++ value ++ "?")
                   (Some false) ;;
    if negb confirmed then done tt
    else setEnvVar config "SITE_URL" value
  else setEnvVar config "SITE_URL" value.

Definition configureKeys (config : ProjectConfig) : Run unit :=
  logStep config "Configure private and public key" ;;;
  existingPrivateKey <- backendEnvVar config "JWT_PRIVATE_KEY" ;;
  existingJwks <- backendEnvVar config "JWKS" ;;
  let setBoth :=
    setEnvVar config "JWT_PRIVATE_KEY" JWT_PRIVATE_KEY ;;;
    setEnvVar config "JWKS" JWKS in
  if negb (String.eqb existingPrivateKey "") || negb (String.eqb existingJwks "") then
    confirmed <- promptForConfirmation
                   ("The " ++ printDeployment config
                    ++ " already has JWT_PRIVATE_KEY or JWKS configured. Overwrite them?")
                   (Some false) ;;
    if negb confirmed then done tt else setBoth
  else setBoth.

Definition existsAndNotEmpty (path : string) : Run bool :=
  present <- existsSync path ;;
  if present then
    content <- readFileSync path ;;
    done (negb (String.eqb (trim content) ""))
  else done false.

Definition existingNonEmptySourcePath (path : string) : Run (option string) :=
  ts <- existsAndNotEmpty (path ++ ".ts") ;;
  if ts then done (Some (path ++ ".ts"))
  else
    js <- existsAndNotEmpty (path ++ ".js") ;;
    if js then done (Some (path ++ ".js")) else done None.

Definition configureAuthConfig (config : ProjectConfig) : Run unit :=
  logStep config "Configure auth config file" ;;;
  let source := authConfigSource in
  let authConfigPath := pathJoin (convexFolderPath config) "auth.config" in
  existingConfigPath <- existingNonEmptySourcePath authConfigPath ;;
  match existingConfigPath with
  | Some _ => promptForConfirmationOrExit "Ready to continue?" None
  | None =>
      let newConfigPath := if usesTypeScript config then authConfigPath ++ ".ts"
                           else authConfigPath ++ ".js" in
      writeFileSync newConfigPath source
  end.

Definition initializeAuth (config : ProjectConfig) : Run unit :=
  logStep config "Initialize auth file" ;;;
  let source := authSource in
  let authPath := pathJoin (convexFolderPath config) "auth" in
  existingAuthPath <- existingNonEmptySourcePath authPath ;;
  match existingAuthPath with
  | Some _ => promptForConfirmationOrExit "Ready to continue?" None
  | None =>
      let newAuthPath := if usesTypeScript config then authPath ++ ".ts"
                         else authPath ++ ".js" in
      writeFileSync newAuthPath source
  end.

Definition configureHttp (config : ProjectConfig) : Run unit :=
  logStep config "Configure http file" ;;;
  let source := httpSource in
  let httpPath := pathJoin (convexFolderPath config) "http" in
  existingHttpPath <- existingNonEmptySourcePath httpPath ;;
  match existingHttpPath with
  | Some _ => promptForConfirmationOrExit "Ready to continue?" None
  | None =>
      let newHttpPath := if usesTypeScript config then httpPath ++ ".ts"
                         else httpPath ++ ".js" in
      writeFileSync newHttpPath source
  end.

Definition checkSourceControl : Run unit :=
  isGit <- existsSync ".git" ;;
  if isGit then
    gitStatus <- execSync "git status --porcelain" ;;
    if negb (String.eqb gitStatus "") then
      promptForConfirmationOrExit "Continue anyway?" (Some false)
    else done tt
  else promptForConfirmationOrExit "Continue anyway?" None.

End Steps.

(** A world with the given files, the step counter at one and no event. *)
Definition freshWorld (fs : string -> option FsEntry) : CliWorld :=
  mkCliWorld fs 1 [].

(** A file with something other than white space in it. *)
Definition isNonBlankFile (w : CliWorld) (path : string) : bool :=
  match files w path with
  | Some (File content) => negb (String.eqb (trim content) "")
  | _ => false
  end.

Definition noOptions : Options.t := Options.make None None None None None.

Definition plainConfig : ProjectConfig :=
  mkConfig false true true "convex" "tall-forest-1234" (Some "dev") noOptions.

End Cli.

(* ------------------------------------------------------------------ *)
(** ** Strings *)

Lemma endsWithSlash_append (s : string) : endsWithSlash (s ++ "/")%string = true.
Proof.
  induction s as [|c s IH]; [reflexivity|].
  simpl. destruct (s ++ "/")%string eqn:E; [|exact IH].
  destruct s; discriminate.
Qed.

Lemma sliceDropLast_append (s : string) : sliceDropLast (s ++ "/")%string = s.
Proof.
  induction s as [|c s IH]; [reflexivity|].
  simpl. destruct (s ++ "/")%string eqn:E.
  - destruct s; discriminate.
  - rewrite IH. reflexivity.
Qed.

Lemma sliceDropLast_restore (s : string) :
  endsWithSlash s = true -> (sliceDropLast s ++ "/")%string = s.
Proof.
  induction s as [|c s IH]; [discriminate|].
  simpl. destruct s as [|d s'].
  - intros H. apply Ascii.eqb_eq in H. subst c. reflexivity.
  - intros H. simpl in IH |- *. rewrite (IH H). reflexivity.
Qed.

Lemma truthy_nonempty (s : option string) :
  truthy s = true <-> exists code, s = Some code /\ code <> "".
Proof.
  split.
  - destruct s as [[|c r]|]; try discriminate.
    intros _. exists (String c r). split; [reflexivity | discriminate].
  - intros (code & -> & Hne). destruct code; [contradiction | reflexivity].
Qed.

Lemma searchParamsGet_delete (params : list (string * string)) (name : string) :
  searchParamsGet (searchParamsDelete params name) name = None.
Proof.
  induction params as [|[k v] rest IH]; [reflexivity|].
  unfold searchParamsDelete in *. simpl.
  destruct (String.eqb k name) eqn:E; simpl; [exact IH|].
  rewrite E. exact IH.
Qed.

Lemma assocSet_overwrite (fields : list (string * value)) (key : string) (a b : value) :
  assocSet (assocSet fields key a) key b = assocSet fields key b.
Proof.
  induction fields as [|[k old] rest IH]; simpl.
  - rewrite String.eqb_refl. reflexivity.
  - destruct (String.eqb k key) eqn:E; simpl; rewrite E; [reflexivity|].
    rewrite IH. reflexivity.
Qed.

(** Every object that has the key is the result of assigning it. *)
Lemma assocSet_same (fields : list (string * value)) (key : string) (v : value) :
  assocGet fields key = Some v -> assocSet fields key v = fields.
Proof.
  induction fields as [|[k old] rest IH]; simpl; [discriminate|].
  destruct (String.eqb k key) eqn:E.
  - intros [= ->]. reflexivity.
  - intros H. rewrite (IH H). reflexivity.
Qed.

Lemma assocGet_assocSet (fields : list (string * value)) (key : string) (v : value) :
  assocGet (assocSet fields key v) key = Some v.
Proof.
  induction fields as [|[k old] rest IH]; simpl.
  - rewrite String.eqb_refl. reflexivity.
  - destruct (String.eqb k key) eqn:E; simpl; rewrite E; [reflexivity | exact IH].
Qed.

(* ------------------------------------------------------------------ *)
(** ** Double arithmetic on integers

    An integer below 2^53 in absolute value is a Number, and the sum, the
    difference, the product and the tenth of such integers are computed
    without rounding when the result is one of them. *)

Lemma digits2_pos_size (p : positive) :
  Zpos (digits2_pos p) = Z.of_nat (Pos.size_nat p).
Proof.
  induction p as [p IH|p IH|]; simpl digits2_pos; simpl Pos.size_nat;
    rewrite ?Pos2Z.inj_succ, ?IH, ?Nat2Z.inj_succ; reflexivity.
Qed.

Lemma shiftl_nat_add (p : positive) (i j : nat) :
  Pos.shiftl_nat (Pos.shiftl_nat p i) j = Pos.shiftl_nat p (i + j).
Proof.
  induction j as [|j IH]; [now rewrite Nat.add_0_r|].
  rewrite Nat.add_succ_r. simpl. now rewrite IH.
Qed.

Lemma size_nat_shiftl (p : positive) (n : nat) :
  Pos.size_nat (Pos.shiftl_nat p n) = (Pos.size_nat p + n)%nat.
Proof.
  induction n as [|n IH]; simpl; [lia|]. rewrite IH. lia.
Qed.

Lemma shiftl_nat_value (p : positive) (n : nat) :
  Zpos (Pos.shiftl_nat p n) = Zpos p * 2 ^ Z.of_nat n.
Proof.
  induction n as [|n IH]; [simpl; lia|].
  rewrite Nat2Z.inj_succ, Z.pow_succ_r by lia.
  simpl Pos.shiftl_nat. rewrite Pos2Z.inj_xO, IH. lia.
Qed.

Lemma size_nat_bounds (p : positive) :
  2 ^ Z.of_nat (Pos.size_nat p) <= 2 * Zpos p
  /\ Zpos p < 2 ^ Z.of_nat (Pos.size_nat p).
Proof.
  induction p as [p IH|p IH|].
  - change (Pos.size_nat p~1) with (S (Pos.size_nat p)).
    rewrite Nat2Z.inj_succ, Z.pow_succ_r by lia.
    change (Zpos p~1) with (2 * Zpos p + 1).
    generalize dependent (2 ^ Z.of_nat (Pos.size_nat p)). intros; lia.
  - change (Pos.size_nat p~0) with (S (Pos.size_nat p)).
    rewrite Nat2Z.inj_succ, Z.pow_succ_r by lia.
    change (Zpos p~0) with (2 * Zpos p).
    generalize dependent (2 ^ Z.of_nat (Pos.size_nat p)). intros; lia.
  - split; [apply Z.leb_le | apply Z.ltb_lt]; reflexivity.
Qed.

Lemma size_nat_le (p : positive) (n : nat) :
  Zpos p < 2 ^ Z.of_nat n -> (Pos.size_nat p <= n)%nat.
Proof.
  intros H. destruct (size_nat_bounds p) as [Hlo _].
  destruct (Nat.le_gt_cases (Pos.size_nat p) n) as [|Hgt]; [assumption|exfalso].
  assert (2 ^ Z.of_nat (S n) <= 2 ^ Z.of_nat (Pos.size_nat p))
    by (apply Z.pow_le_mono_r; lia).
  rewrite Nat2Z.inj_succ, Z.pow_succ_r in * by lia. lia.
Qed.

Lemma size_nat_ge (p : positive) (n : nat) :
  2 ^ Z.of_nat n <= Zpos p -> (n < Pos.size_nat p)%nat.
Proof.
  intros H. destruct (size_nat_bounds p) as [_ Hhi].
  destruct (Nat.le_gt_cases (Pos.size_nat p) n) as [Hle|]; [exfalso|assumption].
  assert (2 ^ Z.of_nat (Pos.size_nat p) <= 2 ^ Z.of_nat n)
    by (apply Z.pow_le_mono_r; lia).
  lia.
Qed.

Lemma iter_pos_nat (A : Type) (f : A -> A) (p : positive) (x : A) :
  iter_pos f p x = Nat.iter (Pos.to_nat p) f x.
Proof.
  revert x. induction p as [p IH|p IH|]; intros x; simpl iter_pos.
  - rewrite !IH, Pos2Nat.inj_xI. 
    replace (S (2 * Pos.to_nat p)) with (Pos.to_nat p + (Pos.to_nat p + 1))%nat by lia.
    rewrite !Nat.iter_add. reflexivity.
  - rewrite !IH, Pos2Nat.inj_xO.
    replace (2 * Pos.to_nat p)%nat with (Pos.to_nat p + Pos.to_nat p)%nat by lia.
    rewrite Nat.iter_add. reflexivity.
  - reflexivity.
Qed.

Lemma shr_1_exact (p : positive) (n : nat) :
  Nat.iter n shr_1 (Build_shr_record (Zpos (Pos.shiftl_nat p n)) false false)
  = Build_shr_record (Zpos p) false false.
Proof.
  induction n as [|n IH]; [reflexivity|].
  rewrite Nat.iter_succ_r. simpl. exact IH.
Qed.

Lemma shr_exact (p : positive) (n : nat) (e : Z) :
  shr (Build_shr_record (Zpos (Pos.shiftl_nat p n)) false false) e (Z.of_nat n)
  = (Build_shr_record (Zpos p) false false, e + Z.of_nat n).
Proof.
  destruct n as [|n].
  - simpl. now rewrite Z.add_0_r.
  - unfold shr. change (Z.of_nat (S n)) with (Zpos (Pos.of_succ_nat n)).
    cbv iota beta.
    rewrite iter_pos_nat, SuccNat2Pos.id_succ, shr_1_exact. reflexivity.
Qed.

Lemma fexp_small (d : nat) :
  fexp Number.prec Number.emax (Z.of_nat d) = Z.of_nat d - 53.
Proof. unfold fexp, emin, Number.prec, Number.emax. lia. Qed.

(** Rounding a value that is representable: the canonical form. *)
Lemma binary_round_aux_exact (s : bool) (z : positive) (k : nat) :
  (Pos.size_nat z <= 53)%nat ->
  (53 <= Pos.size_nat z + k)%nat ->
  binary_round_aux Number.prec Number.emax s (Zpos (Pos.shiftl_nat z k))
    (- Z.of_nat k) loc_Exact
  = Number.canonical s z.
Proof.
  intros Hsize Hk. unfold Number.canonical.
  remember (53 - Pos.size_nat z)%nat as j eqn:Hj.
  remember (Pos.size_nat z + k - 53)%nat as n eqn:Hn.
  remember (Pos.size_nat z) as d eqn:Hd.
  assert (Hshift : Pos.shiftl_nat z k = Pos.shiftl_nat (Pos.shiftl_nat z j) n).
  { rewrite shiftl_nat_add. f_equal. lia. }
  unfold binary_round_aux, shr_fexp.
  unfold Zdigits2 at 1. rewrite digits2_pos_size, size_nat_shiftl, <- Hd.
  replace (Z.of_nat (d + k) + - Z.of_nat k) with (Z.of_nat d) by lia.
  rewrite fexp_small.
  replace (Z.of_nat d - 53 - - Z.of_nat k) with (Z.of_nat n) by lia.
  unfold shr_record_of_loc at 1. rewrite Hshift at 1. rewrite shr_exact.
  cbn [shr_m loc_of_shr_record round_nearest_even shr_record_of_loc].
  unfold Zdigits2. rewrite digits2_pos_size, size_nat_shiftl, <- Hd.
  replace (Z.of_nat (d + j) + (- Z.of_nat k + Z.of_nat n)) with (Z.of_nat d) by lia.
  rewrite fexp_small.
  replace (Z.of_nat d - 53 - (- Z.of_nat k + Z.of_nat n)) with 0 by lia.
  cbn [shr shr_m].
  replace (- Z.of_nat k + Z.of_nat n) with (Z.of_nat d - 53) by lia.
  replace (Z.of_nat d - 53 <=? Number.emax - Number.prec) with true;
    [reflexivity|].
  symmetry. apply Z.leb_le. unfold Number.emax, Number.prec. lia.
Qed.

Lemma pos_iter_shiftl (p d : positive) :
  Pos.iter xO p d = Pos.shiftl_nat p (Pos.to_nat d).
Proof. rewrite Pos2Nat.inj_iter. reflexivity. Qed.

Lemma binary_round_exact (s : bool) (z : positive) (k : nat) :
  (Pos.size_nat z <= 53)%nat ->
  binary_round Number.prec Number.emax s (Pos.shiftl_nat z k) (- Z.of_nat k)
  = Number.canonical s z.
Proof.
  intros Hsize. unfold binary_round, shl_align.
  rewrite digits2_pos_size, size_nat_shiftl.
  replace (Z.of_nat (Pos.size_nat z + k) + - Z.of_nat k)
    with (Z.of_nat (Pos.size_nat z)) by lia.
  rewrite fexp_small.
  destruct (Z.of_nat (Pos.size_nat z) - 53 - - Z.of_nat k) as [|d|d] eqn:Hd.
  - apply binary_round_aux_exact; lia.
  - apply binary_round_aux_exact; lia.
  - rewrite pos_iter_shiftl, shiftl_nat_add.
    replace (Z.of_nat (Pos.size_nat z) - 53)
      with (- Z.of_nat (k + Pos.to_nat d)) by lia.
    apply binary_round_aux_exact; lia.
Qed.

(** The Number of an integer below 2^53 in absolute value. *)
Lemma ofZ_pos (z : positive) :
  (Pos.size_nat z <= 53)%nat -> Number.ofZ (Zpos z) = Number.canonical false z.
Proof. intros H. exact (@binary_round_exact false z 0 H). Qed.

Lemma ofZ_neg (z : positive) :
  (Pos.size_nat z <= 53)%nat -> Number.ofZ (Zneg z) = Number.canonical true z.
Proof. intros H. exact (@binary_round_exact true z 0 H). Qed.

Lemma binary_normalize_exact (v : Z) (k : nat) :
  Z.abs v < 2 ^ 53 ->
  binary_normalize Number.prec Number.emax (v * 2 ^ Z.of_nat k) (- Z.of_nat k) false
  = Number.ofZ v.
Proof.
  intros Hv. destruct v as [|z|z].
  - reflexivity.
  - assert (Hs : (Pos.size_nat z <= 53)%nat) by (apply size_nat_le; exact Hv).
    rewrite <- shiftl_nat_value, ofZ_pos by exact Hs.
    apply binary_round_exact. exact Hs.
  - assert (Hs : (Pos.size_nat z <= 53)%nat) by (apply size_nat_le; exact Hv).
    rewrite ofZ_neg by exact Hs.
    replace (Z.neg z * 2 ^ Z.of_nat k) with (Z.neg (Pos.shiftl_nat z k)).
    + apply binary_round_exact. exact Hs.
    + change (Z.neg (Pos.shiftl_nat z k)) with (- Zpos (Pos.shiftl_nat z k)).
      rewrite shiftl_nat_value. change (Z.neg z) with (- Zpos z). lia.
Qed.

Lemma ofZ_canonical (v : Z) :
  Z.abs v < 2 ^ 53 ->
  Number.ofZ v = match v with
                 | Z0 => S754_zero false
                 | Zpos z => Number.canonical false z
                 | Zneg z => Number.canonical true z
                 end.
Proof.
  intros Hv. destruct v as [|z|z]; [reflexivity| |].
  - apply ofZ_pos, size_nat_le. exact Hv.
  - apply ofZ_neg, size_nat_le. exact Hv.
Qed.

Lemma size_nat_lt_compare (a b : positive) :
  (Pos.size_nat a < Pos.size_nat b)%nat -> (a ?= b)%positive = Lt.
Proof.
  intros H. apply Pos.compare_lt_iff.
  destruct (size_nat_bounds a) as [_ Ha], (size_nat_bounds b) as [Hb _].
  assert (2 ^ Z.of_nat (S (Pos.size_nat a)) <= 2 ^ Z.of_nat (Pos.size_nat b))
    by (apply Z.pow_le_mono_r; lia).
  rewrite Nat2Z.inj_succ, Z.pow_succ_r in * by lia. lia.
Qed.

Lemma shiftl_nat_compare (a b : positive) (j : nat) :
  (Pos.shiftl_nat a j ?= Pos.shiftl_nat b j)%positive = (a ?= b)%positive.
Proof. induction j as [|j IH]; [reflexivity | exact IH]. Qed.

Lemma compare_canonical (a b : positive) :
  match Z.of_nat (Pos.size_nat a) - 53 ?= Z.of_nat (Pos.size_nat b) - 53 with
  | Lt => Lt
  | Gt => Gt
  | Eq => Pos.compare_cont Eq (Pos.shiftl_nat a (53 - Pos.size_nat a))
            (Pos.shiftl_nat b (53 - Pos.size_nat b))
  end = (a ?= b)%positive.
Proof.
  destruct (Z.compare_spec (Z.of_nat (Pos.size_nat a) - 53)
              (Z.of_nat (Pos.size_nat b) - 53)) as [He|Hl|Hg].
  - assert (Hab : Pos.size_nat a = Pos.size_nat b) by lia. rewrite Hab.
    apply shiftl_nat_compare.
  - symmetry. apply size_nat_lt_compare. lia.
  - symmetry. rewrite Pos.compare_antisym, (@size_nat_lt_compare b a) by lia.
    reflexivity.
Qed.

(** Comparison of Numbers that hold integers. *)
Lemma compare_ofZ (x y : Z) :
  Z.abs x < 2 ^ 53 -> Z.abs y < 2 ^ 53 ->
  SFcompare (Number.ofZ x) (Number.ofZ y) = Some (x ?= y).
Proof.
  intros Hx Hy. rewrite (ofZ_canonical x Hx), (ofZ_canonical y Hy).
  destruct x as [|a|a], y as [|b|b]; try reflexivity;
    unfold Number.canonical, SFcompare.
  - rewrite compare_canonical. reflexivity.
  - change (Z.neg a ?= Z.neg b) with (CompOpp (a ?= b)%positive).
    rewrite <- (compare_canonical a b).
    destruct (Z.of_nat (Pos.size_nat a) - 53 ?= Z.of_nat (Pos.size_nat b) - 53);
      reflexivity.
Qed.

Lemma gt_ofZ (x y : Z) :
  Z.abs x < 2 ^ 53 -> Z.abs y < 2 ^ 53 ->
  Number.gt (Number.ofZ x) (Number.ofZ y) = (x >? y).
Proof.
  intros Hx Hy. unfold Number.gt, SFltb. rewrite (compare_ofZ y x Hy Hx).
  rewrite Z.gtb_ltb. unfold Z.ltb. reflexivity.
Qed.

Lemma shiftl_nat_mul (a b : positive) (i j : nat) :
  (Pos.shiftl_nat a i * Pos.shiftl_nat b j)%positive = Pos.shiftl_nat (a * b) (i + j).
Proof.
  apply Pos2Z.inj. rewrite Pos2Z.inj_mul, !shiftl_nat_value, Pos2Z.inj_mul.
  rewrite Nat2Z.inj_add, Z.pow_add_r by lia. ring.
Qed.

Lemma size_nat_mul (a b : positive) :
  (Pos.size_nat a + Pos.size_nat b <= Pos.size_nat (a * b) + 1)%nat.
Proof.
  destruct (size_nat_bounds a) as [Ha _], (size_nat_bounds b) as [Hb _].
  assert (Hda : (1 <= Pos.size_nat a)%nat) by (destruct a; simpl; lia).
  assert (Hdb : (1 <= Pos.size_nat b)%nat) by (destruct b; simpl; lia).
  enough (Pos.size_nat a + Pos.size_nat b - 2 < Pos.size_nat (a * b))%nat by lia.
  apply size_nat_ge. rewrite Pos2Z.inj_mul.
  replace (Z.of_nat (Pos.size_nat a + Pos.size_nat b - 2))
    with (Z.of_nat (Pos.size_nat a - 1) + Z.of_nat (Pos.size_nat b - 1)) by lia.
  rewrite Z.pow_add_r by lia.
  assert (Hpa : 2 ^ Z.of_nat (Pos.size_nat a - 1) <= Zpos a).
  { replace (Z.of_nat (Pos.size_nat a)) with (Z.succ (Z.of_nat (Pos.size_nat a - 1)))
      in Ha by lia.
    rewrite Z.pow_succ_r in Ha by lia. lia. }
  assert (Hpb : 2 ^ Z.of_nat (Pos.size_nat b - 1) <= Zpos b).
  { replace (Z.of_nat (Pos.size_nat b)) with (Z.succ (Z.of_nat (Pos.size_nat b - 1)))
      in Hb by lia.
    rewrite Z.pow_succ_r in Hb by lia. lia. }
  apply Z.mul_le_mono_nonneg; try assumption; apply Z.pow_nonneg; lia.
Qed.

Lemma mul_canonical (sa sb : bool) (a b : positive) :
  (Pos.size_nat (a * b) <= 53)%nat ->
  Number.mul (Number.canonical sa a) (Number.canonical sb b)
  = Number.canonical (xorb sa sb) (a * b).
Proof.
  intros Hab. pose proof (size_nat_mul a b) as Hmul.
  assert (Hda : (1 <= Pos.size_nat a)%nat) by (destruct a; simpl; lia).
  assert (Hdb : (1 <= Pos.size_nat b)%nat) by (destruct b; simpl; lia).
  unfold Number.mul, Number.canonical at 1 2, SFmul.
  rewrite shiftl_nat_mul.
  replace (Z.of_nat (Pos.size_nat a) - 53 + (Z.of_nat (Pos.size_nat b) - 53))
    with (- Z.of_nat (53 - Pos.size_nat a + (53 - Pos.size_nat b))) by lia.
  apply binary_round_aux_exact; lia.
Qed.

(** Multiplication of Numbers that hold integers, by a positive factor. *)
Lemma mul_ofZ (x y : Z) :
  0 < y -> Z.abs x < 2 ^ 53 -> Z.abs y < 2 ^ 53 -> Z.abs (x * y) < 2 ^ 53 ->
  Number.mul (Number.ofZ x) (Number.ofZ y) = Number.ofZ (x * y).
Proof.
  intros Hpos Hx Hy Hxy.
  rewrite (ofZ_canonical x Hx), (ofZ_canonical y Hy), (ofZ_canonical (x * y) Hxy).
  destruct x as [|a|a], y as [|b|b]; try lia; try reflexivity.
  - apply mul_canonical, size_nat_le. exact Hxy.
  - apply mul_canonical, size_nat_le. exact Hxy.
Qed.

Lemma shl_align_canonical (z : positive) (ez : Z) :
  (Pos.size_nat z <= 53)%nat ->
  ez <= Z.of_nat (Pos.size_nat z) - 53 ->
  Zpos (fst (shl_align (Pos.shiftl_nat z (53 - Pos.size_nat z))
               (Z.of_nat (Pos.size_nat z) - 53) ez))
  = Zpos z * 2 ^ Z.of_nat (Z.to_nat (- ez)).
Proof.
  intros Hsize Hez. unfold shl_align.
  destruct (ez - (Z.of_nat (Pos.size_nat z) - 53)) as [|d|d] eqn:Hd; try lia.
  - cbn [fst]. rewrite shiftl_nat_value. do 2 f_equal. lia.
  - cbn [fst]. rewrite pos_iter_shiftl, shiftl_nat_add, shiftl_nat_value.
    do 2 f_equal. lia.
Qed.

Lemma cond_Zopp_mul (s : bool) (m k : Z) : cond_Zopp s m * k = cond_Zopp s (m * k).
Proof. destruct s; simpl; lia. Qed.

Lemma add_canonical (sa sb : bool) (a b : positive) :
  (Pos.size_nat a <= 53)%nat -> (Pos.size_nat b <= 53)%nat ->
  Z.abs (cond_Zopp sa (Zpos a) + cond_Zopp sb (Zpos b)) < 2 ^ 53 ->
  Number.add (Number.canonical sa a) (Number.canonical sb b)
  = Number.ofZ (cond_Zopp sa (Zpos a) + cond_Zopp sb (Zpos b)).
Proof.
  intros Ha Hb Hsum. unfold Number.add, Number.canonical, SFadd.
  set (ez := Z.min (Z.of_nat (Pos.size_nat a) - 53) (Z.of_nat (Pos.size_nat b) - 53)).
  rewrite !shl_align_canonical by (subst ez; lia).
  rewrite <- !cond_Zopp_mul, <- Z.mul_add_distr_r.
  remember (Z.to_nat (- ez)) as K eqn:HK.
  replace ez with (- Z.of_nat K) by (subst K ez; lia).
  apply binary_normalize_exact. exact Hsum.
Qed.

Lemma sub_canonical (sa sb : bool) (a b : positive) :
  (Pos.size_nat a <= 53)%nat -> (Pos.size_nat b <= 53)%nat ->
  Z.abs (cond_Zopp sa (Zpos a) - cond_Zopp sb (Zpos b)) < 2 ^ 53 ->
  Number.sub (Number.canonical sa a) (Number.canonical sb b)
  = Number.ofZ (cond_Zopp sa (Zpos a) - cond_Zopp sb (Zpos b)).
Proof.
  intros Ha Hb Hsum. unfold Number.sub, Number.canonical, SFsub.
  set (ez := Z.min (Z.of_nat (Pos.size_nat a) - 53) (Z.of_nat (Pos.size_nat b) - 53)).
  rewrite !shl_align_canonical by (subst ez; lia).
  rewrite <- !cond_Zopp_mul, <- Z.mul_sub_distr_r.
  remember (Z.to_nat (- ez)) as K eqn:HK.
  replace ez with (- Z.of_nat K) by (subst K ez; lia).
  apply binary_normalize_exact. exact Hsum.
Qed.

(** Sums and differences of Numbers that hold integers. *)
Lemma add_ofZ (x y : Z) :
  Z.abs x < 2 ^ 53 -> Z.abs y < 2 ^ 53 -> Z.abs (x + y) < 2 ^ 53 ->
  Number.add (Number.ofZ x) (Number.ofZ y) = Number.ofZ (x + y).
Proof.
  intros Hx Hy Hxy.
  rewrite (ofZ_canonical x Hx), (ofZ_canonical y Hy).
  destruct x as [|a|a], y as [|b|b]; try reflexivity.
  - cbn [Number.add SFadd Number.canonical]. symmetry. apply ofZ_pos, size_nat_le, Hy.
  - cbn [Number.add SFadd Number.canonical]. symmetry. apply ofZ_neg, size_nat_le, Hy.
  - rewrite Z.add_0_r. symmetry. apply ofZ_pos, size_nat_le, Hx.
  - apply (@add_canonical false false a b); try apply size_nat_le; assumption.
  - apply (@add_canonical false true a b); try apply size_nat_le; assumption.
  - rewrite Z.add_0_r. symmetry. apply ofZ_neg, size_nat_le, Hx.
  - apply (@add_canonical true false a b); try apply size_nat_le; assumption.
  - apply (@add_canonical true true a b); try apply size_nat_le; assumption.
Qed.

Lemma sub_ofZ (x y : Z) :
  Z.abs x < 2 ^ 53 -> Z.abs y < 2 ^ 53 -> Z.abs (x - y) < 2 ^ 53 ->
  Number.sub (Number.ofZ x) (Number.ofZ y) = Number.ofZ (x - y).
Proof.
  intros Hx Hy Hxy.
  rewrite (ofZ_canonical x Hx), (ofZ_canonical y Hy).
  destruct x as [|a|a], y as [|b|b]; try reflexivity.
  - change (0 - Zpos b) with (Zneg b). symmetry. apply ofZ_neg, size_nat_le, Hy.
  - change (0 - Zneg b) with (Zpos b). symmetry. apply ofZ_pos, size_nat_le, Hy.
  - rewrite Z.sub_0_r. symmetry. apply ofZ_pos, size_nat_le, Hx.
  - apply (@sub_canonical false false a b); try apply size_nat_le; assumption.
  - apply (@sub_canonical false true a b); try apply size_nat_le; assumption.
  - rewrite Z.sub_0_r. symmetry. apply ofZ_neg, size_nat_le, Hx.
  - apply (@sub_canonical true false a b); try apply size_nat_le; assumption.
  - apply (@sub_canonical true true a b); try apply size_nat_le; assumption.
Qed.

Lemma div_eucl_exact (q b : Z) : 0 < b -> Z.div_eucl (q * b) b = (q, 0).
Proof.
  intros Hb.
  pose proof (Z.div_mul q b ltac:(lia)) as Hq.
  pose proof (Z.mod_mul q b ltac:(lia)) as Hr.
  unfold Z.div, Z.modulo in Hq, Hr.
  destruct (Z.div_eucl (q * b) b) as [q' r']. cbn in Hq, Hr. now subst.
Qed.

Lemma size_nat_tenth (p : positive) :
  (Pos.size_nat (10 * p) <= Pos.size_nat p + 4)%nat.
Proof.
  apply size_nat_le. destruct (size_nat_bounds p) as [_ Hp].
  rewrite Nat2Z.inj_add, Z.pow_add_r, Pos2Z.inj_mul by lia.
  change (2 ^ Z.of_nat 4) with 16.
  generalize dependent (2 ^ Z.of_nat (Pos.size_nat p)). intros; lia.
Qed.

Lemma size_nat_le_mul (p : positive) :
  (Pos.size_nat p <= Pos.size_nat (10 * p))%nat.
Proof.
  apply size_nat_le. destruct (size_nat_bounds (10 * p)) as [_ Hp].
  rewrite Pos2Z.inj_mul in Hp. lia.
Qed.

Lemma div_canonical_ten (s : bool) (p : positive) :
  (Pos.size_nat (10 * p) <= 53)%nat ->
  Number.div (Number.canonical s (10 * p)) (Number.canonical false 10)
  = Number.canonical s p.
Proof.
  intros Hsize.
  pose proof (size_nat_tenth p) as Hlo. pose proof (size_nat_le_mul p) as Hhi.
  assert (Hd : (1 <= Pos.size_nat (10 * p))%nat)
    by (destruct (10 * p)%positive; simpl; lia).
  unfold Number.div, Number.canonical at 1 2, SFdiv, SFdiv_core_binary.
  remember (Pos.size_nat (10 * p)) as d eqn:Hdd.
  remember (53 - d)%nat as j eqn:Hj.
  change (Pos.shiftl_nat 10 (53 - Pos.size_nat 10)) with (Pos.shiftl_nat 10 49).
  change (Z.of_nat (Pos.size_nat 10) - 53) with (-49).
  unfold Zdigits2. rewrite !digits2_pos_size, !size_nat_shiftl, <- Hdd.
  change (Pos.size_nat 10 + 49)%nat with 53%nat.
  replace (Z.of_nat (d + j) + (Z.of_nat d - 53) - (Z.of_nat 53 + -49))
    with (Z.of_nat d - 4) by lia.
  replace (Z.min (fexp Number.prec Number.emax (Z.of_nat d - 4))
             (Z.of_nat d - 53 - -49))
    with (- Z.of_nat (j + 4))
    by (unfold fexp, emin, Number.prec, Number.emax; lia).
  replace (Z.of_nat d - 53 - -49 - - Z.of_nat (j + 4)) with 53 by lia.
  rewrite Z.shiftl_mul_pow2 by lia.
  replace (Zpos (Pos.shiftl_nat (10 * p) j) * 2 ^ 53)
    with (Zpos (Pos.shiftl_nat p (j + 4)) * Zpos (Pos.shiftl_nat 10 49)).
  2:{ rewrite !shiftl_nat_value, Pos2Z.inj_mul, Nat2Z.inj_add, Z.pow_add_r by lia.
      change (2 ^ 53) with (2 ^ Z.of_nat 4 * 2 ^ Z.of_nat 49). ring. }
  rewrite div_eucl_exact by lia.
  change (new_location (Zpos (Pos.shiftl_nat 10 49)) 0) with loc_Exact.
  rewrite Bool.xorb_false_r.
  apply binary_round_aux_exact; lia.
Qed.

(** The tenth of a Number that holds a multiple of ten. *)
Lemma div_ofZ_ten (q : Z) :
  Z.abs (10 * q) < 2 ^ 53 ->
  Number.div (Number.ofZ (10 * q)) (Number.ofZ 10) = Number.ofZ q.
Proof.
  intros Hq.
  assert (Hq' : Z.abs q < 2 ^ 53) by lia.
  rewrite (ofZ_canonical (10 * q) Hq), (ofZ_canonical q Hq'),
    (ofZ_canonical 10 ltac:(reflexivity)).
  destruct q as [|p|p]; [reflexivity| |].
  - apply div_canonical_ten, size_nat_le. exact Hq.
  - apply div_canonical_ten, size_nat_le. exact Hq.
Qed.

Lemma max_ofZ (x y : Z) :
  Z.abs x < 2 ^ 53 -> Z.abs y < 2 ^ 53 ->
  Math.max (Number.ofZ x) (Number.ofZ y) = Number.ofZ (Z.max x y).
Proof.
  intros Hx Hy. unfold Math.max. rewrite (compare_ofZ x y Hx Hy).
  unfold Z.max. destruct (Z.compare_spec x y) as [He|Hl|Hg]; try reflexivity.
  rewrite (ofZ_canonical x Hx). destruct x; reflexivity.
Qed.

Lemma min_ofZ (x y : Z) :
  Z.abs x < 2 ^ 53 -> Z.abs y < 2 ^ 53 ->
  Math.min (Number.ofZ x) (Number.ofZ y) = Number.ofZ (Z.min x y).
Proof.
  intros Hx Hy. unfold Math.min. rewrite (compare_ofZ x y Hx Hy).
  unfold Z.min. destruct (Z.compare_spec x y) as [He|Hl|Hg]; try reflexivity.
  subst y. rewrite (ofZ_canonical x Hx). destruct x; reflexivity.
Qed.

(** Comparison the other way round. *)
Lemma SFcompare_antisym (x y : Number.t) :
  SFcompare y x = match SFcompare x y with
                  | Some c => Some (CompOpp c)
                  | None => None
                  end.
Proof.
  destruct x as [sx|sx| |sx mx ex], y as [sy|sy| |sy my ey];
    try reflexivity; try (destruct sx; reflexivity); try (destruct sy; reflexivity);
    try (destruct sx, sy; reflexivity).
  unfold SFcompare.
  rewrite (Z.compare_antisym ex ey).
  change (Pos.compare_cont Eq my mx) with (Pos.compare_cont (CompOpp Eq) my mx).
  rewrite <- (Pos.compare_cont_antisym mx my Eq).
  destruct sx, sy, (ex ?= ey); simpl; try reflexivity;
    destruct (Pos.compare_cont Eq mx my); reflexivity.
Qed.

(** [x > y] is false exactly when [x <= y] holds or an operand is NaN. *)
Lemma gt_false_iff (x y : Number.t) :
  Number.gt x y = false <-> Number.le x y = true \/ SFcompare x y = None.
Proof.
  unfold Number.gt, Number.le, SFltb, SFleb. rewrite (SFcompare_antisym x y).
  destruct (SFcompare x y) as [[| |]|]; simpl; split; intros H;
    try discriminate; auto; destruct H; discriminate.
Qed.

Lemma isNaN_compare (x y : Number.t) :
  SFcompare x y = None <-> Number.isNaN x = true \/ Number.isNaN y = true.
Proof.
  destruct x as [sx|sx| |sx mx ex], y as [sy|sy| |sy my ey]; simpl;
    split; intros H; try discriminate; auto;
    try (destruct H; discriminate); try (destruct sx; discriminate);
    try (destruct sy; discriminate).
Qed.

Lemma below_2_53 (z : Z) : Z.abs z < 9007199254740992 -> Z.abs z < 2 ^ 53.
Proof. intros H. exact H. Qed.

(** The scheduler's arithmetic on whole-second claims. *)
Lemma expiry_ofZ (expSeconds : Z) :
  wholeSeconds expSeconds ->
  Number.mul (Number.ofZ expSeconds) (Number.ofZ 1000) = Number.ofZ (expSeconds * 1000).
Proof.
  unfold wholeSeconds. intros H.
  apply mul_ofZ; try apply below_2_53; lia.
Qed.

Lemma minimumExpiration_ofZ (now expSeconds iatSeconds : Z) :
  wholeSeconds expSeconds -> wholeSeconds iatSeconds -> timeValue now ->
  minimumExpiration now (mkPayload expSeconds iatSeconds)
  = Number.ofZ (now + Z.min 60000
                        (Z.max 10000 ((expSeconds - iatSeconds) * 1000 / 10))).
Proof.
  intros He Hi Hnow.
  unfold minimumExpiration, totalTokenLifetimeMs, mkPayload,
    REQUIRED_TOKEN_LIFETIME_MS, MINIMUM_REQUIRED_TOKEN_LIFETIME_MS.
  cbn [exp iat].
  rewrite (expiry_ofZ He), (expiry_ofZ Hi).
  unfold wholeSeconds, timeValue in *.
  replace ((expSeconds - iatSeconds) * 1000 / 10) with ((expSeconds - iatSeconds) * 100)
    by (replace ((expSeconds - iatSeconds) * 1000)
          with ((expSeconds - iatSeconds) * 100 * 10) by lia;
        symmetry; apply Z.div_mul; lia).
  rewrite sub_ofZ by (apply below_2_53; lia).
  replace (expSeconds * 1000 - iatSeconds * 1000)
    with (10 * ((expSeconds - iatSeconds) * 100)) by lia.
  rewrite div_ofZ_ten by (apply below_2_53; lia).
  rewrite max_ofZ by (apply below_2_53; lia).
  rewrite min_ofZ by (apply below_2_53; lia).
  apply add_ofZ; apply below_2_53; lia.
Qed.

Lemma scheduler_decision_ofZ (now expSeconds iatSeconds : Z) :
  wholeSeconds expSeconds -> wholeSeconds iatSeconds -> timeValue now ->
  Number.gt (Number.mul (exp (mkPayload expSeconds iatSeconds)) (Number.ofZ 1000))
            (minimumExpiration now (mkPayload expSeconds iatSeconds)) = false
  <-> refreshDueAt now expSeconds iatSeconds.
Proof.
  intros He Hi Hnow. rewrite (minimumExpiration_ofZ He Hi Hnow).
  unfold mkPayload. cbn [exp]. rewrite (expiry_ofZ He).
  unfold wholeSeconds, timeValue, refreshDueAt in *. cbv zeta.
  rewrite gt_ofZ by (apply below_2_53; lia).
  rewrite Z.gtb_ltb, Z.ltb_ge. reflexivity.
Qed.

(** A claim that is NaN makes both comparisons false. *)
Lemma scheduler_decision_nan (now : Z) (decoded : JwtPayload) :
  exp decoded = Number.NaN \/ iat decoded = Number.NaN ->
  Number.isNaN (Number.mul (exp decoded) (Number.ofZ 1000)) = true
  \/ Number.isNaN (minimumExpiration now decoded) = true.
Proof.
  intros [He|Hi].
  - left. rewrite He. reflexivity.
  - right. unfold minimumExpiration, totalTokenLifetimeMs. rewrite Hi.
    change (Number.mul Number.NaN (Number.ofZ 1000)) with Number.NaN.
    replace (Number.sub (Number.mul (exp decoded) (Number.ofZ 1000)) Number.NaN)
      with Number.NaN
      by (destruct (Number.mul (exp decoded) (Number.ofZ 1000)); reflexivity).
    change (Number.div Number.NaN (Number.ofZ 10)) with Number.NaN.
    change (Math.max MINIMUM_REQUIRED_TOKEN_LIFETIME_MS Number.NaN) with Number.NaN.
    change (Math.min REQUIRED_TOKEN_LIFETIME_MS Number.NaN) with Number.NaN.
    destruct (Number.ofZ now); reflexivity.
Qed.

(* ------------------------------------------------------------------ *)
(** ** The refresh scheduler *)

Section Scheduler.

Variable fetchAction : FetchCall -> FetchOutcome.
Variable jwtDecode : string -> option JwtPayload.
Variable now : Z.

(** With both cookies and a decodable token, the run is one of two: no
    call and [undefined], or the refresh call and its collapsed result. *)
Lemma getRefreshedTokens_decoded (t r : string) (v : option string)
    (decoded : JwtPayload) :
  jwtDecode t = Some decoded ->
  runScheduler fetchAction jwtDecode now (mkCookies (Some t) (Some r) v) =
    let seen := [EvRead CToken (Some t); EvRead CRefreshToken (Some r)] in
    if Number.gt (Number.mul (exp decoded) (Number.ofZ 1000))
                 (minimumExpiration now decoded)
    then (Ok TokensUndefined, mkWorld (mkCookies (Some t) (Some r) v) seen)
    else
      (Ok match fetchAction (refreshCall r) with
          | Resolved result =>
              match tokens result with
              | TokensUndefined => TokensNull
              | refreshed => refreshed
              end
          | Rejected => TokensNull
          end,
       mkWorld (mkCookies (Some t) (Some r) v)
         (seen ++ [EvFetch (refreshCall r)])).
Proof.
  intros Hdec. unfold runScheduler, getRefreshedTokens, bind, readCookie, decodeToken.
  cbn [initialWorld store trace cookieOf cookieToken cookieRefreshToken app].
  rewrite Hdec.
  destruct (Number.gt _ _); [reflexivity|].
  unfold tryCatch, fetch, bind, emit, ret, throw.
  cbn [store trace app].
  destruct (fetchAction (refreshCall r)) as [result|]; [|reflexivity].
  destruct (tokens result); reflexivity.
Qed.

(** The calls of such a run: the refresh call unless the token expires
    later than [minimumExpiration]. *)
Lemma scheduler_calls (t r : string) (v : option string) (decoded : JwtPayload) :
  jwtDecode t = Some decoded ->
  callsOf (runScheduler fetchAction jwtDecode now (mkCookies (Some t) (Some r) v))
  = if Number.gt (Number.mul (exp decoded) (Number.ofZ 1000))
                 (minimumExpiration now decoded)
    then [] else [refreshCall r].
Proof.
  intros Hdec. unfold callsOf. rewrite (getRefreshedTokens_decoded r v Hdec).
  cbv zeta. destruct (Number.gt _ _); reflexivity.
Qed.

(** C3 (amended).  For a decodable access token with both cookies present:
    when [exp] and [iat] are whole seconds within range, the scheduler
    performs the refresh call iff
    [exp*1000 <= now + min(60000, max(10000, totalLifetimeMs/10))] with
    [totalLifetimeMs = (exp - iat)*1000], and performs no call otherwise; a
    token of 1000 seconds total lifetime is refreshed iff 60 seconds or less
    remain.  Whatever the claims are, the call is made iff
    [exp*1000 <= minimumExpiration] holds on the Numbers of the source or one
    side of the comparison is NaN; a token whose [exp] or [iat] is missing or
    not a number is refreshed on every request, although the condition
    [<=] is false for it. *)
Theorem refresh_iff_due (t r : string) (v : option string) (decoded : JwtPayload) :
  jwtDecode t = Some decoded ->
  let calls := callsOf (runScheduler fetchAction jwtDecode now (mkCookies (Some t) (Some r) v)) in
  (forall expSeconds iatSeconds,
     decoded = mkPayload expSeconds iatSeconds ->
     wholeSeconds expSeconds -> wholeSeconds iatSeconds -> timeValue now ->
     (calls = [refreshCall r] <-> refreshDueAt now expSeconds iatSeconds)
     /\ (calls = [] <-> ~ refreshDueAt now expSeconds iatSeconds)
     /\ (expSeconds - iatSeconds = 1000 ->
         (calls = [refreshCall r] <-> expSeconds * 1000 - now <= 60000)))
  /\ (calls = [refreshCall r] \/ calls = [])
  /\ (calls = [refreshCall r] <->
      refreshCondition now decoded
      \/ Number.isNaN (Number.mul (exp decoded) (Number.ofZ 1000)) = true
      \/ Number.isNaN (minimumExpiration now decoded) = true)
  /\ (exp decoded = Number.NaN \/ iat decoded = Number.NaN ->
      calls = [refreshCall r] /\ ~ refreshCondition now decoded).
Proof.
  intros Hdec calls. subst calls. rewrite (scheduler_calls r v Hdec).
  assert (Hany : Number.gt (Number.mul (exp decoded) (Number.ofZ 1000))
                   (minimumExpiration now decoded) = false
                 <-> refreshCondition now decoded
                     \/ Number.isNaN (Number.mul (exp decoded) (Number.ofZ 1000)) = true
                     \/ Number.isNaN (minimumExpiration now decoded) = true).
  { rewrite gt_false_iff, isNaN_compare. reflexivity. }
  split; [|split; [|split]].
  - intros expSeconds iatSeconds -> He Hi Hnow.
    pose proof (scheduler_decision_ofZ He Hi Hnow) as Hdecision.
    assert (H1000 : expSeconds - iatSeconds = 1000 ->
                    (refreshDueAt now expSeconds iatSeconds
                     <-> expSeconds * 1000 - now <= 60000)).
    { intros Hlife. unfold refreshDueAt. rewrite Hlife.
      change (Z.min 60000 (Z.max 10000 (1000 * 1000 / 10))) with 60000. lia. }
    destruct (Number.gt _ _).
    + assert (Hnot : ~ refreshDueAt now expSeconds iatSeconds)
        by (rewrite <- Hdecision; discriminate).
      split; [|split].
      * split; [discriminate | contradiction].
      * tauto.
      * intros Hlife. split; [discriminate|].
        intros Hrem. exfalso. apply Hnot, H1000; assumption.
    + assert (Hdue : refreshDueAt now expSeconds iatSeconds)
        by (apply Hdecision; reflexivity).
      split; [|split].
      * tauto.
      * split; [discriminate | contradiction].
      * intros Hlife. split; [|reflexivity].
        intros _. apply H1000; assumption.
  - destruct (Number.gt _ _); [right | left]; reflexivity.
  - rewrite <- Hany. destruct (Number.gt _ _); split; try reflexivity; discriminate.
  - intros Hnan.
    pose proof (@scheduler_decision_nan now decoded Hnan) as Hside.
    assert (Hcmp : SFcompare (Number.mul (exp decoded) (Number.ofZ 1000))
                     (minimumExpiration now decoded) = None)
      by (apply isNaN_compare; exact Hside).
    split.
    + replace (Number.gt _ _) with false; [reflexivity|].
      symmetry. apply gt_false_iff. right. exact Hcmp.
    + unfold refreshCondition, Number.le, SFleb. rewrite Hcmp. discriminate.
Qed.

(** C5 (amended).  When the refresh call is made, the scheduler never
    throws: a result without a [tokens] field, a result with [tokens: null]
    and a failed call all give the outcome [null]; a result with a token
    pair gives that pair. *)
Theorem refresh_outcome (t r : string) (v : option string) (decoded : JwtPayload) :
  jwtDecode t = Some decoded ->
  refreshDue now decoded ->
  fst (runScheduler fetchAction jwtDecode now (mkCookies (Some t) (Some r) v)) =
    Ok match fetchAction (refreshCall r) with
       | Rejected => TokensNull
       | Resolved result =>
           match tokens result with
           | TokensUndefined => TokensNull
           | TokensNull => TokensNull
           | TokensPair issued => TokensPair issued
           end
       end.
Proof.
  intros Hdec Hdue. rewrite (getRefreshedTokens_decoded r v Hdec).
  replace (Number.gt _ _) with false by (symmetry; exact Hdue).
  cbv zeta. cbn [fst]. destruct (fetchAction (refreshCall r)) as [result|]; [|reflexivity].
  destruct (tokens result); reflexivity.
Qed.

End Scheduler.

(** C3, as stated, fails twice.  A token of 1000 seconds total lifetime
    with 80 seconds left (no more than 100) and both cookies present is not
    refreshed: the scheduler makes no call and answers [undefined].  And the
    condition [exp*1000 <= minimumExpiration] does not decide the call on
    every decodable token: a token without [exp] and [iat] is refreshed
    although no comparison with NaN holds; so is a token whose claims are
    1e308, where [exp*1000] is [Infinity] and the lifetime
    [Infinity - Infinity] is NaN. *)
Lemma refresh_not_as_stated :
  let expSeconds := 1000 in
  let iatSeconds := 0 in
  let now := 920000 in
  let decoded := mkPayload expSeconds iatSeconds in
  (expSeconds - iatSeconds = 1000
   /\ expSeconds * 1000 - now <= 100 * 1000
   /\ runScheduler backendRejects (decodeAs decoded) now sessionCookies
      = (Ok TokensUndefined,
         mkWorld sessionCookies
           [EvRead CToken (Some "jwt"); EvRead CRefreshToken (Some "r1")])
   /\ callsOf (runScheduler backendRejects (decodeAs decoded) now sessionCookies) = [])
  /\ (callsOf (runScheduler backendRejects (decodeAs withoutClaims) now sessionCookies)
      = [refreshCall "r1"]
      /\ ~ refreshCondition now withoutClaims)
  /\ (Number.mul (exp hugeClaims) (Number.ofZ 1000) = S754_infinity false
      /\ totalTokenLifetimeMs hugeClaims = Number.NaN
      /\ callsOf (runScheduler backendRejects (decodeAs hugeClaims) now sessionCookies)
         = [refreshCall "r1"]
      /\ ~ refreshCondition now hugeClaims).
Proof.
  cbv zeta. repeat split; try (vm_compute; congruence);
    unfold refreshCondition; vm_compute; discriminate.
Qed.

Lemma refresh_iff_due_witness :
  callsOf (runScheduler backendRejects (decodeAs (mkPayload 1000 0)) 940000 sessionCookies)
  = [refreshCall "r1"].
Proof.
  assert (He : wholeSeconds 1000) by (unfold wholeSeconds; lia).
  assert (Hi : wholeSeconds 0) by (unfold wholeSeconds; lia).
  assert (Hnow : timeValue 940000) by (unfold timeValue; lia).
  apply (proj2 (proj2 (proj1 (@refresh_iff_due backendRejects (decodeAs (mkPayload 1000 0))
                                940000 "jwt" "r1" (Some "v1") (mkPayload 1000 0) eq_refl)
                         1000 0 eq_refl He Hi Hnow))).
  - reflexivity.
  - lia.
Defined.

(** C5, as stated, fails: a refresh result without a [tokens] field does not
    surface as a fault; the scheduler completes with the outcome [null]. *)
Lemma refresh_missing_tokens_is_invalid :
  fst (runScheduler (backendReturns (mkResult None None TokensUndefined))
         (decodeAs (mkPayload 1000 0)) 990000 sessionCookies)
  = Ok TokensNull.
Proof. vm_compute. reflexivity. Qed.

Lemma refresh_outcome_witness :
  fst (runScheduler
         (backendReturns (mkResult None None (TokensPair (mkTokens "t2" "r2"))))
         (decodeAs (mkPayload 1000 0)) 990000 sessionCookies)
  = Ok (TokensPair (mkTokens "t2" "r2")).
Proof.
  apply (@refresh_outcome
           (backendReturns (mkResult None None (TokensPair (mkTokens "t2" "r2"))))
           (decodeAs (mkPayload 1000 0)) 990000 "jwt" "r1" (Some "v1")
           (mkPayload 1000 0) eq_refl).
  vm_compute. reflexivity.
Defined.

(* ------------------------------------------------------------------ *)
(** ** The request authenticator *)

Lemma fetches_app (a b : list Event) : fetches (a ++ b) = fetches a ++ fetches b.
Proof.
  induction a as [|[n v|c] a IH]; simpl; [reflexivity | exact IH | now rewrite IH].
Qed.

Lemma reads_app (a b : list Event) : reads (a ++ b) = reads a ++ reads b.
Proof.
  induction a as [|[n v|c] a IH]; simpl; [reflexivity | now rewrite IH | exact IH].
Qed.

Section Authenticator.

Variable fetchAction : FetchCall -> FetchOutcome.
Variable jwtDecode : string -> option JwtPayload.
Variable now : Z.
Variable isCorsRequest : NextRequest -> bool.

(** The cookie view as the stages after the CORS guard find it. *)
Lemma validateCors_run (request : NextRequest) (w : World) :
  validateCors isCorsRequest request w =
    (Ok tt, mkWorld (if isCorsRequest request then noCookies else store w) (trace w)).
Proof.
  unfold validateCors. destruct (isCorsRequest request); [reflexivity|].
  destruct w; reflexivity.
Qed.

(** The scheduler always completes; it reads the two token cookies, leaves
    the view as it is and calls the backend at most once. *)
Lemma getRefreshedTokens_run (w : World) :
  exists (out : Tokens) (calls : list Event),
    getRefreshedTokens fetchAction jwtDecode now w =
      (Ok out,
       mkWorld (store w)
         (trace w ++ [EvRead CToken (cookieToken (store w));
                      EvRead CRefreshToken (cookieRefreshToken (store w))] ++ calls))
    /\ reads calls = []
    /\ (List.length (fetches calls) <= 1)%nat.
Proof.
  destruct w as [[tk rt vf] tr].
  unfold getRefreshedTokens, bind, readCookie, decodeToken. simpl.
  rewrite <- app_assoc. simpl.
  destruct rt as [r|], tk as [t|];
    try (eexists _, []; repeat split; simpl; auto; fail).
  destruct (jwtDecode t) as [decoded|];
    [| eexists _, []; repeat split; simpl; auto].
  destruct (Number.gt _ _);
    [eexists _, []; repeat split; simpl; auto |].
  unfold tryCatch, fetch, bind, emit, ret, throw. simpl.
  rewrite <- app_assoc. simpl.
  destruct (fetchAction (refreshCall r)) as [result|];
    [destruct (tokens result) |];
    eexists _, [EvFetch (refreshCall r)]; repeat split; simpl; auto.
Qed.

(** The whole run of the authenticator: the guard, the scheduler on the
    guarded view, and the code exchange when the request qualifies. *)
Lemma handleAuthenticationInRequest_run (request : NextRequest) (cookies : Cookies) :
  let view := if isCorsRequest request then noCookies else cookies in
  let seen := [EvRead CToken (cookieToken view);
               EvRead CRefreshToken (cookieRefreshToken view)] in
  exists (out : Tokens) (calls : list Event),
    getRefreshedTokens fetchAction jwtDecode now (mkWorld view []) =
      (Ok out, mkWorld view (seen ++ calls))
    /\ reads calls = []
    /\ (List.length (fetches calls) <= 1)%nat
    /\ runAuthenticator fetchAction jwtDecode now isCorsRequest request cookies =
         match searchParamsGet (searchParams (url request)) "code" with
         | Some code =>
             if isCodeExchange request then
               let target := urlDeleteParam (url request) "code" in
               let call := codeExchangeCall code (orUndefined (cookieVerifier view)) in
               (Ok (KindRedirect
                      (setAuthCookies (redirectResponse target)
                         (exchangedPair (fetchAction call)))),
                mkWorld view
                  (seen ++ calls
                   ++ [EvRead CVerifier (cookieVerifier view); EvFetch call]))
             else (Ok (KindRefreshTokens out), mkWorld view (seen ++ calls))
         | None => (Ok (KindRefreshTokens out), mkWorld view (seen ++ calls))
         end.
Proof.
  intros view seen.
  destruct (getRefreshedTokens_run (mkWorld view []))
    as (out & calls & Hrun & Hreads & Hlen).
  simpl in Hrun. exists out, calls. repeat split; try assumption.
  unfold runAuthenticator, handleAuthenticationInRequest, bind, initialWorld.
  rewrite validateCors_run. simpl store. simpl trace. fold view.
  rewrite Hrun.
  destruct (searchParamsGet (searchParams (url request)) "code") as [code|];
    [|reflexivity].
  destruct (isCodeExchange request); [|reflexivity].
  unfold readCookie, tryCatch, fetch, bind, emit, ret, throw. simpl.
  repeat rewrite <- app_assoc. simpl.
  destruct (fetchAction (codeExchangeCall code (orUndefined (cookieVerifier view))))
    as [result|]; [|reflexivity].
  simpl. destruct (tokens result); reflexivity.
Qed.

Lemma isCodeExchange_intro (request : NextRequest) (accept code : string) :
  method request = "GET" ->
  headersGet request "accept" = Some accept ->
  includes accept "text/html" = true ->
  searchParamsGet (searchParams (url request)) "code" = Some code ->
  code <> "" ->
  isCodeExchange request = true.
Proof.
  intros Hm Ha Hi Hc Hne. unfold isCodeExchange.
  rewrite Hc, Hm, Ha, Hi.
  destruct code; [contradiction | reflexivity].
Qed.

(** C2.  On a request that the classifier marks as cross-origin, the
    authenticator first overwrites the three cookies of the request-scoped
    view with [null]: every cookie read made while the request is served
    returns [null], the view ends with the three cookies [null], and the
    whole run (result, calls, trace) is the same whatever cookies came
    with the request. *)
Theorem cross_origin_reads_null (request : NextRequest) (cookies : Cookies) :
  isCorsRequest request = true ->
  let run := runAuthenticator fetchAction jwtDecode now isCorsRequest request cookies in
  store (snd run) = noCookies
  /\ (forall name seen, In (name, seen) (readsOf run) -> seen = None)
  /\ (forall other,
        runAuthenticator fetchAction jwtDecode now isCorsRequest request other = run).
Proof.
  intros Hcors run.
  assert (Hsame : forall other,
    runAuthenticator fetchAction jwtDecode now isCorsRequest request other = run).
  { intros other. unfold run, runAuthenticator, handleAuthenticationInRequest, bind.
    rewrite !validateCors_run, Hcors. reflexivity. }
  destruct (handleAuthenticationInRequest_run request cookies)
    as (out & calls & _ & Hreads & _ & Hrun).
  rewrite Hcors in Hrun. fold run in Hrun. simpl in Hrun.
  split; [|split]; [| |exact Hsame].
  - rewrite Hrun.
    destruct (searchParamsGet (searchParams (url request)) "code");
      [destruct (isCodeExchange request)|]; reflexivity.
  - intros name seen. unfold readsOf. rewrite Hrun.
    destruct (searchParamsGet (searchParams (url request)) "code");
      [destruct (isCodeExchange request)|]; simpl;
      rewrite ?reads_app, Hreads; simpl;
      intros Hin; repeat (destruct Hin as [Hin|Hin]; [congruence|]);
      contradiction.
Qed.

(** C7 (amended).  On a GET request with an [Accept] header that includes
    [text/html] and whose [code] query parameter is a non-empty string, the
    authenticator answers with a redirect to the same URL without its
    [code] parameters, whether the exchange succeeds or fails; with a
    concrete token pair in the result the redirect writes that pair to the
    auth cookies, and with a failed call or a result without a pair it
    clears the three auth cookies. *)
Theorem code_exchange_redirects (request : NextRequest) (cookies : Cookies)
    (accept code : string) :
  method request = "GET" ->
  headersGet request "accept" = Some accept ->
  includes accept "text/html" = true ->
  searchParamsGet (searchParams (url request)) "code" = Some code ->
  code <> "" ->
  let target := urlDeleteParam (url request) "code" in
  let view := if isCorsRequest request then noCookies else cookies in
  let call := codeExchangeCall code (orUndefined (cookieVerifier view)) in
  exists response,
    fst (runAuthenticator fetchAction jwtDecode now isCorsRequest request cookies)
      = Ok (KindRedirect response)
    /\ status response = 307
    /\ location response = Some target
    /\ origin target = origin (url request)
    /\ pathname target = pathname (url request)
    /\ searchParams target = searchParamsDelete (searchParams (url request)) "code"
    /\ searchParamsGet (searchParams target) "code" = None
    /\ cookieWrites response =
         match fetchAction call with
         | Resolved result =>
             match tokens result with
             | TokensPair issued =>
                 [(CToken, VStr (token issued));
                  (CRefreshToken, VStr (refreshToken issued))]
             | TokensNull | TokensUndefined =>
                 [(CToken, VNull); (CRefreshToken, VNull); (CVerifier, VNull)]
             end
         | Rejected =>
             [(CToken, VNull); (CRefreshToken, VNull); (CVerifier, VNull)]
         end.
Proof.
  intros Hm Ha Hi Hc Hne target view call.
  pose proof (isCodeExchange_intro request Hm Ha Hi Hc Hne) as Hex.
  destruct (handleAuthenticationInRequest_run request cookies)
    as (out & calls & _ & _ & _ & Hrun).
  rewrite Hc, Hex in Hrun. fold view in Hrun. fold target call in Hrun.
  rewrite Hrun. simpl fst.
  eexists. split; [reflexivity|].
  repeat split.
  - destruct (exchangedPair (fetchAction call)); reflexivity.
  - destruct (exchangedPair (fetchAction call)); reflexivity.
  - apply searchParamsGet_delete.
  - unfold exchangedPair.
    destruct (fetchAction call) as [result|]; [|reflexivity].
    destruct (tokens result); reflexivity.
Qed.

End Authenticator.

(** C7, as stated, fails: a GET navigation that accepts [text/html] and has a
    [code] query parameter, here with an empty value, is not redirected; the
    authenticator hands back the scheduler's outcome and makes no call. *)
Lemma empty_code_is_not_exchanged :
  method emptyCodeRequest = "GET"
  /\ headersGet emptyCodeRequest "accept" = Some "text/html"
  /\ searchParamsGet (searchParams (url emptyCodeRequest)) "code" = Some ""
  /\ runAuthenticator backendRejects (decodeAs (mkPayload 1000 0)) 0 originMismatch
       emptyCodeRequest noCookies
     = (Ok (KindRefreshTokens TokensUndefined),
        mkWorld noCookies [EvRead CToken None; EvRead CRefreshToken None]).
Proof. repeat split. Qed.

Lemma code_exchange_redirects_witness :
  exists response,
    fst (runAuthenticator
           (backendReturns (mkResult None None (TokensPair (mkTokens "t2" "r2"))))
           (decodeAs (mkPayload 1000 0)) 0 originMismatch callbackRequest
           (mkCookies None None (Some "v1")))
      = Ok (KindRedirect response)
    /\ location response = Some (mkURL "https://app.example" "/cb" [("next", "home")])
    /\ cookieWrites response = [(CToken, VStr "t2"); (CRefreshToken, VStr "r2")].
Proof.
  destruct (@code_exchange_redirects
              (backendReturns (mkResult None None (TokensPair (mkTokens "t2" "r2"))))
              (decodeAs (mkPayload 1000 0)) 0 originMismatch callbackRequest
              (mkCookies None None (Some "v1"))
              "text/html,application/xhtml+xml" "abc123"
              eq_refl eq_refl eq_refl eq_refl ltac:(discriminate))
    as (response & Hrun & _ & Hloc & _ & _ & _ & _ & Hwrites).
  exists response. repeat split; assumption.
Defined.

Lemma cross_origin_reads_null_witness :
  readsOf (runAuthenticator backendRejects (decodeAs (mkPayload 1000 0)) 990000
             originMismatch foreignRequest sessionCookies)
  = [(CToken, None); (CRefreshToken, None); (CVerifier, None)]
  /\ store (snd (runAuthenticator backendRejects (decodeAs (mkPayload 1000 0)) 990000
                   originMismatch foreignRequest sessionCookies)) = noCookies.
Proof.
  split; [reflexivity|].
  exact (proj1 (@cross_origin_reads_null backendRejects (decodeAs (mkPayload 1000 0))
                  990000 originMismatch foreignRequest sessionCookies eq_refl)).
Defined.

(* ------------------------------------------------------------------ *)
(** ** The action proxy *)

Lemma strictEqStr_true (x : value) (lit : string) :
  strictEqStr x lit = true <-> x = VStr lit.
Proof.
  split.
  - destruct x; try discriminate. simpl. intros H.
    apply String.eqb_eq in H. now subst.
  - intros ->. simpl. apply String.eqb_refl.
Qed.

Lemma isDefined_true (x : value) : isDefined x = true <-> x <> VUndefined.
Proof.
  destruct x; simpl; split; try discriminate; try congruence; auto.
Qed.

Lemma getProp_other_key (x : value) (key other : string) (v : value) :
  getProp x key = Some v -> exists u, getProp x other = Some u.
Proof.
  destruct x; simpl; try discriminate; intros _; eexists; reflexivity.
Qed.

Section Proxy.

Variable isCorsRequest : NextRequest -> bool.

Implicit Types (fetchAction : FetchCall -> FetchOutcome) (request : NextRequest)
  (options : ProxyOptions) (cookies : Cookies).

Lemma proxyFetchAndRespond_run fetchAction options (action : string)
    (args : value) (bearer : option string) (w : World) :
  proxyFetchAndRespond fetchAction options action args bearer w =
    (match fetchAction (mkCall action args (convexUrl options) bearer) with
     | Resolved result => Ok (proxyRespond action result)
     | Rejected => Threw "fetchAction failed"
     end,
     mkWorld (store w)
       (trace w ++ [EvFetch (mkCall action args (convexUrl options) bearer)])).
Proof.
  unfold proxyFetchAndRespond, fetch, bind, emit, ret, throw. simpl.
  destruct (fetchAction (mkCall action args (convexUrl options) bearer));
    reflexivity.
Qed.

(** The proxy after its three checks and the parse of the body. *)
Lemma runProxy_dispatch fetchAction request options cookies
    (parsed action args : value) :
  method request = "POST" ->
  isCorsRequest request = false ->
  json request = Some parsed ->
  getProp parsed "action" = Some action ->
  getProp parsed "args" = Some args ->
  runProxy fetchAction isCorsRequest request options cookies =
    (if negb (strictEqStr action "auth:signIn")
        && negb (strictEqStr action "auth:signOut")
     then ret (textResponse "Invalid action" 400)
     else if strictEqStr action "auth:signIn" then
       clientRefreshToken <- prop args "refreshToken" ;;
       if isDefined clientRefreshToken then
         refreshToken <- readCookie CRefreshToken ;;
         match refreshToken with
         | None =>
             ret (mkResponse 200 (BodyJson (VObj [("tokens", VNull)])) None [])
         | Some refreshToken =>
             proxyFetchAndRespond fetchAction options "auth:signIn"
               (setProp args "refreshToken" (VStr refreshToken)) None
         end
       else
         token <- readCookie CToken ;;
         proxyFetchAndRespond fetchAction options "auth:signIn" args token
     else
       token <- readCookie CToken ;;
       proxyFetchAndRespond fetchAction options "auth:signOut" args token)
      (initialWorld cookies).
Proof.
  intros Hm Hcors Hjson Haction Hargs.
  unfold runProxy, proxyAuthActionToConvex, requestJson.
  rewrite Hm, Hcors, Hjson. simpl negb.
  cbv beta iota delta [bind ret prop]. rewrite Haction.
  cbv beta iota. rewrite Hargs. reflexivity.
Qed.

Lemma runProxy_wrong_method fetchAction request options cookies :
  method request <> "POST" ->
  runProxy fetchAction isCorsRequest request options cookies =
    (Ok (textResponse "Invalid method" 405), initialWorld cookies).
Proof.
  intros Hm. apply String.eqb_neq in Hm.
  unfold runProxy, proxyAuthActionToConvex. rewrite Hm. reflexivity.
Qed.

Lemma runProxy_cross_origin fetchAction request options cookies :
  method request = "POST" ->
  isCorsRequest request = true ->
  runProxy fetchAction isCorsRequest request options cookies =
    (Ok (textResponse "Invalid origin" 403), initialWorld cookies).
Proof.
  intros Hm Hcors.
  unfold runProxy, proxyAuthActionToConvex. rewrite Hm, Hcors. reflexivity.
Qed.

(** A body that is not JSON, or that is [null], makes the proxy throw
    before any call. *)
Lemma runProxy_unreadable_body request options cookies :
  method request = "POST" ->
  isCorsRequest request = false ->
  (json request = None
   \/ exists parsed, json request = Some parsed /\ getProp parsed "action" = None) ->
  exists message, forall fetchAction,
    runProxy fetchAction isCorsRequest request options cookies =
      (Threw message, initialWorld cookies).
Proof.
  intros Hm Hcors Hbody.
  unfold runProxy, proxyAuthActionToConvex, requestJson.
  rewrite Hm, Hcors. simpl negb.
  destruct Hbody as [Hjson | (parsed & Hjson & Haction)]; rewrite Hjson.
  - eexists. reflexivity.
  - cbv beta iota delta [bind ret prop]. rewrite Haction. eexists. reflexivity.
Qed.

(** Every run of the proxy.  Either the run does not depend on the backend:
    it makes no call, and a response, if any, is one of the three refusals
    or the short-circuit [{ tokens: null }].  Or it makes exactly one call,
    for a same-origin POST of one of the two actions, and the result of
    that call decides the answer. *)
Lemma runProxy_summary request options cookies :
  (exists outcome : Completion Response * World,
      (forall fetchAction,
          runProxy fetchAction isCorsRequest request options cookies = outcome)
      /\ callsOf outcome = []
      /\ forall response, fst outcome = Ok response ->
           (exists text code, response = textResponse text code)
           \/ response = mkResponse 200 (BodyJson (VObj [("tokens", VNull)])) None [])
  \/ (exists parsed action args bearer,
        method request = "POST"
        /\ isCorsRequest request = false
        /\ json request = Some parsed
        /\ getProp parsed "action" = Some (VStr action)
        /\ (action = "auth:signIn" \/ action = "auth:signOut")
        /\ forall fetchAction,
             let run := runProxy fetchAction isCorsRequest request options cookies in
             callsOf run = [mkCall action args (convexUrl options) bearer]
             /\ fst run =
                  match fetchAction (mkCall action args (convexUrl options) bearer) with
                  | Resolved result => Ok (proxyRespond action result)
                  | Rejected => Threw "fetchAction failed"
                  end).
Proof.
  destruct (String.eqb_spec (method request) "POST") as [Hm|Hm].
  2:{ left. eexists. split; [intros f; apply runProxy_wrong_method; exact Hm|].
      split; [reflexivity|]. intros response [= <-]. left. eauto. }
  destruct (isCorsRequest request) eqn:Hcors.
  { left. eexists.
    split; [intros f; apply runProxy_cross_origin; assumption|].
    split; [reflexivity|]. intros response [= <-]. left. eauto. }
  destruct (json request) as [parsed|] eqn:Hjson.
  2:{ left.
      destruct (@runProxy_unreadable_body request options cookies Hm Hcors)
        as (m & Hrun); [left; exact Hjson|].
      eexists. split; [exact Hrun|]. split; [reflexivity | discriminate]. }
  destruct (getProp parsed "action") as [action|] eqn:Haction.
  2:{ left.
      destruct (@runProxy_unreadable_body request options cookies Hm Hcors)
        as (m & Hrun); [right; eauto|].
      eexists. split; [exact Hrun|]. split; [reflexivity | discriminate]. }
  destruct (@getProp_other_key parsed "action" "args" action Haction) as (args & Hargs).
  pose proof (fun f => @runProxy_dispatch f request options cookies parsed action args
                         Hm Hcors Hjson Haction Hargs) as Hrun.
  destruct (strictEqStr action "auth:signIn") eqn:Hin.
  - apply strictEqStr_true in Hin. subst action. simpl in Hrun.
    unfold bind, prop in Hrun.
    destruct (getProp args "refreshToken") as [client|]; simpl in Hrun.
    2:{ left. eexists. split; [exact Hrun|]. split; [reflexivity | discriminate]. }
    destruct (isDefined client); unfold readCookie in Hrun; simpl in Hrun.
    + destruct (cookieRefreshToken cookies) as [stored|]; simpl in Hrun.
      * right.
        exists parsed, "auth:signIn", (setProp args "refreshToken" (VStr stored)), None.
        repeat split; auto; rewrite Hrun, proxyFetchAndRespond_run; reflexivity.
      * left. eexists. split; [exact Hrun|]. split; [reflexivity|].
        intros response [= <-]. right. reflexivity.
    + right. exists parsed, "auth:signIn", args, (cookieToken cookies).
      repeat split; auto; rewrite Hrun, proxyFetchAndRespond_run; reflexivity.
  - destruct (strictEqStr action "auth:signOut") eqn:Hout; simpl in Hrun.
    + apply strictEqStr_true in Hout. subst action.
      unfold bind, readCookie in Hrun. simpl in Hrun.
      right. exists parsed, "auth:signOut", args, (cookieToken cookies).
      repeat split; auto; rewrite Hrun, proxyFetchAndRespond_run; reflexivity.
    + left. eexists. split; [exact Hrun|]. split; [reflexivity|].
      intros response [= <-]. left. eauto.
Qed.

(** C6.  The three checks of the proxy, in the order the proxy makes
    them: a request whose method is not POST is answered 405; a POST that
    is cross-origin is answered 403; a POST that passed that check and
    whose body's [action] is neither ["auth:signIn"] nor ["auth:signOut"]
    is answered 400; none of these calls the backend, and a run that calls
    the backend is a same-origin POST of one of the two actions. *)
Theorem proxy_guards fetchAction request options cookies :
  let run := runProxy fetchAction isCorsRequest request options cookies in
  (method request <> "POST" -> statusOf run = Some 405 /\ callsOf run = [])
  /\ (method request = "POST" -> isCorsRequest request = true ->
      statusOf run = Some 403 /\ callsOf run = [])
  /\ (forall parsed action,
        method request = "POST" -> isCorsRequest request = false ->
        json request = Some parsed ->
        getProp parsed "action" = Some action ->
        action <> VStr "auth:signIn" -> action <> VStr "auth:signOut" ->
        statusOf run = Some 400 /\ callsOf run = [])
  /\ (callsOf run <> [] ->
      method request = "POST" /\ isCorsRequest request = false
      /\ exists parsed action,
           json request = Some parsed
           /\ getProp parsed "action" = Some (VStr action)
           /\ (action = "auth:signIn" \/ action = "auth:signOut")).
Proof.
  intros run. subst run. split; [|split; [|split]].
  - intros Hm. rewrite (@runProxy_wrong_method fetchAction request options cookies Hm).
    split; reflexivity.
  - intros Hm Hcors.
    rewrite (@runProxy_cross_origin fetchAction request options cookies Hm Hcors).
    split; reflexivity.
  - intros parsed action Hm Hcors Hjson Haction Hin Hout.
    destruct (@getProp_other_key parsed "action" "args" action Haction)
      as (args & Hargs).
    rewrite (@runProxy_dispatch fetchAction request options cookies parsed action
               args Hm Hcors Hjson Haction Hargs).
    destruct (strictEqStr action "auth:signIn") eqn:E1;
      [apply strictEqStr_true in E1; contradiction|].
    destruct (strictEqStr action "auth:signOut") eqn:E2;
      [apply strictEqStr_true in E2; contradiction|].
    split; reflexivity.
  - intros Hcalls.
    destruct (runProxy_summary request options cookies)
      as [(outcome & Hrun & Hnone & _)
         | (parsed & action & args & bearer & Hm & Hcors & Hjson & Ha & Hact & _)].
    + rewrite Hrun in Hcalls. contradiction.
    + repeat split; try assumption. exists parsed, action. auto.
Qed.

(** C8.  A sign-in call through the proxy (a same-origin POST with action
    ["auth:signIn"]) whose [args] carry a [refreshToken], while the
    [refreshToken] cookie is [null], is answered 200 with the JSON body
    [{ "tokens": null }]; the backend is not called and the response sets
    no cookie. *)
Theorem signIn_without_refresh_cookie fetchAction request options cookies
    (parsed args clientToken : value) :
  method request = "POST" ->
  isCorsRequest request = false ->
  json request = Some parsed ->
  getProp parsed "action" = Some (VStr "auth:signIn") ->
  getProp parsed "args" = Some args ->
  getProp args "refreshToken" = Some clientToken ->
  clientToken <> VUndefined ->
  cookieRefreshToken cookies = None ->
  let run := runProxy fetchAction isCorsRequest request options cookies in
  fst run = Ok (mkResponse 200 (BodyJson (VObj [("tokens", VNull)])) None [])
  /\ statusOf run = Some 200
  /\ callsOf run = []
  /\ (forall response, fst run = Ok response -> cookieWrites response = []).
Proof.
  intros Hm Hcors Hjson Haction Hargs Hclient Hdef Hcookie run. subst run.
  rewrite (@runProxy_dispatch fetchAction request options cookies parsed _ args
             Hm Hcors Hjson Haction Hargs).
  apply isDefined_true in Hdef.
  simpl. unfold bind, prop, readCookie. rewrite Hclient. simpl.
  rewrite Hdef. simpl. rewrite Hcookie.
  repeat split. intros response [= <-]. reflexivity.
Qed.

(** C9.  In a sign-in call whose [args.refreshToken] is defined, the value
    the client supplied is overwritten by the cookie-held refresh token
    whatever it is: two such calls that differ in the supplied value only,
    under the same cookies, run alike, and the backend (called once, if the
    cookie is there) receives the arguments with the cookie's value. *)
Theorem client_refresh_token_not_forwarded fetchAction
    (request1 request2 : NextRequest) options cookies
    (parsed1 parsed2 : value) (fields : list (string * value))
    (supplied1 supplied2 : value) :
  method request1 = "POST" -> method request2 = "POST" ->
  isCorsRequest request1 = false -> isCorsRequest request2 = false ->
  json request1 = Some parsed1 -> json request2 = Some parsed2 ->
  getProp parsed1 "action" = Some (VStr "auth:signIn") ->
  getProp parsed2 "action" = Some (VStr "auth:signIn") ->
  getProp parsed1 "args" = Some (VObj (assocSet fields "refreshToken" supplied1)) ->
  getProp parsed2 "args" = Some (VObj (assocSet fields "refreshToken" supplied2)) ->
  supplied1 <> VUndefined -> supplied2 <> VUndefined ->
  let run1 := runProxy fetchAction isCorsRequest request1 options cookies in
  let run2 := runProxy fetchAction isCorsRequest request2 options cookies in
  run1 = run2
  /\ callsOf run1 =
       match cookieRefreshToken cookies with
       | Some stored =>
           [mkCall "auth:signIn"
              (VObj (assocSet fields "refreshToken" (VStr stored)))
              (convexUrl options) None]
       | None => []
       end.
Proof.
  intros Hm1 Hm2 Hc1 Hc2 Hj1 Hj2 Ha1 Ha2 Hargs1 Hargs2 Hd1 Hd2 run1 run2.
  subst run1 run2.
  rewrite (@runProxy_dispatch fetchAction request1 options cookies parsed1 _ _
             Hm1 Hc1 Hj1 Ha1 Hargs1).
  rewrite (@runProxy_dispatch fetchAction request2 options cookies parsed2 _ _
             Hm2 Hc2 Hj2 Ha2 Hargs2).
  apply isDefined_true in Hd1, Hd2.
  simpl. unfold bind, prop, readCookie. simpl.
  rewrite !assocGet_assocSet. simpl. rewrite Hd1, Hd2. simpl.
  destruct (cookieRefreshToken cookies) as [stored|]; simpl.
  - rewrite !proxyFetchAndRespond_run, !assocSet_overwrite. simpl.
    split; reflexivity.
  - split; reflexivity.
Qed.

End Proxy.

(** Every run of the proxy, as a function of the backend and of the cookies
    that came with the request.  Either the request is refused or cannot be
    read: the run is the same whatever the backend and the cookies are, and
    a response, if any, is a text.  Or it is a sign-in with a client-side
    [refreshToken]: without the cookie the answer is [{ tokens: null }],
    with it the call carries the cookie's value.  Or the arguments are
    forwarded as they are, with the token cookie as bearer. *)
Lemma runProxy_shape (isCorsRequest : NextRequest -> bool) (request : NextRequest)
    (options : ProxyOptions) :
  (exists completion : Completion Response,
      (forall fetchAction cookies,
          runProxy fetchAction isCorsRequest request options cookies
          = (completion, initialWorld cookies))
      /\ forall response, completion = Ok response ->
           exists text code, response = textResponse text code)
  \/ (exists args,
        forall fetchAction cookies,
          let run := runProxy fetchAction isCorsRequest request options cookies in
          match cookieRefreshToken cookies with
          | None =>
              fst run = Ok (mkResponse 200 (BodyJson (VObj [("tokens", VNull)])) None [])
              /\ callsOf run = []
          | Some stored =>
              let call := mkCall "auth:signIn"
                            (setProp args "refreshToken" (VStr stored))
                            (convexUrl options) None in
              callsOf run = [call]
              /\ fst run = match fetchAction call with
                           | Resolved result => Ok (proxyRespond "auth:signIn" result)
                           | Rejected => Threw "fetchAction failed"
                           end
          end)
  \/ (exists action args,
        (action = "auth:signIn" \/ action = "auth:signOut")
        /\ forall fetchAction cookies,
             let run := runProxy fetchAction isCorsRequest request options cookies in
             let call := mkCall action args (convexUrl options) (cookieToken cookies) in
             callsOf run = [call]
             /\ fst run = match fetchAction call with
                          | Resolved result => Ok (proxyRespond action result)
                          | Rejected => Threw "fetchAction failed"
                          end).
Proof.
  destruct (String.eqb_spec (method request) "POST") as [Hm|Hm].
  2:{ left. eexists. split.
      - intros f c. apply runProxy_wrong_method. exact Hm.
      - intros response [= <-]. eauto. }
  destruct (isCorsRequest request) eqn:Hcors.
  { left. eexists. split.
    - intros f c. apply runProxy_cross_origin; assumption.
    - intros response [= <-]. eauto. }
  destruct (json request) as [parsed|] eqn:Hjson.
  2:{ left. exists (Threw "SyntaxError: the body is not JSON"). split.
      - intros f c. unfold runProxy, proxyAuthActionToConvex, requestJson.
        rewrite Hm, Hcors, Hjson. reflexivity.
      - discriminate. }
  destruct (getProp parsed "action") as [action|] eqn:Haction.
  2:{ left. exists (Threw "TypeError: cannot read properties of undefined or null").
      split.
      - intros f c. unfold runProxy, proxyAuthActionToConvex, requestJson.
        rewrite Hm, Hcors, Hjson. simpl negb.
        cbv beta iota delta [bind ret prop]. rewrite Haction. reflexivity.
      - discriminate. }
  destruct (@getProp_other_key parsed "action" "args" action Haction) as (args & Hargs).
  pose proof (fun f c => @runProxy_dispatch isCorsRequest f request options c parsed
                           action args Hm Hcors Hjson Haction Hargs) as Hrun.
  destruct (strictEqStr action "auth:signIn") eqn:Hin.
  - apply strictEqStr_true in Hin. subst action. simpl in Hrun.
    unfold bind, prop in Hrun.
    destruct (getProp args "refreshToken") as [client|]; simpl in Hrun.
    2:{ left. eexists. split; [exact Hrun | discriminate]. }
    destruct (isDefined client); unfold readCookie in Hrun; simpl in Hrun.
    + right. left. exists args. intros f c. cbv zeta. rewrite Hrun.
      destruct (cookieRefreshToken c) as [stored|].
      * rewrite proxyFetchAndRespond_run. split; reflexivity.
      * split; reflexivity.
    + right. right. exists "auth:signIn", args. split; [left; reflexivity|].
      intros f c. cbv zeta. rewrite Hrun, proxyFetchAndRespond_run.
      split; reflexivity.
  - destruct (strictEqStr action "auth:signOut") eqn:Hout; simpl in Hrun.
    + apply strictEqStr_true in Hout. subst action.
      unfold bind, readCookie in Hrun. simpl in Hrun.
      right. right. exists "auth:signOut", args. split; [right; reflexivity|].
      intros f c. cbv zeta. rewrite Hrun, proxyFetchAndRespond_run.
      split; reflexivity.
    + left. eexists. split; [exact Hrun|]. intros response [= <-]. eauto.
Qed.

(** The answer to a result that keeps the contract of the backend. *)
Lemma proxyRespond_discriminated (result : SignInResult) :
  discriminated result = true ->
  body (proxyRespond "auth:signIn" result) =
    BodyJson match redirect result, tokens result with
             | Some target, _ => VObj [("redirect", VStr target)]
             | None, TokensPair issued =>
                 VObj [("tokens", VObj [("token", VStr (token issued));
                                        ("refreshToken", VStr "dummy")])]
             | None, _ => VObj [("tokens", VNull)]
             end.
Proof.
  destruct result as [[target|] [v|] [| |issued] [|other rest]];
    try discriminate; reflexivity.
Qed.

Lemma proxyRespond_same_body (action : string) (x y : SignInResult) :
  sameUpToRefreshToken (Resolved x) (Resolved y) ->
  body (proxyRespond action x) = body (proxyRespond action y).
Proof.
  unfold sameUpToRefreshToken, proxyRespond, resultValue. intros (Hr & Hv & Ho & Ht).
  destruct (String.eqb action "auth:signIn"); [|reflexivity].
  rewrite Hr, Hv, Ho. destruct (redirect y); [reflexivity|].
  destruct (tokens x), (tokens y); try contradiction; try reflexivity.
  simpl. rewrite Ht. reflexivity.
Qed.

(** C1.  For a [signIn] call of the proxy whose backend result keeps the
    contract of the backend and carries a token pair, the JSON body is
    [{ tokens: { token, refreshToken: "dummy" } }] with the access token of
    the pair.  No refresh token reaches a JSON body: when the results keep
    the contract, every [refreshToken] field of a body holds the literal
    ["dummy"], and every string of a body is that literal, the [redirect] of
    the result or the access token of the issued pair; and the body is the
    same for any refresh token in the cookie and any refresh token in the
    issued pair, whatever else the backend answers. *)
Theorem proxy_body_hides_refresh_token
    (fetchAction : FetchCall -> FetchOutcome) (isCorsRequest : NextRequest -> bool)
    (request : NextRequest) (options : ProxyOptions) (cookies : Cookies) :
  let run := runProxy fetchAction isCorsRequest request options cookies in
  (forall call result issued,
      callsOf run = [call] ->
      callAction call = "auth:signIn" ->
      fetchAction call = Resolved result ->
      discriminated result = true ->
      tokens result = TokensPair issued ->
      exists response,
        fst run = Ok response
        /\ body response =
             BodyJson (VObj [("tokens",
                              VObj [("token", VStr (token issued));
                                    ("refreshToken", VStr "dummy")])]))
  /\ ((forall call result,
         In call (callsOf run) ->
         callAction call = "auth:signIn" ->
         fetchAction call = Resolved result ->
         discriminated result = true) ->
      forall response,
        fst run = Ok response ->
        bodyHidesRefreshToken (body response) = true
        /\ forall s,
             In s (bodyStrings (body response)) ->
             s = "dummy"
             \/ exists call result,
                  callsOf run = [call]
                  /\ fetchAction call = Resolved result
                  /\ (redirect result = Some s
                      \/ exists issued,
                           tokens result = TokensPair issued /\ token issued = s))
  /\ (forall other otherCookies,
        (cookieRefreshToken otherCookies = None <-> cookieRefreshToken cookies = None) ->
        let otherRun := runProxy other isCorsRequest request options otherCookies in
        (forall call otherCall,
            In call (callsOf run) -> In otherCall (callsOf otherRun) ->
            sameUpToRefreshToken (fetchAction call) (other otherCall)) ->
        match fst run, fst otherRun with
        | Ok mine, Ok theirs => body mine = body theirs
        | Threw _, Threw _ => True
        | _, _ => False
        end).
Proof.
  intros run.
  assert (Hanswer :
            forall action call,
              (action = "auth:signIn" \/ action = "auth:signOut") ->
              callsOf run = [call] ->
              callAction call = action ->
              fst run = match fetchAction call with
                        | Resolved result => Ok (proxyRespond action result)
                        | Rejected => Threw "fetchAction failed"
                        end ->
              (forall result issued,
                  callAction call = "auth:signIn" ->
                  fetchAction call = Resolved result ->
                  discriminated result = true ->
                  tokens result = TokensPair issued ->
                  exists response,
                    fst run = Ok response
                    /\ body response =
                         BodyJson (VObj [("tokens",
                                          VObj [("token", VStr (token issued));
                                                ("refreshToken", VStr "dummy")])]))
              /\ ((forall result,
                      callAction call = "auth:signIn" ->
                      fetchAction call = Resolved result ->
                      discriminated result = true) ->
                  forall response,
                    fst run = Ok response ->
                    bodyHidesRefreshToken (body response) = true
                    /\ forall s,
                         In s (bodyStrings (body response)) ->
                         s = "dummy"
                         \/ exists result,
                              fetchAction call = Resolved result
                              /\ (redirect result = Some s
                                  \/ exists issued,
                                       tokens result = TokensPair issued
                                       /\ token issued = s))).
  { intros action call Haction Hcalls Hcall Hfst. split.
    - intros result issued Hin Hres Hshape Htokens.
      rewrite Hfst, Hres. eexists. split; [reflexivity|].
      rewrite <- Hcall, Hin, (proxyRespond_discriminated result Hshape), Htokens.
      destruct (redirect result) as [target|] eqn:Hredirect; [|reflexivity].
      unfold discriminated in Hshape. rewrite Hredirect, Htokens in Hshape.
      destruct (verifier result); discriminate.
    - intros Hcontract response Hok. rewrite Hfst in Hok.
      destruct (fetchAction call) as [result|] eqn:Hres; [|discriminate].
      injection Hok as <-.
      destruct Haction as [-> | ->].
      + specialize (Hcontract result Hcall eq_refl).
        rewrite (proxyRespond_discriminated result Hcontract).
        destruct (redirect result) as [target|] eqn:Hredirect.
        * split; [reflexivity|]. intros s [<-|[]].
          right. exists result. split; [reflexivity|]. left. exact Hredirect.
        * destruct (tokens result) as [| |issued] eqn:Htokens.
          -- split; [reflexivity|]. intros s [].
          -- split; [reflexivity|]. intros s [].
          -- split; [reflexivity|]. intros s [<-|[<-|[]]].
             ++ right. exists result. split; [reflexivity|]. right.
                exists issued. split; [exact Htokens | reflexivity].
             ++ left. reflexivity.
      + split; [reflexivity|]. intros s []. }
  destruct (runProxy_shape isCorsRequest request options)
    as [(completion & Hrun & Htext)
       | [(args & Hrun) | (action & args & Haction & Hrun)]].
  - assert (Hmine : run = (completion, initialWorld cookies)) by apply Hrun.
    split; [|split].
    + intros call result issued Hcalls. rewrite Hmine in Hcalls. discriminate.
    + intros _ response Hok. rewrite Hmine in Hok.
      destruct (Htext response Hok) as (text & code & ->).
      split; [reflexivity|]. intros s [].
    + intros other otherCookies _ otherRun _. subst otherRun.
      rewrite Hmine, (Hrun other otherCookies). cbn [fst].
      destruct completion; [reflexivity | exact I].
  - pose proof (Hrun fetchAction cookies) as Hmine. cbv zeta in Hmine. fold run in Hmine.
    split; [|split].
    + intros call result issued Hcalls Hin Hres Hshape Htokens.
      destruct (cookieRefreshToken cookies) as [stored|].
      * destruct Hmine as (Hcalls' & Hfst).
        rewrite Hcalls' in Hcalls. injection Hcalls as <-.
        exact (proj1 (Hanswer "auth:signIn" _ (or_introl eq_refl) Hcalls' eq_refl Hfst)
                 result issued Hin Hres Hshape Htokens).
      * destruct Hmine as (_ & Hnone). rewrite Hnone in Hcalls. discriminate.
    + intros Hcontract response Hok.
      destruct (cookieRefreshToken cookies) as [stored|].
      * destruct Hmine as (Hcalls' & Hfst).
        destruct (proj2 (Hanswer "auth:signIn" _ (or_introl eq_refl) Hcalls' eq_refl Hfst)
                    (fun result => Hcontract _ result
                                     ltac:(rewrite Hcalls'; left; reflexivity))
                    response Hok) as (Hhide & Hstrings).
        split; [exact Hhide|]. intros s Hs.
        destruct (Hstrings s Hs) as [Hdummy | (result & Hres & Hpublic)];
          [left; exact Hdummy | right; eauto].
      * destruct Hmine as (Hfst & _). rewrite Hfst in Hok. injection Hok as <-.
        split; [reflexivity|]. intros s [].
    + intros other otherCookies Hpresence otherRun Hsame.
      pose proof (Hrun other otherCookies) as Htheirs. cbv zeta in Htheirs.
      fold otherRun in Htheirs.
      destruct (cookieRefreshToken cookies) as [stored|],
               (cookieRefreshToken otherCookies) as [otherStored|].
      * destruct Hmine as (Hc1 & ->), Htheirs as (Hc2 & ->).
        specialize (Hsame _ _ ltac:(rewrite Hc1; left; reflexivity)
                      ltac:(rewrite Hc2; left; reflexivity)).
        destruct (fetchAction _) as [x|], (other _) as [y|]; try contradiction.
        -- apply proxyRespond_same_body. exact Hsame.
        -- exact I.
      * exfalso. destruct Hpresence as [Hp _]. specialize (Hp eq_refl). discriminate.
      * exfalso. destruct Hpresence as [_ Hp]. specialize (Hp eq_refl). discriminate.
      * destruct Hmine as (-> & _), Htheirs as (-> & _). reflexivity.
  - pose proof (Hrun fetchAction cookies) as (Hcalls' & Hfst).
    fold run in Hcalls', Hfst.
    split; [|split].
    + intros call result issued Hcalls Hin Hres Hshape Htokens.
      rewrite Hcalls' in Hcalls. injection Hcalls as <-.
      exact (proj1 (Hanswer action _ Haction Hcalls' eq_refl Hfst)
               result issued Hin Hres Hshape Htokens).
    + intros Hcontract response Hok.
      destruct (proj2 (Hanswer action _ Haction Hcalls' eq_refl Hfst)
                  (fun result => Hcontract _ result
                                   ltac:(rewrite Hcalls'; left; reflexivity))
                  response Hok) as (Hhide & Hstrings).
      split; [exact Hhide|]. intros s Hs.
      destruct (Hstrings s Hs) as [Hdummy | (result & Hres & Hpublic)];
        [left; exact Hdummy | right; eauto].
    + intros other otherCookies _ otherRun Hsame.
      pose proof (Hrun other otherCookies) as (Hc2 & Hf2). fold otherRun in Hc2, Hf2.
      rewrite Hfst, Hf2.
      specialize (Hsame _ _ ltac:(rewrite Hcalls'; left; reflexivity)
                    ltac:(rewrite Hc2; left; reflexivity)).
      destruct (fetchAction _) as [x|], (other _) as [y|]; try contradiction.
      * apply proxyRespond_same_body. exact Hsame.
      * exact I.
Qed.

(** C4 (amended).  The proxy calls the backend at most once per request.  The
    authenticator calls it at most twice: the scheduler's refresh call, if
    any, and then, on a request that qualifies for the code exchange, the
    exchange call; on any other request at most once. *)
Theorem backend_calls_bound
    (fetchAction : FetchCall -> FetchOutcome) (jwtDecode : string -> option JwtPayload)
    (now : Z) (isCorsRequest : NextRequest -> bool) :
  (forall request options cookies,
     (List.length (callsOf (runProxy fetchAction isCorsRequest request options cookies))
      <= 1)%nat)
  /\ (forall request cookies,
        let run := runAuthenticator fetchAction jwtDecode now isCorsRequest
                     request cookies in
        let view := if isCorsRequest request then noCookies else cookies in
        let refresh := callsOf (runScheduler fetchAction jwtDecode now view) in
        (List.length refresh <= 1)%nat
        /\ (List.length (callsOf run) <= 2)%nat
        /\ (isCodeExchange request = false -> callsOf run = refresh)
        /\ (isCodeExchange request = true ->
            exists code,
              searchParamsGet (searchParams (url request)) "code" = Some code
              /\ callsOf run =
                   refresh ++ [codeExchangeCall code (orUndefined (cookieVerifier view))])).
Proof.
  split.
  - intros request options cookies.
    destruct (runProxy_summary isCorsRequest request options cookies)
      as [(outcome & Hrun & Hnone & _)
         | (parsed & action & args & bearer & _ & _ & _ & _ & _ & Hrun)].
    + rewrite Hrun, Hnone. simpl. lia.
    + rewrite (proj1 (Hrun fetchAction)). simpl. lia.
  - intros request cookies run view refresh.
    destruct (handleAuthenticationInRequest_run fetchAction jwtDecode now
                isCorsRequest request cookies)
      as (out & calls & Hsched & _ & Hlen & Hrun).
    fold view in Hsched, Hrun. fold run in Hrun.
    assert (Hrefresh : refresh = fetches calls).
    { unfold refresh, callsOf, runScheduler, initialWorld. rewrite Hsched. reflexivity. }
    assert (Hexchange : isCodeExchange request = true ->
              exists code, searchParamsGet (searchParams (url request)) "code" = Some code).
    { unfold isCodeExchange.
      destruct (searchParamsGet (searchParams (url request)) "code"); [eauto|].
      discriminate. }
    rewrite Hrefresh. unfold callsOf. rewrite Hrun.
    destruct (isCodeExchange request) eqn:Hex.
    + destruct (Hexchange eq_refl) as (code & Hcode). rewrite Hcode. simpl.
      rewrite !fetches_app. simpl. rewrite length_app. simpl.
      repeat split; try lia; try discriminate.
      intros _. exists code. split; reflexivity.
    + destruct (searchParamsGet (searchParams (url request)) "code"); simpl;
        repeat split; try lia; try discriminate.
Qed.

(* ------------------------------------------------------------------ *)
(** ** Routing *)

(** C10.  [shouldProxyAuthAction] holds exactly when the pathname of the
    request is the route with or without a single trailing slash: the
    pathname is the route itself, or the route with its trailing slash taken
    off (a route that ends in one), or the route with a slash put on (a route
    that does not).  Hence a route that does not end in a slash and the same
    route with a slash appended select the same requests. *)
Theorem shouldProxyAuthAction_trailing_slash (request : NextRequest) (apiRoute : string) :
  (shouldProxyAuthAction request apiRoute = true
   <-> pathname (url request) = withoutTrailingSlash apiRoute
       \/ pathname (url request) = (withoutTrailingSlash apiRoute ++ "/")%string)
  /\ (shouldProxyAuthAction request apiRoute = true
      <-> pathname (url request) = apiRoute
          \/ if endsWithSlash apiRoute
             then (pathname (url request) ++ "/")%string = apiRoute
             else pathname (url request) = (apiRoute ++ "/")%string)
  /\ (endsWithSlash apiRoute = false ->
      shouldProxyAuthAction request apiRoute
      = shouldProxyAuthAction request (apiRoute ++ "/")%string).
Proof.
  split; [|split].
  - unfold shouldProxyAuthAction, withoutTrailingSlash.
    destruct (endsWithSlash apiRoute) eqn:Hends.
    + rewrite (sliceDropLast_restore apiRoute Hends).
      rewrite Bool.orb_true_iff, !String.eqb_eq. tauto.
    + rewrite Bool.orb_true_iff, !String.eqb_eq. tauto.
  - unfold shouldProxyAuthAction.
    destruct (endsWithSlash apiRoute) eqn:Hends;
      rewrite Bool.orb_true_iff, !String.eqb_eq; [|tauto].
    split; (intros [H|H]; [left; exact H | right]).
    + rewrite H. apply sliceDropLast_restore. exact Hends.
    + rewrite <- H. symmetry. apply sliceDropLast_append.
  - intros Hends. unfold shouldProxyAuthAction.
    rewrite Hends, endsWithSlash_append, sliceDropLast_append.
    apply Bool.orb_comm.
Qed.

Lemma shouldProxyAuthAction_trailing_slash_witness :
  shouldProxyAuthAction (proxyPost VNull) "/api/auth"
  = shouldProxyAuthAction (proxyPost VNull) "/api/auth/"
  /\ shouldProxyAuthAction (proxyPost VNull) "/api/auth" = true.
Proof.
  split; [|reflexivity].
  exact (proj2 (proj2 (shouldProxyAuthAction_trailing_slash (proxyPost VNull)
                         "/api/auth")) eq_refl).
Defined.

(* ------------------------------------------------------------------ *)
(** ** Concrete runs *)

(** Outside the contract of the backend: a [signIn] result that carries a
    token pair and a [redirect] is answered with [{ redirect }] alone, since
    the proxy looks at [redirect] first; a result with neither field is
    forwarded as it came. *)
Lemma results_outside_the_contract :
  let request := proxyPost (signInBody (VObj [("provider", VStr "github")])) in
  let both := mkResult (Some "https://idp.example/authorize") (Some "v9")
                (TokensPair (mkTokens "t2" "r2")) in
  let neither := mkSignInResult None None TokensUndefined [("started", VBool true)] in
  discriminated both = false
  /\ discriminated neither = false
  /\ fst (runProxy (backendReturns both) originMismatch request defaultOptions noCookies)
     = Ok (mkResponse 200
             (BodyJson (VObj [("redirect", VStr "https://idp.example/authorize")]))
             None [(CVerifier, VStr "v9")])
  /\ fst (runProxy (backendReturns neither) originMismatch request defaultOptions
            noCookies)
     = Ok (mkResponse 200 (BodyJson (VObj [("started", VBool true)])) None []).
Proof. repeat split; reflexivity. Qed.

Lemma proxy_body_hides_refresh_token_witness :
  exists response,
    fst (runProxy (backendReturns (mkResult None None (TokensPair (mkTokens "t2" "r2"))))
           originMismatch
           (proxyPost (signInBody (VObj [("refreshToken", VStr "dummy")])))
           defaultOptions sessionCookies)
      = Ok response
    /\ body response =
         BodyJson (VObj [("tokens",
                          VObj [("token", VStr "t2"); ("refreshToken", VStr "dummy")])])
    /\ bodyHidesRefreshToken (body response) = true
    /\ match fst (runProxy
                    (backendReturns (mkResult None None (TokensPair (mkTokens "t2" "r3"))))
                    originMismatch
                    (proxyPost (signInBody (VObj [("refreshToken", VStr "dummy")])))
                    defaultOptions (mkCookies None (Some "r9") None))
       with
       | Ok theirs => body response = body theirs
       | Threw _ => False
       end.
Proof.
  destruct (proxy_body_hides_refresh_token
              (backendReturns (mkResult None None (TokensPair (mkTokens "t2" "r2"))))
              originMismatch
              (proxyPost (signInBody (VObj [("refreshToken", VStr "dummy")])))
              defaultOptions sessionCookies) as (Hpair & Hsecret & Hsame).
  destruct (Hpair (mkCall "auth:signIn" (VObj [("refreshToken", VStr "r1")]) None None)
              (mkResult None None (TokensPair (mkTokens "t2" "r2")))
              (mkTokens "t2" "r2") eq_refl eq_refl eq_refl eq_refl eq_refl)
    as (response & Hok & Hbody).
  exists response. split; [exact Hok|]. split; [exact Hbody|]. split.
  - apply Hsecret; [|exact Hok].
    intros call result _ _ Hres. injection Hres as <-. reflexivity.
  - assert (Hpresence : cookieRefreshToken (mkCookies None (Some "r9") None) = None
                        <-> cookieRefreshToken sessionCookies = None)
      by (split; discriminate).
    specialize (Hsame (backendReturns (mkResult None None (TokensPair (mkTokens "t2" "r3"))))
                  (mkCookies None (Some "r9") None) Hpresence).
    cbv zeta in Hsame. rewrite Hok in Hsame. apply Hsame.
    intros call otherCall _ _. repeat split.
Defined.

(** C4, as stated, fails: a qualifying GET navigation with a [code]
    parameter, arriving with a token that is due for refresh, makes the
    refresh call and then the code-exchange call. *)
Lemma navigation_makes_two_calls :
  isCodeExchange callbackRequest = true
  /\ callsOf (runAuthenticator
               (backendReturns (mkResult None None (TokensPair (mkTokens "t2" "r2"))))
               (decodeAs (mkPayload 1000 0)) 990000 originMismatch
               callbackRequest sessionCookies)
     = [refreshCall "r1"; codeExchangeCall "abc123" (VStr "v1")].
Proof. split; reflexivity. Qed.

Lemma backend_calls_bound_witness :
  callsOf (runAuthenticator backendRejects (decodeAs (mkPayload 1000 0)) 990000
             originMismatch callbackRequest sessionCookies)
  = callsOf (runScheduler backendRejects (decodeAs (mkPayload 1000 0)) 990000
               sessionCookies)
    ++ [codeExchangeCall "abc123" (VStr "v1")].
Proof.
  destruct (proj2 (proj2 (proj2
              (proj2 (backend_calls_bound backendRejects (decodeAs (mkPayload 1000 0))
                        990000 originMismatch)
                 callbackRequest sessionCookies))) eq_refl)
    as (code & Hcode & Hcalls).
  injection Hcode as <-. exact Hcalls.
Defined.

Lemma proxy_guards_witness :
  statusOf (runProxy backendRejects originMismatch
              (proxyPost (VObj [("action", VStr "bogus")])) defaultOptions sessionCookies)
  = Some 400.
Proof.
  apply (proj1 (proj2 (proj2
           (proxy_guards originMismatch backendRejects
              (proxyPost (VObj [("action", VStr "bogus")])) defaultOptions
              sessionCookies)))
         (VObj [("action", VStr "bogus")]) (VStr "bogus"));
    try reflexivity; discriminate.
Defined.

Lemma signIn_without_refresh_cookie_witness :
  fst (runProxy backendRejects originMismatch
         (proxyPost (signInBody (VObj [("refreshToken", VStr "dummy")])))
         defaultOptions noCookies)
  = Ok (mkResponse 200 (BodyJson (VObj [("tokens", VNull)])) None []).
Proof.
  apply (@signIn_without_refresh_cookie originMismatch backendRejects
           (proxyPost (signInBody (VObj [("refreshToken", VStr "dummy")])))
           defaultOptions noCookies
           (signInBody (VObj [("refreshToken", VStr "dummy")]))
           (VObj [("refreshToken", VStr "dummy")]) (VStr "dummy"));
    try reflexivity; discriminate.
Defined.

Lemma client_refresh_token_not_forwarded_witness :
  callsOf (runProxy backendRejects originMismatch
             (proxyPost (signInBody (VObj [("refreshToken", VStr "guess")])))
             defaultOptions sessionCookies)
  = [mkCall "auth:signIn" (VObj [("refreshToken", VStr "r1")]) None None].
Proof.
  apply (@client_refresh_token_not_forwarded originMismatch backendRejects
           (proxyPost (signInBody (VObj [("refreshToken", VStr "guess")])))
           (proxyPost (signInBody (VObj [("refreshToken", VNum 7)])))
           defaultOptions sessionCookies
           (signInBody (VObj [("refreshToken", VStr "guess")]))
           (signInBody (VObj [("refreshToken", VNum 7)]))
           [] (VStr "guess") (VNum 7));
    try reflexivity; discriminate.
Defined.

(* ------------------------------------------------------------------ *)
(** ** Further properties of the refresh scheduler *)

Section SchedulerEdges.

Variable fetchAction : FetchCall -> FetchOutcome.
Variable jwtDecode : string -> option JwtPayload.

(** X1.  A session with a cookie missing is never refreshed: when the
    [token] cookie or the [refreshToken] cookie is [null] the scheduler makes
    no backend call and leaves the cookie view as it is; it answers
    [undefined] when both are missing and [null] when exactly one is. *)
Theorem scheduler_incomplete_session (now : Z) (cookies : Cookies) :
  cookieToken cookies = None \/ cookieRefreshToken cookies = None ->
  let run := runScheduler fetchAction jwtDecode now cookies in
  callsOf run = []
  /\ store (snd run) = cookies
  /\ fst run =
       Ok match cookieToken cookies, cookieRefreshToken cookies with
          | None, None => TokensUndefined
          | _, _ => TokensNull
          end.
Proof.
  destruct cookies as [[t|] [r|] v]; simpl; intros [H|H]; try discriminate;
    repeat split; reflexivity.
Qed.

(** X2.  An access token that [jwtDecode] cannot decode makes the session
    invalid without a backend call: with both cookies present the scheduler
    answers [null] after reading the two cookies, and calls nothing. *)
Theorem scheduler_undecodable_token (now : Z) (t r : string) (v : option string) :
  jwtDecode t = None ->
  runScheduler fetchAction jwtDecode now (mkCookies (Some t) (Some r) v)
  = (Ok TokensNull,
     mkWorld (mkCookies (Some t) (Some r) v)
       [EvRead CToken (Some t); EvRead CRefreshToken (Some r)]).
Proof.
  intros Hdec. unfold runScheduler, getRefreshedTokens, bind, readCookie, decodeToken.
  simpl. rewrite Hdec. reflexivity.
Qed.

(** X3.  For a decodable token whose claims are whole seconds within
    range, the refresh window is between ten seconds and one minute: with
    more than 60 seconds left the token is never refreshed, with 10 seconds
    or less left (an expired one too) it always is, whatever its total
    lifetime; and a token that is refreshed at some time is refreshed at
    every later time.  A token whose [exp] or [iat] is not a number has no
    window: it is refreshed at every time. *)
Theorem refresh_window_bounds (now : Z) (t r : string) (v : option string)
    (decoded : JwtPayload) :
  jwtDecode t = Some decoded ->
  let calls at_time :=
    callsOf (runScheduler fetchAction jwtDecode at_time (mkCookies (Some t) (Some r) v)) in
  (forall expSeconds iatSeconds,
     decoded = mkPayload expSeconds iatSeconds ->
     wholeSeconds expSeconds -> wholeSeconds iatSeconds -> timeValue now ->
     (expSeconds * 1000 - now > 60000 -> calls now = [])
     /\ (expSeconds * 1000 - now <= 10000 -> calls now = [refreshCall r])
     /\ (forall later, timeValue later -> now <= later ->
           calls now = [refreshCall r] -> calls later = [refreshCall r]))
  /\ (exp decoded = Number.NaN \/ iat decoded = Number.NaN ->
      forall at_time, calls at_time = [refreshCall r]).
Proof.
  intros Hdec calls. subst calls. cbv beta.
  assert (Hrun : forall at_time,
    callsOf (runScheduler fetchAction jwtDecode at_time (mkCookies (Some t) (Some r) v))
    = if Number.gt (Number.mul (exp decoded) (Number.ofZ 1000))
                   (minimumExpiration at_time decoded)
      then [] else [refreshCall r]).
  { intros at_time.
    exact (@scheduler_calls fetchAction jwtDecode at_time t r v decoded Hdec). }
  split.
  - intros expSeconds iatSeconds -> He Hi Hnow.
    assert (Hdue : forall at_time, timeValue at_time ->
              (callsOf (runScheduler fetchAction jwtDecode at_time
                          (mkCookies (Some t) (Some r) v)) = [refreshCall r]
               <-> refreshDueAt at_time expSeconds iatSeconds)
              /\ (callsOf (runScheduler fetchAction jwtDecode at_time
                             (mkCookies (Some t) (Some r) v)) = []
                  <-> ~ refreshDueAt at_time expSeconds iatSeconds)).
    { intros at_time Hat. rewrite Hrun.
      pose proof (scheduler_decision_ofZ He Hi Hat) as Hdecision.
      destruct (Number.gt _ _).
      - assert (~ refreshDueAt at_time expSeconds iatSeconds)
          by (rewrite <- Hdecision; discriminate).
        split; split; try discriminate; tauto.
      - assert (refreshDueAt at_time expSeconds iatSeconds)
          by (apply Hdecision; reflexivity).
        split; split; try discriminate; tauto. }
    split; [|split].
    + intros Hfar. apply (Hdue now Hnow). unfold refreshDueAt. lia.
    + intros Hnear. apply (Hdue now Hnow). unfold refreshDueAt. lia.
    + intros later Hlater Hle Hnowdue.
      apply (Hdue later Hlater). apply (Hdue now Hnow) in Hnowdue.
      unfold refreshDueAt in *. lia.
  - intros Hnan at_time. rewrite Hrun.
    replace (Number.gt _ _) with false; [reflexivity|].
    symmetry. apply gt_false_iff. right. apply isNaN_compare.
    exact (@scheduler_decision_nan at_time decoded Hnan).
Qed.

End SchedulerEdges.

Lemma scheduler_incomplete_session_witness :
  fst (runScheduler backendRejects (decodeAs (mkPayload 1000 0)) 0
         (mkCookies (Some "jwt") None (Some "v1")))
  = Ok TokensNull.
Proof.
  exact (proj2 (proj2 (@scheduler_incomplete_session backendRejects
                         (decodeAs (mkPayload 1000 0)) 0
                         (mkCookies (Some "jwt") None (Some "v1"))
                         (or_intror eq_refl)))).
Defined.

Lemma scheduler_undecodable_token_witness :
  callsOf (runScheduler backendRejects (fun _ => None) 0 sessionCookies) = [].
Proof.
  unfold sessionCookies.
  rewrite (@scheduler_undecodable_token backendRejects (fun _ => None) 0
             "jwt" "r1" (Some "v1") eq_refl).
  reflexivity.
Defined.

Lemma refresh_window_bounds_witness :
  callsOf (runScheduler backendRejects (decodeAs (mkPayload 30 0)) 25000 sessionCookies)
  = [refreshCall "r1"].
Proof.
  assert (He : wholeSeconds 30) by (unfold wholeSeconds; lia).
  assert (Hi : wholeSeconds 0) by (unfold wholeSeconds; lia).
  assert (Hnow : timeValue 25000) by (unfold timeValue; lia).
  apply (proj1 (proj2 (proj1 (@refresh_window_bounds backendRejects
                                (decodeAs (mkPayload 30 0)) 25000 "jwt" "r1" (Some "v1")
                                (mkPayload 30 0) eq_refl)
                         30 0 eq_refl He Hi Hnow))).
  lia.
Defined.

(* ------------------------------------------------------------------ *)
(** ** Further properties of the request authenticator *)

Lemma isCodeExchange_false_intro (request : NextRequest) :
  method request <> "GET"
  \/ headersGet request "accept" = None
  \/ (exists accept, headersGet request "accept" = Some accept
                     /\ includes accept "text/html" = false)
  \/ searchParamsGet (searchParams (url request)) "code" = None
  \/ searchParamsGet (searchParams (url request)) "code" = Some "" ->
  isCodeExchange request = false.
Proof.
  unfold isCodeExchange.
  intros [Hm | [Ha | [(accept & Ha & Hi) | [Hc | Hc]]]].
  - apply String.eqb_neq in Hm. rewrite Hm, Bool.andb_false_r. reflexivity.
  - rewrite Ha. apply Bool.andb_false_r.
  - rewrite Ha, Hi. apply Bool.andb_false_r.
  - rewrite Hc. reflexivity.
  - rewrite Hc. reflexivity.
Qed.

Section AuthenticatorEdges.

Variable jwtDecode : string -> option JwtPayload.
Variable now : Z.
Variable isCorsRequest : NextRequest -> bool.

(** X4.  The authenticator never throws: whatever the request, the cookies,
    the decoder and the backend do (failed calls and malformed results
    included), it completes with a redirect or a refresh outcome; and on a
    request that is not cross-origin it leaves the request's cookie view
    untouched. *)
Theorem authenticator_always_completes (fetchAction : FetchCall -> FetchOutcome)
    (request : NextRequest) (cookies : Cookies) :
  let run := runAuthenticator fetchAction jwtDecode now isCorsRequest request cookies in
  (exists result, fst run = Ok result)
  /\ (isCorsRequest request = false -> store (snd run) = cookies).
Proof.
  intros run.
  destruct (handleAuthenticationInRequest_run fetchAction jwtDecode now
              isCorsRequest request cookies)
    as (out & calls & _ & _ & _ & Hrun).
  fold run in Hrun. rewrite Hrun.
  destruct (searchParamsGet (searchParams (url request)) "code");
    [destruct (isCodeExchange request)|];
    (split; [eexists; reflexivity | intros Hcors; rewrite Hcors; reflexivity]).
Qed.

(** X5.  On a request that qualifies for the code exchange the outcome of
    the refresh scheduler is dropped: the result depends on the backend only
    through the code-exchange call, so two backends that answer that call
    alike give the same redirect, whatever they answer to the refresh
    call. *)
Theorem code_exchange_drops_refresh (mine theirs : FetchCall -> FetchOutcome)
    (request : NextRequest) (cookies : Cookies) (code : string) :
  isCodeExchange request = true ->
  searchParamsGet (searchParams (url request)) "code" = Some code ->
  let view := if isCorsRequest request then noCookies else cookies in
  let call := codeExchangeCall code (orUndefined (cookieVerifier view)) in
  mine call = theirs call ->
  fst (runAuthenticator mine jwtDecode now isCorsRequest request cookies)
  = fst (runAuthenticator theirs jwtDecode now isCorsRequest request cookies).
Proof.
  intros Hex Hcode view call Hsame.
  destruct (handleAuthenticationInRequest_run mine jwtDecode now
              isCorsRequest request cookies)
    as (out1 & calls1 & _ & _ & _ & Hrun1).
  destruct (handleAuthenticationInRequest_run theirs jwtDecode now
              isCorsRequest request cookies)
    as (out2 & calls2 & _ & _ & _ & Hrun2).
  rewrite Hrun1, Hrun2, Hcode, Hex. simpl.
  fold view. fold call. rewrite Hsame. reflexivity.
Qed.

(** X6.  The code exchange is for html navigations only: a request that is
    not a GET, or has no [Accept] header, or whose [Accept] header does not
    include [text/html], or that has no [code] parameter or an empty one, is
    never redirected and never makes the exchange call; the authenticator
    hands back the outcome of the refresh scheduler and calls the backend
    only as the scheduler did. *)
Theorem no_exchange_outside_navigation (fetchAction : FetchCall -> FetchOutcome)
    (request : NextRequest) (cookies : Cookies) :
  method request <> "GET"
  \/ headersGet request "accept" = None
  \/ (exists accept, headersGet request "accept" = Some accept
                     /\ includes accept "text/html" = false)
  \/ searchParamsGet (searchParams (url request)) "code" = None
  \/ searchParamsGet (searchParams (url request)) "code" = Some "" ->
  let run := runAuthenticator fetchAction jwtDecode now isCorsRequest request cookies in
  let view := if isCorsRequest request then noCookies else cookies in
  let scheduled := runScheduler fetchAction jwtDecode now view in
  callsOf run = callsOf scheduled
  /\ exists outcome,
       fst scheduled = Ok outcome /\ fst run = Ok (KindRefreshTokens outcome).
Proof.
  intros Hnot run view scheduled.
  pose proof (isCodeExchange_false_intro request Hnot) as Hex.
  destruct (handleAuthenticationInRequest_run fetchAction jwtDecode now
              isCorsRequest request cookies)
    as (out & calls & Hsched & _ & _ & Hrun).
  fold view in Hsched, Hrun. fold run in Hrun.
  assert (Hs : scheduled = (Ok out, mkWorld view
                 ([EvRead CToken (cookieToken view);
                   EvRead CRefreshToken (cookieRefreshToken view)] ++ calls))).
  { unfold scheduled, runScheduler, initialWorld. exact Hsched. }
  rewrite Hs, Hrun, Hex.
  destruct (searchParamsGet (searchParams (url request)) "code");
    (split; [reflexivity | exists out; split; reflexivity]).
Qed.

End AuthenticatorEdges.

Lemma authenticator_always_completes_witness :
  store (snd (runAuthenticator backendRejects (fun _ => None) 0 originMismatch
                callbackRequest sessionCookies))
  = sessionCookies.
Proof.
  exact (proj2 (authenticator_always_completes (fun _ => None) 0 originMismatch
                  backendRejects callbackRequest sessionCookies) eq_refl).
Defined.

Lemma code_exchange_drops_refresh_witness :
  fst (runAuthenticator
         (fun call =>
            match getProp (callArgs call) "refreshToken" with
            | Some (VStr _) =>
                Resolved (mkResult None None (TokensPair (mkTokens "t2" "r2")))
            | _ => Rejected
            end)
         (decodeAs (mkPayload 1000 0)) 990000 originMismatch callbackRequest
         sessionCookies)
  = fst (runAuthenticator backendRejects (decodeAs (mkPayload 1000 0)) 990000
           originMismatch callbackRequest sessionCookies).
Proof.
  apply (@code_exchange_drops_refresh (decodeAs (mkPayload 1000 0)) 990000
           originMismatch _ backendRejects callbackRequest sessionCookies "abc123");
    reflexivity.
Defined.

Lemma no_exchange_outside_navigation_witness :
  fst (runAuthenticator backendRejects (decodeAs (mkPayload 1000 0)) 0 originMismatch
         (mkRequest "POST" (mkURL "https://app.example" "/cb" [("code", "abc123")])
            [("accept", "text/html")] None)
         sessionCookies)
  = Ok (KindRefreshTokens TokensUndefined).
Proof.
  assert (Hm : method (mkRequest "POST"
                         (mkURL "https://app.example" "/cb" [("code", "abc123")])
                         [("accept", "text/html")] None) <> "GET") by discriminate.
  pose proof (@no_exchange_outside_navigation (decodeAs (mkPayload 1000 0)) 0
                originMismatch backendRejects _ sessionCookies (or_introl Hm)) as H.
  cbv zeta in H. destruct H as (_ & outcome & Hsched & Hrun).
  vm_compute in Hsched. injection Hsched as <-. exact Hrun.
Defined.

(* ------------------------------------------------------------------ *)
(** ** Further properties of the action proxy *)

Section ProxyEdges.

Variable isCorsRequest : NextRequest -> bool.

Implicit Types (fetchAction : FetchCall -> FetchOutcome) (request : NextRequest)
  (options : ProxyOptions) (cookies : Cookies).

(** X7.  Sign-out through the proxy: a same-origin POST with action
    ["auth:signOut"] calls the backend once, with the arguments as sent
    (none is fine) and the [token] cookie as bearer token; when the call
    returns, whatever it returns, the answer is 200 with the JSON body
    [null] and the three auth cookies are cleared; when the call fails the
    proxy throws and no response (hence no cookie change) is produced. *)
Theorem signOut_clears_cookies fetchAction request options cookies
    (parsed args : value) :
  method request = "POST" ->
  isCorsRequest request = false ->
  json request = Some parsed ->
  getProp parsed "action" = Some (VStr "auth:signOut") ->
  getProp parsed "args" = Some args ->
  let run := runProxy fetchAction isCorsRequest request options cookies in
  let call := mkCall "auth:signOut" args (convexUrl options) (cookieToken cookies) in
  callsOf run = [call]
  /\ (forall result, fetchAction call = Resolved result ->
        fst run = Ok (mkResponse 200 (BodyJson VNull) None
                        [(CToken, VNull); (CRefreshToken, VNull); (CVerifier, VNull)]))
  /\ (fetchAction call = Rejected -> exists message, fst run = Threw message).
Proof.
  intros Hm Hcors Hjson Haction Hargs run call. subst run.
  rewrite (@runProxy_dispatch isCorsRequest fetchAction request options cookies
             parsed _ args Hm Hcors Hjson Haction Hargs).
  simpl. unfold bind, readCookie. simpl. rewrite proxyFetchAndRespond_run.
  simpl. fold call.
  split; [reflexivity|]. split.
  - intros result ->. reflexivity.
  - intros ->. eexists. reflexivity.
Qed.

(** X8.  A sign-in whose [args] have no [refreshToken] is forwarded as it
    is: the backend is called once with the arguments unchanged and the
    [token] cookie as bearer token (none when the cookie is [null]), and the
    only cookie the proxy reads is [token]; the [refreshToken] cookie is not
    looked at. *)
Theorem signIn_forwards_plain_args fetchAction request options cookies
    (parsed args : value) :
  method request = "POST" ->
  isCorsRequest request = false ->
  json request = Some parsed ->
  getProp parsed "action" = Some (VStr "auth:signIn") ->
  getProp parsed "args" = Some args ->
  getProp args "refreshToken" = Some VUndefined ->
  let run := runProxy fetchAction isCorsRequest request options cookies in
  callsOf run
    = [mkCall "auth:signIn" args (convexUrl options) (cookieToken cookies)]
  /\ readsOf run = [(CToken, cookieToken cookies)].
Proof.
  intros Hm Hcors Hjson Haction Hargs Hrt run. subst run.
  rewrite (@runProxy_dispatch isCorsRequest fetchAction request options cookies
             parsed _ args Hm Hcors Hjson Haction Hargs).
  simpl. unfold bind, prop, readCookie. rewrite Hrt. simpl.
  rewrite proxyFetchAndRespond_run. split; reflexivity.
Qed.

(** X9.  What a sign-in writes to the cookies, by the shape of the backend
    result: with a [redirect] the body is [{ redirect }] and only the
    [verifier] cookie is written (the token cookies are left alone); with a
    token pair the cookies receive the access token and the real refresh
    token; with [tokens: null] the three auth cookies are cleared; with
    neither field no cookie is written.  The status is 200 in all four. *)
Theorem signIn_cookie_effects fetchAction request options cookies
    (call : FetchCall) (result : SignInResult) :
  let run := runProxy fetchAction isCorsRequest request options cookies in
  callsOf run = [call] ->
  callAction call = "auth:signIn" ->
  fetchAction call = Resolved result ->
  exists response,
    fst run = Ok response
    /\ status response = 200
    /\ match redirect result, tokens result with
       | Some target, _ =>
           body response = BodyJson (VObj [("redirect", VStr target)])
           /\ cookieWrites response = [(CVerifier, orUndefined (verifier result))]
       | None, TokensPair issued =>
           cookieWrites response
           = [(CToken, VStr (token issued));
              (CRefreshToken, VStr (refreshToken issued))]
       | None, TokensNull =>
           body response = BodyJson (VObj [("tokens", VNull)])
           /\ cookieWrites response
              = [(CToken, VNull); (CRefreshToken, VNull); (CVerifier, VNull)]
       | None, TokensUndefined => cookieWrites response = []
       end.
Proof.
  intros run Hcalls Haction Hres. subst run.
  destruct (runProxy_summary isCorsRequest request options cookies)
    as [(outcome & Hrun & Hnone & _)
       | (parsed & action & args & bearer & _ & _ & _ & _ & _ & Hrun)].
  - rewrite Hrun, Hnone in Hcalls. discriminate.
  - rewrite (proj1 (Hrun fetchAction)) in Hcalls. injection Hcalls as <-.
    simpl in Haction. subst action.
    rewrite (proj2 (Hrun fetchAction)), Hres.
    eexists. split; [reflexivity|].
    unfold proxyRespond. simpl.
    destruct (redirect result); [repeat split|].
    destruct (tokens result); [destruct (verifier result)| |]; repeat split.
Qed.

(** X10.  A body the proxy cannot read stops it before anything else
    happens: when the body of a same-origin POST is not JSON or is [null],
    and when a sign-in comes without [args] ([undefined] or [null]), the
    proxy throws; no cookie is read and the backend is not called. *)
Theorem proxy_unreadable_body_throws fetchAction request options cookies :
  method request = "POST" ->
  isCorsRequest request = false ->
  json request = None
  \/ json request = Some VNull
  \/ (exists parsed args,
        json request = Some parsed
        /\ getProp parsed "action" = Some (VStr "auth:signIn")
        /\ getProp parsed "args" = Some args
        /\ (args = VUndefined \/ args = VNull)) ->
  exists message,
    runProxy fetchAction isCorsRequest request options cookies
    = (Threw message, initialWorld cookies).
Proof.
  intros Hm Hcors [Hjson | [Hjson | (parsed & args & Hjson & Haction & Hargs & Hbad)]].
  - destruct (@runProxy_unreadable_body isCorsRequest request options cookies Hm Hcors)
      as (m & Hrun); [left; exact Hjson|].
    exists m. apply Hrun.
  - destruct (@runProxy_unreadable_body isCorsRequest request options cookies Hm Hcors)
      as (m & Hrun); [right; exists VNull; split; [exact Hjson | reflexivity]|].
    exists m. apply Hrun.
  - rewrite (@runProxy_dispatch isCorsRequest fetchAction request options cookies
               parsed _ args Hm Hcors Hjson Haction Hargs).
    simpl. unfold bind, prop.
    destruct Hbad as [-> | ->]; simpl; eexists; reflexivity.
Qed.

(** X11.  The proxy answers with one of four statuses, 200, 400, 403 or 405,
    and with 200 only to a same-origin POST; a failed backend call is not
    turned into a response at all: the proxy throws. *)
Theorem proxy_status_codes fetchAction request options cookies :
  let run := runProxy fetchAction isCorsRequest request options cookies in
  (forall response, fst run = Ok response ->
     (status response = 200 /\ method request = "POST"
      /\ isCorsRequest request = false)
     \/ status response = 400 \/ status response = 403 \/ status response = 405)
  /\ (forall call, callsOf run = [call] -> fetchAction call = Rejected ->
        exists message, fst run = Threw message).
Proof.
  intros run. subst run. split.
  - intros response.
    destruct (String.eqb_spec (method request) "POST") as [Hm|Hm].
    2:{ rewrite (@runProxy_wrong_method isCorsRequest fetchAction request options
                   cookies Hm).
        intros [= <-]. auto. }
    destruct (isCorsRequest request) eqn:Hcors.
    { rewrite (@runProxy_cross_origin isCorsRequest fetchAction request options
                 cookies Hm Hcors).
      intros [= <-]. auto. }
    destruct (json request) as [parsed|] eqn:Hjson.
    2:{ destruct (@runProxy_unreadable_body isCorsRequest request options cookies
                    Hm Hcors) as (m & ->); [left; exact Hjson | discriminate]. }
    destruct (getProp parsed "action") as [action|] eqn:Haction.
    2:{ destruct (@runProxy_unreadable_body isCorsRequest request options cookies
                    Hm Hcors) as (m & ->); [right; eauto | discriminate]. }
    destruct (@getProp_other_key parsed "action" "args" action Haction) as (args & Hargs).
    rewrite (@runProxy_dispatch isCorsRequest fetchAction request options cookies
               parsed action args Hm Hcors Hjson Haction Hargs).
    destruct (strictEqStr action "auth:signIn") eqn:Hin;
      [|destruct (strictEqStr action "auth:signOut") eqn:Hout]; simpl.
    + unfold bind, prop.
      destruct (getProp args "refreshToken") as [client|]; simpl; [|discriminate].
      destruct (isDefined client); unfold readCookie; simpl.
      * destruct (cookieRefreshToken cookies); simpl.
        -- rewrite proxyFetchAndRespond_run. simpl.
           destruct (fetchAction _) as [result|]; [|discriminate].
           intros [= <-]. left. repeat split; auto.
           unfold proxyRespond. simpl.
           destruct (redirect result); [reflexivity|].
           destruct (tokens result); reflexivity.
        -- intros [= <-]. left. auto.
      * rewrite proxyFetchAndRespond_run. simpl.
        destruct (fetchAction _) as [result|]; [|discriminate].
        intros [= <-]. left. repeat split; auto.
        unfold proxyRespond. simpl.
        destruct (redirect result); [reflexivity|].
        destruct (tokens result); reflexivity.
    + unfold bind, readCookie. simpl. rewrite proxyFetchAndRespond_run. simpl.
      destruct (fetchAction _) as [result|]; [|discriminate].
      intros [= <-]. left. auto.
    + intros [= <-]. auto.
  - intros call Hcalls Hrej.
    destruct (runProxy_summary isCorsRequest request options cookies)
      as [(outcome & Hrun & Hnone & _)
         | (parsed & action & args & bearer & _ & _ & _ & _ & _ & Hrun)].
    + rewrite Hrun, Hnone in Hcalls. discriminate.
    + rewrite (proj1 (Hrun fetchAction)) in Hcalls. injection Hcalls as <-.
      rewrite (proj2 (Hrun fetchAction)), Hrej. eexists. reflexivity.
Qed.

End ProxyEdges.

Lemma signOut_clears_cookies_witness :
  fst (runProxy (backendReturns (mkResult None None TokensUndefined)) originMismatch
         (proxyPost (VObj [("action", VStr "auth:signOut")])) defaultOptions
         sessionCookies)
  = Ok (mkResponse 200 (BodyJson VNull) None
          [(CToken, VNull); (CRefreshToken, VNull); (CVerifier, VNull)]).
Proof.
  apply (proj1 (proj2
           (@signOut_clears_cookies originMismatch
              (backendReturns (mkResult None None TokensUndefined))
              (proxyPost (VObj [("action", VStr "auth:signOut")])) defaultOptions
              sessionCookies (VObj [("action", VStr "auth:signOut")]) VUndefined
              eq_refl eq_refl eq_refl eq_refl eq_refl))
         (mkResult None None TokensUndefined)).
  reflexivity.
Defined.

Lemma signIn_forwards_plain_args_witness :
  callsOf (runProxy backendRejects originMismatch
             (proxyPost (signInBody (VObj [("provider", VStr "github")])))
             defaultOptions sessionCookies)
  = [mkCall "auth:signIn" (VObj [("provider", VStr "github")]) None (Some "jwt")].
Proof.
  exact (proj1
           (@signIn_forwards_plain_args originMismatch backendRejects
              (proxyPost (signInBody (VObj [("provider", VStr "github")])))
              defaultOptions sessionCookies
              (signInBody (VObj [("provider", VStr "github")]))
              (VObj [("provider", VStr "github")])
              eq_refl eq_refl eq_refl eq_refl eq_refl eq_refl)).
Defined.

Lemma signIn_cookie_effects_witness :
  exists response,
    fst (runProxy
           (backendReturns (mkResult None None (TokensPair (mkTokens "t2" "r2"))))
           originMismatch
           (proxyPost (signInBody (VObj [("refreshToken", VStr "dummy")])))
           defaultOptions sessionCookies)
      = Ok response
    /\ cookieWrites response = [(CToken, VStr "t2"); (CRefreshToken, VStr "r2")].
Proof.
  destruct (@signIn_cookie_effects originMismatch
              (backendReturns (mkResult None None (TokensPair (mkTokens "t2" "r2"))))
              (proxyPost (signInBody (VObj [("refreshToken", VStr "dummy")])))
              defaultOptions sessionCookies
              (mkCall "auth:signIn" (VObj [("refreshToken", VStr "r1")]) None None)
              (mkResult None None (TokensPair (mkTokens "t2" "r2")))
              eq_refl eq_refl eq_refl)
    as (response & Hrun & _ & Hwrites).
  exists response. split; assumption.
Defined.

Lemma proxy_unreadable_body_throws_witness :
  exists message,
    runProxy backendRejects originMismatch (proxyPost VNull) defaultOptions
      sessionCookies
    = (Threw message, initialWorld sessionCookies).
Proof.
  apply (@proxy_unreadable_body_throws originMismatch backendRejects (proxyPost VNull)
           defaultOptions sessionCookies eq_refl eq_refl).
  right. left. reflexivity.
Defined.

Lemma proxy_status_codes_witness :
  exists message,
    fst (runProxy backendRejects originMismatch
           (proxyPost (VObj [("action", VStr "auth:signOut")])) defaultOptions
           sessionCookies)
    = Threw message.
Proof.
  apply (proj2 (@proxy_status_codes originMismatch backendRejects
                  (proxyPost (VObj [("action", VStr "auth:signOut")])) defaultOptions
                  sessionCookies)
           (mkCall "auth:signOut" VUndefined None (Some "jwt")));
    reflexivity.
Defined.

(* ------------------------------------------------------------------ *)
(** ** Further properties of the routing test *)

Lemma string_length_append (a b : string) :
  String.length (a ++ b)%string = (String.length a + String.length b)%nat.
Proof. induction a as [|c a IH]; simpl; [reflexivity | now rewrite IH]. Qed.

Lemma sliceDropLast_length (s : string) :
  String.length (sliceDropLast s) = Nat.pred (String.length s).
Proof.
  induction s as [|c s IH]; [reflexivity|].
  simpl. destruct s as [|d s']; [reflexivity|].
  simpl in IH |- *. rewrite IH. reflexivity.
Qed.

(** X12.  The proxy route does not capture what lies below it: a request
    whose pathname is the route followed by a slash and a non-empty rest is
    not proxied, whether or not the route is configured with a trailing
    slash. *)
Theorem shouldProxyAuthAction_no_subpath (request : NextRequest)
    (apiRoute rest : string) :
  rest <> "" ->
  pathname (url request) = (apiRoute ++ "/" ++ rest)%string ->
  shouldProxyAuthAction request apiRoute = false.
Proof.
  intros Hrest Hpath.
  assert (Hlen : (String.length (pathname (url request))
                  > S (String.length apiRoute))%nat).
  { rewrite Hpath, !string_length_append. simpl.
    destruct rest; [contradiction | simpl; lia]. }
  assert (Hne : forall other, (String.length other <= S (String.length apiRoute))%nat ->
                  String.eqb (pathname (url request)) other = false).
  { intros other Hother. apply String.eqb_neq. intros Heq. rewrite Heq in Hlen. lia. }
  unfold shouldProxyAuthAction.
  destruct (endsWithSlash apiRoute); rewrite !Hne; try reflexivity; try lia.
  - rewrite sliceDropLast_length. lia.
  - rewrite string_length_append. simpl. lia.
Qed.

Lemma shouldProxyAuthAction_no_subpath_witness :
  shouldProxyAuthAction
    (mkRequest "POST" (mkURL "https://app.example" "/api/auth/session" []) [] None)
    "/api/auth"
  = false.
Proof.
  apply (@shouldProxyAuthAction_no_subpath
           (mkRequest "POST" (mkURL "https://app.example" "/api/auth/session" [])
              [] None)
           "/api/auth" "session").
  - discriminate.
  - reflexivity.
Defined.

(* ------------------------------------------------------------------ *)
(** ** The setup command: names, keys and messages *)

Section CliStrings.

Local Open Scope string_scope.

Lemma split_nonempty (sep : ascii) (s : string) : Cli.split sep s <> [].
Proof.
  induction s as [|c s IH]; simpl; [discriminate|].
  destruct (Ascii.eqb c sep); [discriminate|].
  destruct (Cli.split sep s); discriminate.
Qed.

Lemma split_free (sep : ascii) (s : string) :
  Cli.hasChar sep s = false -> Cli.split sep s = [s].
Proof.
  induction s as [|c s IH]; simpl; [reflexivity|].
  destruct (Ascii.eqb c sep); [discriminate|].
  simpl. intros H. rewrite (IH H). reflexivity.
Qed.

Lemma split_append (sep : ascii) (a b : string) :
  Cli.split sep (a ++ String sep b) = (Cli.split sep a ++ Cli.split sep b)%list.
Proof.
  induction a as [|c a IH]; simpl.
  - rewrite Ascii.eqb_refl.
    destruct (Cli.split sep b) eqn:E; [|reflexivity].
    destruct (split_nonempty sep b E).
  - destruct (Ascii.eqb c sep); [rewrite IH; reflexivity|].
    rewrite IH.
    destruct (Cli.split sep a) eqn:E; [destruct (split_nonempty sep a E)|].
    reflexivity.
Qed.

Lemma split_single (sep : ascii) (s : string) :
  List.length (Cli.split sep s) = 1%nat <-> Cli.hasChar sep s = false.
Proof.
  split; [|intros H; rewrite (split_free sep s H); reflexivity].
  induction s as [|c s IH]; simpl; [reflexivity|].
  destruct (Ascii.eqb c sep); simpl.
  - intros H. destruct (Cli.split sep s) eqn:E; [destruct (split_nonempty sep s E)|].
    discriminate.
  - destruct (Cli.split sep s) eqn:E; [destruct (split_nonempty sep s E)|].
    simpl in *. exact IH.
Qed.

Lemma split_pieces_free (sep : ascii) (s : string) :
  Forall (fun piece => Cli.hasChar sep piece = false) (Cli.split sep s).
Proof.
  induction s as [|c s IH]; simpl; [repeat constructor|].
  destruct (Ascii.eqb c sep) eqn:Ec; [constructor; [reflexivity | exact IH]|].
  destruct (Cli.split sep s) as [|first others];
    [repeat constructor; simpl; rewrite Ec; reflexivity|].
  inversion IH as [|? ? Hfirst Hothers]; subst.
  constructor; [simpl; rewrite Ec; exact Hfirst | exact Hothers].
Qed.

(** A split is undone by putting the separator back: the string starts
    with the first piece, and is that piece alone or goes on with a
    separator. *)
Lemma split_head (sep : ascii) (s : string) :
  let first := List.hd EmptyString (Cli.split sep s) in
  Cli.hasChar sep first = false
  /\ ((s = first /\ Cli.split sep s = [first])
      \/ exists rest, s = first ++ String sep rest
                      /\ Cli.split sep s = first :: Cli.split sep rest).
Proof.
  induction s as [|c s IH]; simpl.
  - split; [reflexivity | left; split; reflexivity].
  - destruct (Ascii.eqb_spec c sep) as [->|Hne].
    + simpl. split; [reflexivity|]. right. exists s. split; reflexivity.
    + destruct (Cli.split sep s) as [|first others] eqn:E;
        [destruct (split_nonempty sep s E)|].
      simpl in IH |- *. destruct IH as (Hfree & Hshape).
      split.
      * destruct (Ascii.eqb_spec c sep); [contradiction | exact Hfree].
      * destruct Hshape as [(-> & Hone) | (rest & -> & Hmore)].
        -- left. injection Hone as <-. split; reflexivity.
        -- right. exists rest. injection Hmore as <-. split; reflexivity.
Qed.

Lemma last_split_free (sep : ascii) (s : string) :
  Cli.hasChar sep (List.last (Cli.split sep s) EmptyString) = false.
Proof.
  pose proof (split_pieces_free sep s) as Hall.
  pose proof (split_nonempty sep s) as Hne.
  induction (Cli.split sep s) as [|x l IH]; [contradiction|].
  inversion Hall; subst. destruct l as [|y l']; [assumption|].
  apply IH; [assumption | discriminate].
Qed.

Lemma last_append (A : Type) (l1 l2 : list A) (d : A) :
  l2 <> [] -> List.last (l1 ++ l2)%list d = List.last l2 d.
Proof.
  intros Hne. induction l1 as [|x l1 IH]; [reflexivity|].
  simpl. destruct (l1 ++ l2)%list eqn:E; [|exact IH].
  destruct l1; [simpl in E; contradiction | discriminate].
Qed.

Lemma string_append_assoc (a b c : string) :
  (a ++ b) ++ c = a ++ (b ++ c).
Proof. induction a as [|d a IH]; simpl; [reflexivity | now rewrite IH]. Qed.

Lemma hasChar_append (c : ascii) (a b : string) :
  Cli.hasChar c (a ++ b) = Cli.hasChar c a || Cli.hasChar c b.
Proof.
  induction a as [|d a IH]; simpl; [reflexivity|].
  rewrite IH. apply Bool.orb_assoc.
Qed.

Lemma strip_free (s : string) :
  Cli.hasChar ":" s = false -> Cli.stripDeploymentTypePrefix s = s.
Proof.
  intros Hfree. unfold Cli.stripDeploymentTypePrefix.
  rewrite (split_free ":" s Hfree). reflexivity.
Qed.

Lemma strip_append (prefix s : string) :
  Cli.stripDeploymentTypePrefix (prefix ++ ":" ++ s)
  = Cli.stripDeploymentTypePrefix s.
Proof.
  unfold Cli.stripDeploymentTypePrefix.
  change (":" ++ s) with (String ":" s).
  rewrite split_append. apply last_append. apply split_nonempty.
Qed.

(** X13.  [stripDeploymentTypePrefix] keeps what follows the last colon: a
    string without a colon is returned as it is, everything up to and
    including a colon is dropped, the result has no colon, and stripping
    twice is stripping once. *)
Theorem stripDeploymentTypePrefix_last_segment (deployment : string) :
  (Cli.hasChar ":" deployment = false ->
   Cli.stripDeploymentTypePrefix deployment = deployment)
  /\ (forall prefix,
        Cli.stripDeploymentTypePrefix (prefix ++ ":" ++ deployment)
        = Cli.stripDeploymentTypePrefix deployment)
  /\ Cli.hasChar ":" (Cli.stripDeploymentTypePrefix deployment) = false
  /\ Cli.stripDeploymentTypePrefix (Cli.stripDeploymentTypePrefix deployment)
     = Cli.stripDeploymentTypePrefix deployment.
Proof.
  split; [|split; [|split]].
  - apply strip_free.
  - intros prefix. apply strip_append.
  - apply last_split_free.
  - apply strip_free. apply last_split_free.
Qed.

(** X14.  The type of a configured deployment is its first colon-separated
    piece when that is [prod], [dev] or [preview], and nothing otherwise: a
    type that is reported is one of the three and the string is that word
    alone or that word and a colon before the rest; and a deployment written
    as type, colon, name is read back as that type and, when the name has no
    colon, that name. *)
Theorem configured_deployment_round_trip (raw : string) :
  (forall type,
     Cli.getDeploymentTypeFromConfiguredDeployment raw = Some type ->
     In type ["prod"; "dev"; "preview"]
     /\ (raw = type \/ exists rest, raw = type ++ ":" ++ rest))
  /\ (forall type name,
        In type ["prod"; "dev"; "preview"] ->
        Cli.getDeploymentTypeFromConfiguredDeployment (type ++ ":" ++ name) = Some type
        /\ (Cli.hasChar ":" name = false ->
            Cli.stripDeploymentTypePrefix (type ++ ":" ++ name) = name)).
Proof.
  split.
  - intros type. unfold Cli.getDeploymentTypeFromConfiguredDeployment.
    destruct (split_head ":" raw) as (_ & Hshape).
    set (first := List.hd EmptyString (Cli.split ":" raw)) in *.
    destruct (String.eqb first "prod" || String.eqb first "dev"
              || String.eqb first "preview") eqn:Hone; [|discriminate].
    intros [= <-]. split.
    + apply Bool.orb_true_iff in Hone. destruct Hone as [Hone|Hone].
      * apply Bool.orb_true_iff in Hone. destruct Hone as [Hone|Hone];
          apply String.eqb_eq in Hone; rewrite Hone; simpl; auto.
      * apply String.eqb_eq in Hone. rewrite Hone. simpl. auto.
    + destruct Hshape as [(Heq & _) | (rest & Heq & _)]; [left | right; exists rest];
        exact Heq.
  - intros type name Hin. split.
    + simpl in Hin. destruct Hin as [<- | [<- | [<- | []]]]; reflexivity.
    + intros Hfree. rewrite strip_append. apply strip_free. exact Hfree.
Qed.

(** The pieces of an admin key of the form type, colon, name, bar, secret. *)
Lemma admin_key_parts (type name secret : string) :
  Cli.hasChar ":" type = false -> Cli.hasChar "|" type = false ->
  Cli.hasChar ":" name = false -> Cli.hasChar "|" name = false ->
  let adminKey := type ++ ":" ++ name ++ "|" ++ secret in
  Cli.deploymentTypeFromAdminKey adminKey = Some type
  /\ Cli.deploymentNameFromAdminKey adminKey = Some name
  /\ Cli.isPreviewDeployKey adminKey = false.
Proof.
  intros Htc Htb Hnc Hnb adminKey.
  assert (Hcolon : Cli.split ":" adminKey
                   = type :: Cli.split ":" (name ++ "|" ++ secret)).
  { unfold adminKey. change (":" ++ name ++ "|" ++ secret)
      with (String ":" (name ++ "|" ++ secret)).
    rewrite split_append, (split_free ":" type Htc). reflexivity. }
  assert (Hprefix : Cli.hasChar "|" (type ++ ":" ++ name) = false).
  { rewrite !hasChar_append, Htb, Hnb. reflexivity. }
  assert (Hbar : Cli.split "|" adminKey
                 = (type ++ ":" ++ name) :: Cli.split "|" secret).
  { replace adminKey with ((type ++ ":" ++ name) ++ String "|" secret).
    - rewrite split_append, (split_free "|" _ Hprefix). reflexivity.
    - unfold adminKey. rewrite !string_append_assoc. reflexivity. }
  assert (Hparts : Cli.split ":" (type ++ ":" ++ name) = [type; name]).
  { change (":" ++ name) with (String ":" name).
    rewrite split_append, (split_free ":" type Htc), (split_free ":" name Hnc).
    reflexivity. }
  assert (Hpreview : Cli.isPreviewDeployKey adminKey = false).
  { unfold Cli.isPreviewDeployKey. rewrite Hbar.
    cbv beta iota zeta delta [List.hd]. rewrite Hparts.
    destruct (Cli.split "|" secret) eqn:E; [destruct (split_nonempty _ _ E)|].
    simpl. apply Bool.andb_false_r. }
  split; [|split]; [| |exact Hpreview].
  - unfold Cli.deploymentTypeFromAdminKey. rewrite Hcolon.
    destruct (Cli.split ":" (name ++ "|" ++ secret)) eqn:E;
      [destruct (split_nonempty _ _ E) | reflexivity].
  - unfold Cli.deploymentNameFromAdminKey. rewrite Hpreview, Hbar.
    destruct (Cli.split "|" secret) eqn:E; [destruct (split_nonempty _ _ E)|].
    cbn [List.hd List.length Nat.eqb].
    rewrite strip_append, (strip_free name Hnc). reflexivity.
Qed.

(** X15.  An admin key written as type, colon, deployment name, bar, secret
    (type and name free of colons and bars) is read back piece by piece:
    its type is the type, its deployment name is the name, and it is not a
    preview deploy key, whatever the secret contains. *)
Theorem admin_key_round_trip (type name secret : string) :
  Cli.hasChar ":" type = false -> Cli.hasChar "|" type = false ->
  Cli.hasChar ":" name = false -> Cli.hasChar "|" name = false ->
  let adminKey := type ++ ":" ++ name ++ "|" ++ secret in
  Cli.deploymentTypeFromAdminKey adminKey = Some type
  /\ Cli.deploymentNameFromAdminKey adminKey = Some name
  /\ Cli.isPreviewDeployKey adminKey = false.
Proof.
  exact (admin_key_parts type name secret).
Qed.

(** X16.  The preview deploy keys are exactly the keys of the form
    [preview:team:project|secret]: the part before the first bar is the word
    [preview] and two more colon-free pieces.  Such a key has type
    [preview] and no deployment name. *)
Theorem preview_deploy_key_shape (adminKey : string) :
  (Cli.isPreviewDeployKey adminKey = true
   <-> exists team project secret,
         adminKey = "preview:" ++ team ++ ":" ++ project ++ "|" ++ secret
         /\ Cli.hasChar ":" team = false /\ Cli.hasChar "|" team = false
         /\ Cli.hasChar ":" project = false /\ Cli.hasChar "|" project = false)
  /\ (Cli.isPreviewDeployKey adminKey = true ->
      Cli.deploymentNameFromAdminKey adminKey = None
      /\ Cli.deploymentTypeFromAdminKey adminKey = Some "preview").
Proof.
  assert (Hshape : Cli.isPreviewDeployKey adminKey = true ->
    exists team project secret,
      adminKey = "preview:" ++ team ++ ":" ++ project ++ "|" ++ secret
      /\ Cli.hasChar ":" team = false /\ Cli.hasChar "|" team = false
      /\ Cli.hasChar ":" project = false /\ Cli.hasChar "|" project = false).
  { unfold Cli.isPreviewDeployKey.
    destruct (split_head "|" adminKey) as (Hfree & Hbar).
    set (prefix := List.hd EmptyString (Cli.split "|" adminKey)) in *.
    destruct Hbar as [(_ & Hone) | (secret & Hkey & _)].
    { rewrite Hone. discriminate. }
    destruct (Nat.eqb (List.length (Cli.split "|" adminKey)) 1); [discriminate|].
    destruct (split_head ":" prefix) as (_ & Hcolon).
    set (word := List.hd EmptyString (Cli.split ":" prefix)) in *.
    intros Hboth. apply Bool.andb_true_iff in Hboth. destruct Hboth as (Hword & Hlen).
    apply String.eqb_eq in Hword. apply Nat.eqb_eq in Hlen.
    destruct Hcolon as [(_ & Hone) | (rest1 & Hprefix & Hsplit1)].
    { rewrite Hone in Hlen. discriminate. }
    rewrite Hsplit1 in Hlen. simpl in Hlen.
    destruct (split_head ":" rest1) as (Hteam & Hcolon2).
    set (team := List.hd EmptyString (Cli.split ":" rest1)) in *.
    destruct Hcolon2 as [(_ & Hone) | (project & Hrest1 & Hsplit2)].
    { rewrite Hone in Hlen. discriminate. }
    rewrite Hsplit2 in Hlen. simpl in Hlen.
    assert (Hproject : Cli.hasChar ":" project = false).
    { apply split_single. lia. }
    rewrite Hprefix, Hrest1, Hword in Hfree.
    rewrite hasChar_append in Hfree. simpl in Hfree.
    rewrite hasChar_append in Hfree. simpl in Hfree.
    apply Bool.orb_false_iff in Hfree. destruct Hfree as (Hteamb & Hprojectb).
    exists team, project, secret. repeat split; try assumption.
    rewrite Hkey, Hprefix, Hrest1, Hword. simpl.
    rewrite !string_append_assoc. reflexivity. }
  assert (Hback : forall team project secret,
    Cli.hasChar ":" team = false -> Cli.hasChar "|" team = false ->
    Cli.hasChar ":" project = false -> Cli.hasChar "|" project = false ->
    let key := "preview:" ++ team ++ ":" ++ project ++ "|" ++ secret in
    Cli.isPreviewDeployKey key = true
    /\ Cli.deploymentNameFromAdminKey key = None
    /\ Cli.deploymentTypeFromAdminKey key = Some "preview").
  { intros team project secret Htc Htb Hpc Hpb key.
    assert (Hprefix : Cli.hasChar "|" ("preview:" ++ team ++ ":" ++ project) = false).
    { rewrite !hasChar_append, Htb, Hpb. reflexivity. }
    assert (Hbar : Cli.split "|" key
                   = ("preview:" ++ team ++ ":" ++ project) :: Cli.split "|" secret).
    { replace key with (("preview:" ++ team ++ ":" ++ project) ++ String "|" secret).
      - rewrite split_append, (split_free "|" _ Hprefix). reflexivity.
      - unfold key. rewrite !string_append_assoc. reflexivity. }
    assert (Hparts : Cli.split ":" ("preview:" ++ team ++ ":" ++ project)
                     = ["preview"; team; project]).
    { change ("preview:" ++ team ++ ":" ++ project)
        with ("preview" ++ String ":" (team ++ String ":" project)).
      rewrite !split_append, (split_free ":" team Htc), (split_free ":" project Hpc).
      reflexivity. }
    assert (Hpreview : Cli.isPreviewDeployKey key = true).
    { unfold Cli.isPreviewDeployKey. rewrite Hbar.
      cbv beta iota zeta delta [List.hd]. rewrite Hparts.
      destruct (Cli.split "|" secret) eqn:E; [destruct (split_nonempty _ _ E)|].
      reflexivity. }
    split; [exact Hpreview|]. split.
    - unfold Cli.deploymentNameFromAdminKey. rewrite Hpreview, Hbar.
      destruct (Cli.split "|" secret) eqn:E; [destruct (split_nonempty _ _ E)|].
      reflexivity.
    - unfold Cli.deploymentTypeFromAdminKey.
      change key with ("preview" ++ String ":" (team ++ ":" ++ project ++ "|" ++ secret)).
      rewrite split_append.
      destruct (Cli.split ":" (team ++ ":" ++ project ++ "|" ++ secret)) eqn:E;
        [destruct (split_nonempty _ _ E) | reflexivity]. }
  split; [split|].
  - exact Hshape.
  - intros (team & project & secret & -> & Htc & Htb & Hpc & Hpb).
    apply (Hback team project secret Htc Htb Hpc Hpb).
  - intros Hpreview.
    destruct (Hshape Hpreview) as (team & project & secret & -> & Htc & Htb & Hpc & Hpb).
    apply (Hback team project secret Htc Htb Hpc Hpb).
Qed.

(** X17.  What the admin-key parsers refuse: a key has no type exactly when
    it has no colon, and no deployment name exactly when it has no bar or is
    a preview deploy key; a type that is reported has no colon and a name
    that is reported has neither a colon nor a bar. *)
Theorem admin_key_missing_parts (adminKey : string) :
  (Cli.deploymentTypeFromAdminKey adminKey = None
   <-> Cli.hasChar ":" adminKey = false)
  /\ (Cli.deploymentNameFromAdminKey adminKey = None
      <-> Cli.hasChar "|" adminKey = false \/ Cli.isPreviewDeployKey adminKey = true)
  /\ (forall type, Cli.deploymentTypeFromAdminKey adminKey = Some type ->
        Cli.hasChar ":" type = false)
  /\ (forall name, Cli.deploymentNameFromAdminKey adminKey = Some name ->
        Cli.hasChar ":" name = false /\ Cli.hasChar "|" name = false).
Proof.
  split; [|split; [|split]].
  - unfold Cli.deploymentTypeFromAdminKey. rewrite <- split_single.
    destruct (Nat.eqb_spec (List.length (Cli.split ":" adminKey)) 1);
      split; intros; try discriminate; tauto.
  - unfold Cli.deploymentNameFromAdminKey. rewrite <- split_single.
    destruct (Nat.eqb_spec (List.length (Cli.split "|" adminKey)) 1).
    + tauto.
    + destruct (Cli.isPreviewDeployKey adminKey); split; intros H;
        try reflexivity; try discriminate; try tauto.
      destruct H as [H|H]; [contradiction | discriminate].
  - intros type. unfold Cli.deploymentTypeFromAdminKey.
    destruct (Nat.eqb (List.length (Cli.split ":" adminKey)) 1); [discriminate|].
    intros [= <-]. apply (split_head ":" adminKey).
  - intros name. unfold Cli.deploymentNameFromAdminKey.
    destruct (Nat.eqb (List.length (Cli.split "|" adminKey)) 1); [discriminate|].
    destruct (Cli.isPreviewDeployKey adminKey); [discriminate|].
    intros [= <-]. split; [apply last_split_free|].
    unfold Cli.stripDeploymentTypePrefix.
    destruct (split_head "|" adminKey) as (Hfree & _).
    set (prefix := List.hd EmptyString (Cli.split "|" adminKey)) in *.
    assert (Hall : forall s, Cli.hasChar "|" s = false ->
              Forall (fun piece => Cli.hasChar "|" piece = false) (Cli.split ":" s)).
    { clear. induction s as [|c s IH]; simpl; [repeat constructor|].
      intros H. apply Bool.orb_false_iff in H. destruct H as (Hc & Hs).
      specialize (IH Hs).
      destruct (Ascii.eqb c ":"); [constructor; [reflexivity | exact IH]|].
      destruct (Cli.split ":" s) as [|first others];
        [repeat constructor; simpl; rewrite Hc; reflexivity|].
      inversion IH; subst. constructor; [simpl; rewrite Hc; assumption | assumption]. }
    specialize (Hall prefix Hfree).
    pose proof (split_nonempty ":" prefix) as Hne.
    induction (Cli.split ":" prefix) as [|x l IHl]; [contradiction|].
    inversion Hall; subst. destruct l as [|y l']; [assumption|].
    apply IHl; [assumption | discriminate].
Qed.

Lemma truthy_append_colon (a b : string) : truthy (Some (a ++ ":" ++ b)) = true.
Proof. destruct a; reflexivity. Qed.

(** X18.  How a deployment is named in messages: an admin key, when given
    and not empty, decides alone (the configured deployment is not looked
    at); a key of the form type, colon, name, bar, secret prints as the type,
    the word [deployment] and the name, a key with neither colon nor bar as
    the bare word [deployment]; without an admin key, or with an empty one,
    the configured name and type are printed. *)
Theorem printDeployment_sources (bold : string -> string) :
  (forall mine theirs,
     Cli.options mine = Cli.options theirs ->
     truthy (Cli.Options.adminKey (Cli.options mine)) = true ->
     Cli.printDeployment bold mine = Cli.printDeployment bold theirs)
  /\ (forall config type name secret,
        Cli.hasChar ":" type = false -> Cli.hasChar "|" type = false ->
        Cli.hasChar ":" name = false -> Cli.hasChar "|" name = false ->
        Cli.Options.adminKey (Cli.options config)
        = Some (type ++ ":" ++ name ++ "|" ++ secret) ->
        Cli.printDeployment bold config
        = bold type ++ " deployment " ++ bold name)
  /\ (forall config key,
        Cli.Options.adminKey (Cli.options config) = Some key ->
        key <> "" ->
        Cli.hasChar ":" key = false -> Cli.hasChar "|" key = false ->
        Cli.printDeployment bold config = "deployment")
  /\ (forall config,
        truthy (Cli.Options.adminKey (Cli.options config)) = false ->
        Cli.printDeployment bold config
        = match Cli.deploymentType config with
          | Some type => bold type ++ " "
          | None => ""
          end ++ "deployment " ++ bold (Cli.deploymentName config)).
Proof.
  split; [|split; [|split]].
  - intros mine theirs Hopts Hkey. unfold Cli.printDeployment.
    rewrite <- Hopts, Hkey. reflexivity.
  - intros config type name secret Htc Htb Hnc Hnb Hkey.
    destruct (admin_key_parts type name secret Htc Htb Hnc Hnb) as (Ht & Hn & _).
    unfold Cli.printDeployment. rewrite Hkey, truthy_append_colon, Ht, Hn.
    unfold Cli.formatDeploymentTypeAndName.
    rewrite !string_append_assoc. reflexivity.
  - intros config key Hkey Hne Hc Hb.
    unfold Cli.printDeployment. rewrite Hkey.
    replace (truthy (Some key)) with true by (destruct key; [contradiction | reflexivity]).
    unfold Cli.deploymentNameFromAdminKey, Cli.deploymentTypeFromAdminKey.
    rewrite (proj2 (split_single "|" key) Hb), (proj2 (split_single ":" key) Hc).
    reflexivity.
  - intros config Hkey. unfold Cli.printDeployment. rewrite Hkey.
    unfold Cli.formatDeploymentTypeAndName.
    destruct (Cli.deploymentType config); rewrite ?string_append_assoc; reflexivity.
Qed.

Lemma afterLineTerminators_append (a b : string) :
  Cli.afterLineTerminators (a ++ b)
  = Cli.afterLineTerminators a ++ Cli.afterLineTerminators b.
Proof.
  induction a as [|c a IH]; simpl; [reflexivity|].
  rewrite IH. destruct (Cli.isLineTerminator c); reflexivity.
Qed.

Lemma indent_afterLineTerminators (s : string) :
  Cli.indent s = Cli.afterLineTerminators s.
Proof. reflexivity. Qed.

(** X19.  [indent] leaves the first line alone and puts two spaces in front
    of every following line: a string without a line terminator is
    unchanged, indentation goes through a line break as [indent a], the
    break, two spaces, [indent b], and the result is longer than the input
    by two characters for each line terminator. *)
Theorem indent_continuation_lines (s : string) :
  (Cli.lineTerminators s = O -> Cli.indent s = s)
  /\ (forall a b,
        Cli.indent (a ++ Cli.nl ++ b)
        = Cli.indent a ++ Cli.nl ++ "  " ++ Cli.indent b)
  /\ String.length (Cli.indent s)
     = (String.length s + 2 * Cli.lineTerminators s)%nat.
Proof.
  rewrite !indent_afterLineTerminators. split; [|split].
  - induction s as [|c s IH]; simpl; [reflexivity|].
    destruct (Cli.isLineTerminator c); [discriminate|].
    intros H. rewrite (IH H). reflexivity.
  - intros a b. rewrite !indent_afterLineTerminators.
    rewrite !afterLineTerminators_append. reflexivity.
  - induction s as [|c s IH]; simpl; [reflexivity|].
    destruct (Cli.isLineTerminator c); simpl; rewrite IH; lia.
Qed.

End CliStrings.

Lemma stripDeploymentTypePrefix_last_segment_witness :
  Cli.stripDeploymentTypePrefix "tall-forest-1234" = "tall-forest-1234"%string.
Proof.
  exact (proj1 (stripDeploymentTypePrefix_last_segment "tall-forest-1234") eq_refl).
Defined.

Lemma configured_deployment_round_trip_witness :
  Cli.getDeploymentTypeFromConfiguredDeployment "dev:tall-forest-1234" = Some "dev"%string
  /\ Cli.stripDeploymentTypePrefix "dev:tall-forest-1234" = "tall-forest-1234"%string.
Proof.
  destruct (proj2 (configured_deployment_round_trip "") "dev" "tall-forest-1234"
              (or_intror (or_introl eq_refl))) as (Htype & Hname).
  split; [exact Htype | exact (Hname eq_refl)].
Defined.

Lemma admin_key_round_trip_witness :
  Cli.deploymentTypeFromAdminKey "prod:happy-animal-123|0123abc" = Some "prod"%string
  /\ Cli.deploymentNameFromAdminKey "prod:happy-animal-123|0123abc"
     = Some "happy-animal-123"%string
  /\ Cli.isPreviewDeployKey "prod:happy-animal-123|0123abc" = false.
Proof.
  exact (@admin_key_round_trip "prod" "happy-animal-123" "0123abc"
           eq_refl eq_refl eq_refl eq_refl).
Defined.

Lemma preview_deploy_key_shape_witness :
  Cli.deploymentNameFromAdminKey "preview:team:project|0123abc" = None
  /\ Cli.deploymentTypeFromAdminKey "preview:team:project|0123abc"
     = Some "preview"%string.
Proof.
  exact (proj2 (preview_deploy_key_shape "preview:team:project|0123abc") eq_refl).
Defined.

Lemma admin_key_missing_parts_witness :
  Cli.hasChar ":" "happy-animal-123" = false
  /\ Cli.hasChar "|" "happy-animal-123" = false.
Proof.
  exact (proj2 (proj2 (proj2 (admin_key_missing_parts "dev:happy-animal-123|0123abc")))
           "happy-animal-123"%string eq_refl).
Defined.

Lemma printDeployment_sources_witness :
  Cli.printDeployment (fun s => s)
    (Cli.mkConfig false true true "convex" "tall-forest-1234" (Some "dev"%string)
       (Cli.Options.make None (Some "prod:happy-animal-123|0123abc"%string)
          None None None))
  = "prod deployment happy-animal-123"%string.
Proof.
  exact (proj1 (proj2 (printDeployment_sources (fun s => s)))
           (Cli.mkConfig false true true "convex" "tall-forest-1234" (Some "dev"%string)
              (Cli.Options.make None (Some "prod:happy-animal-123|0123abc"%string)
                 None None None))
           "prod"%string "happy-animal-123"%string "0123abc"%string
           eq_refl eq_refl eq_refl eq_refl eq_refl).
Defined.

Lemma indent_continuation_lines_witness :
  Cli.indent "Could not parse your convex.json. Is it valid JSON?"
  = "Could not parse your convex.json. Is it valid JSON?"%string.
Proof.
  exact (proj1 (indent_continuation_lines
                  "Could not parse your convex.json. Is it valid JSON?") eq_refl).
Defined.

(* ------------------------------------------------------------------ *)
(** ** The setup command: the configuration steps *)

Lemma commands_app (a b : list Cli.CliEvent) :
  Cli.commands (a ++ b) = Cli.commands a ++ Cli.commands b.
Proof.
  induction a as [|[c|m d|p c] a IH]; simpl; rewrite ?IH; reflexivity.
Qed.

Lemma questions_app (a b : list Cli.CliEvent) :
  Cli.questions (a ++ b) = Cli.questions a ++ Cli.questions b.
Proof.
  induction a as [|[c|m d|p c] a IH]; simpl; rewrite ?IH; reflexivity.
Qed.

Lemma writes_app (a b : list Cli.CliEvent) :
  Cli.writes (a ++ b) = Cli.writes a ++ Cli.writes b.
Proof.
  induction a as [|[c|m d|p c] a IH]; simpl; rewrite ?IH; reflexivity.
Qed.

Section CliSteps.

Local Open Scope string_scope.

Variable execOutput : string -> option string.
Variable answer : string -> bool -> bool.
Variable bold : string -> string.
Variable pathJoin : string -> string -> string.
Variable writable : string -> bool.

Lemma existsAndNotEmpty_run (path : string) (w : Cli.CliWorld) :
  Cli.existsAndNotEmpty path w =
    (match Cli.files w path with
     | Some (Cli.File content) => Cli.Done (negb (String.eqb (Cli.trim content) ""))
     | Some Cli.Directory => Cli.Raised "EISDIR: illegal operation on a directory"
     | None => Cli.Done false
     end, w).
Proof.
  cbv beta iota zeta delta [Cli.existsAndNotEmpty Cli.andThen Cli.existsSync
    Cli.readFileSync Cli.done].
  destruct (Cli.files w path) as [[content|]|] eqn:E; cbv beta iota;
    rewrite ?E; reflexivity.
Qed.

(** The search for an existing source file changes nothing; it fails on a
    directory, and otherwise finds the [.ts] file if that is not blank, else
    the [.js] file if that is not blank. *)
Lemma existingNonEmptySourcePath_run (base : string) (w : Cli.CliWorld) :
  Cli.existingNonEmptySourcePath base w =
    match Cli.files w (base ++ ".ts") with
    | Some Cli.Directory =>
        (Cli.Raised "EISDIR: illegal operation on a directory", w)
    | _ =>
        if Cli.isNonBlankFile w (base ++ ".ts")
        then (Cli.Done (Some (base ++ ".ts")), w)
        else match Cli.files w (base ++ ".js") with
             | Some Cli.Directory =>
                 (Cli.Raised "EISDIR: illegal operation on a directory", w)
             | _ =>
                 if Cli.isNonBlankFile w (base ++ ".js")
                 then (Cli.Done (Some (base ++ ".js")), w)
                 else (Cli.Done None, w)
             end
    end.
Proof.
  unfold Cli.existingNonEmptySourcePath, Cli.andThen, Cli.isNonBlankFile.
  rewrite existsAndNotEmpty_run.
  destruct (Cli.files w (base ++ ".ts")) as [[content|]|]; try reflexivity.
  - destruct (negb (String.eqb (Cli.trim content) "")); [reflexivity|].
    rewrite existsAndNotEmpty_run.
    destruct (Cli.files w (base ++ ".js")) as [[other|]|]; try reflexivity.
    destruct (negb (String.eqb (Cli.trim other) "")); reflexivity.
  - rewrite existsAndNotEmpty_run.
    destruct (Cli.files w (base ++ ".js")) as [[other|]|]; try reflexivity.
    destruct (negb (String.eqb (Cli.trim other) "")); reflexivity.
Qed.

(** The common shape of the three steps that write a source file. *)
Lemma scaffold_run (base source : string) (typescript : bool) (w : Cli.CliWorld) :
  let target := if typescript then base ++ ".ts" else base ++ ".js" in
  let stepped := Cli.mkCliWorld (Cli.files w) (Cli.step w + 1) (Cli.events w) in
  let run :=
    Cli.andThen (Cli.existingNonEmptySourcePath base)
      (fun existing =>
         match existing with
         | Some _ =>
             Cli.promptForConfirmationOrExit answer "Ready to continue?" None
         | None => Cli.writeFileSync writable target source
         end) stepped in
  (* nothing that holds text is overwritten *)
  (forall path, Cli.isNonBlankFile w path = true ->
                Cli.files (snd run) path = Cli.files w path)
  (* with a file found, nothing is written and the user is asked *)
  /\ (Cli.isNonBlankFile w (base ++ ".ts") = true
      \/ (Cli.files w (base ++ ".ts") <> Some Cli.Directory
          /\ Cli.isNonBlankFile w (base ++ ".js") = true) ->
      Cli.files (snd run) = Cli.files w
      /\ Cli.writes (Cli.events (snd run)) = Cli.writes (Cli.events w)
      /\ Cli.questions (Cli.events (snd run))
         = (Cli.questions (Cli.events w) ++ [("Ready to continue?", true)])%list
      /\ fst run = if answer "Ready to continue?" true
                   then Cli.Done tt else Cli.Exited 1)
  (* with no file found, the target is written without a question *)
  /\ (Cli.isNonBlankFile w (base ++ ".ts") = false ->
      Cli.isNonBlankFile w (base ++ ".js") = false ->
      Cli.files w (base ++ ".ts") <> Some Cli.Directory ->
      Cli.files w (base ++ ".js") <> Some Cli.Directory ->
      writable target = true ->
      fst run = Cli.Done tt
      /\ Cli.files (snd run) target = Some (Cli.File source)
      /\ Cli.writes (Cli.events (snd run))
         = (Cli.writes (Cli.events w) ++ [(target, source)])%list
      /\ Cli.questions (Cli.events (snd run)) = Cli.questions (Cli.events w)).
Proof.
  intros target stepped run.
  assert (Hsame : forall p, Cli.isNonBlankFile stepped p = Cli.isNonBlankFile w p)
    by reflexivity.
  assert (Hprompt : forall w0,
    Cli.promptForConfirmationOrExit answer "Ready to continue?" None w0
    = (if answer "Ready to continue?" true then Cli.Done tt else Cli.Exited 1,
       Cli.mkCliWorld (Cli.files w0) (Cli.step w0)
         (Cli.events w0 ++ [Cli.EvPrompt "Ready to continue?" true])%list)).
  { intros w0. unfold Cli.promptForConfirmationOrExit, Cli.promptForConfirmation,
      Cli.andThen, Cli.record, Cli.done, Cli.processExit. simpl.
    destruct (answer "Ready to continue?" true); reflexivity. }
  unfold run, Cli.andThen. rewrite existingNonEmptySourcePath_run.
  rewrite !Hsame. simpl (Cli.files stepped _).
  split; [|split].
  - intros path Hpath.
    destruct (Cli.files w (base ++ ".ts")) as [[c1|]|] eqn:Ets; try reflexivity;
      (destruct (Cli.isNonBlankFile w (base ++ ".ts")) eqn:Hts;
       [rewrite Hprompt; reflexivity|]);
      (destruct (Cli.files w (base ++ ".js")) as [[c2|]|] eqn:Ejs; try reflexivity;
       (destruct (Cli.isNonBlankFile w (base ++ ".js")) eqn:Hjs;
        [rewrite Hprompt; reflexivity|]));
      unfold Cli.writeFileSync; simpl;
      (destruct (Cli.files w target) as [[c3|]|] eqn:Et; try reflexivity);
      (destruct (writable target); [|reflexivity]); simpl;
      (destruct (String.eqb_spec path target) as [->|Hne]; [|reflexivity]);
      exfalso; unfold target in *;
      destruct typescript; congruence.
  - intros Hfound.
    destruct (Cli.files w (base ++ ".ts")) as [[c1|]|] eqn:Ets.
    + destruct (Cli.isNonBlankFile w (base ++ ".ts")) eqn:Hts.
      * rewrite Hprompt. simpl. rewrite questions_app, writes_app. simpl.
        rewrite app_nil_r. repeat split.
      * destruct Hfound as [Hf | (_ & Hjs)]; [discriminate|].
        rewrite Hjs.
        destruct (Cli.files w (base ++ ".js")) as [[c2|]|] eqn:Ejs;
          try (unfold Cli.isNonBlankFile in Hjs; rewrite Ejs in Hjs; discriminate).
        rewrite Hprompt. simpl. rewrite questions_app, writes_app. simpl.
        rewrite app_nil_r. repeat split.
    + destruct Hfound as [Hf | (Hdir & _)];
        [unfold Cli.isNonBlankFile in Hf; rewrite Ets in Hf; discriminate
        | contradiction].
    + destruct Hfound as [Hf | (_ & Hjs)];
        [unfold Cli.isNonBlankFile in Hf; rewrite Ets in Hf; discriminate|].
      assert (Hts : Cli.isNonBlankFile w (base ++ ".ts") = false)
        by (unfold Cli.isNonBlankFile; rewrite Ets; reflexivity).
      rewrite Hts, Hjs.
      destruct (Cli.files w (base ++ ".js")) as [[c2|]|] eqn:Ejs;
        try (unfold Cli.isNonBlankFile in Hjs; rewrite Ejs in Hjs; discriminate).
      rewrite Hprompt. simpl. rewrite questions_app, writes_app. simpl.
      rewrite app_nil_r. repeat split.
  - intros Hts Hjs Hdts Hdjs Hwritable. rewrite Hts, Hjs.
    assert (Htarget : Cli.files w target <> Some Cli.Directory)
      by (unfold target; destruct typescript; assumption).
    assert (Hwrite :
      Cli.writeFileSync writable target source stepped
      = (Cli.Done tt,
         Cli.mkCliWorld
           (fun p => if String.eqb p target then Some (Cli.File source)
                     else Cli.files w p)
           (Cli.step w + 1) (Cli.events w ++ [Cli.EvWrite target source])%list)).
    { unfold Cli.writeFileSync. simpl. rewrite Hwritable.
      destruct (Cli.files w target) as [[c|]|]; try reflexivity. contradiction. }
    destruct (Cli.files w (base ++ ".ts")) as [[c1|]|]; try contradiction;
      (destruct (Cli.files w (base ++ ".js")) as [[c2|]|]; try contradiction);
      rewrite Hwrite; simpl; rewrite String.eqb_refl, questions_app, writes_app;
      simpl; rewrite app_nil_r; repeat split.
Qed.

(** X20.  The three steps that write a source file, [configureAuthConfig],
    [initializeAuth] and [configureHttp], never overwrite a file that holds
    anything but white space: whatever the answers and the outcome, such a
    file has the same content after the step. *)
Theorem scaffolding_keeps_written_files (config : Cli.ProjectConfig)
    (w : Cli.CliWorld) (path : string) :
  (Cli.isNonBlankFile w path = true ->
   Cli.files (snd (Cli.configureAuthConfig answer pathJoin writable config w)) path
   = Cli.files w path)
  /\ (Cli.isNonBlankFile w path = true ->
   Cli.files (snd (Cli.initializeAuth answer pathJoin writable config w)) path
   = Cli.files w path)
  /\ (Cli.isNonBlankFile w path = true ->
   Cli.files (snd (Cli.configureHttp answer pathJoin writable config w)) path
   = Cli.files w path).
Proof.
  split; [|split]; intros Hpath.
  - exact (proj1 (scaffold_run (pathJoin (Cli.convexFolderPath config) "auth.config")
                    Cli.authConfigSource (Cli.usesTypeScript config) w) path Hpath).
  - exact (proj1 (scaffold_run (pathJoin (Cli.convexFolderPath config) "auth")
                    Cli.authSource (Cli.usesTypeScript config) w) path Hpath).
  - exact (proj1 (scaffold_run (pathJoin (Cli.convexFolderPath config) "http")
                    Cli.httpSource (Cli.usesTypeScript config) w) path Hpath).
Qed.

(** X21.  When neither the [.ts] nor the [.js] file of a step holds text
    (absent or blank, and not a directory) and the target can be written,
    the step writes its source text to the [.ts] file in a TypeScript project
    and to the [.js] file otherwise, asks nothing and completes; a blank file
    in that place is replaced. *)
Theorem scaffolding_creates_missing_file (config : Cli.ProjectConfig)
    (w : Cli.CliWorld) :
  (let base := pathJoin (Cli.convexFolderPath config) "auth.config" in
      let target := if Cli.usesTypeScript config then base ++ ".ts" else base ++ ".js" in
      let run := Cli.configureAuthConfig answer pathJoin writable config w in
      Cli.isNonBlankFile w (base ++ ".ts") = false ->
      Cli.isNonBlankFile w (base ++ ".js") = false ->
      Cli.files w (base ++ ".ts") <> Some Cli.Directory ->
      Cli.files w (base ++ ".js") <> Some Cli.Directory ->
      writable target = true ->
      fst run = Cli.Done tt
      /\ Cli.files (snd run) target = Some (Cli.File Cli.authConfigSource)
      /\ Cli.writes (Cli.events (snd run))
         = (Cli.writes (Cli.events w) ++ [(target, Cli.authConfigSource)])%list
      /\ Cli.questions (Cli.events (snd run)) = Cli.questions (Cli.events w))
  /\ (let base := pathJoin (Cli.convexFolderPath config) "auth" in
      let target := if Cli.usesTypeScript config then base ++ ".ts" else base ++ ".js" in
      let run := Cli.initializeAuth answer pathJoin writable config w in
      Cli.isNonBlankFile w (base ++ ".ts") = false ->
      Cli.isNonBlankFile w (base ++ ".js") = false ->
      Cli.files w (base ++ ".ts") <> Some Cli.Directory ->
      Cli.files w (base ++ ".js") <> Some Cli.Directory ->
      writable target = true ->
      fst run = Cli.Done tt
      /\ Cli.files (snd run) target = Some (Cli.File Cli.authSource)
      /\ Cli.writes (Cli.events (snd run))
         = (Cli.writes (Cli.events w) ++ [(target, Cli.authSource)])%list
      /\ Cli.questions (Cli.events (snd run)) = Cli.questions (Cli.events w))
  /\ (let base := pathJoin (Cli.convexFolderPath config) "http" in
      let target := if Cli.usesTypeScript config then base ++ ".ts" else base ++ ".js" in
      let run := Cli.configureHttp answer pathJoin writable config w in
      Cli.isNonBlankFile w (base ++ ".ts") = false ->
      Cli.isNonBlankFile w (base ++ ".js") = false ->
      Cli.files w (base ++ ".ts") <> Some Cli.Directory ->
      Cli.files w (base ++ ".js") <> Some Cli.Directory ->
      writable target = true ->
      fst run = Cli.Done tt
      /\ Cli.files (snd run) target = Some (Cli.File Cli.httpSource)
      /\ Cli.writes (Cli.events (snd run))
         = (Cli.writes (Cli.events w) ++ [(target, Cli.httpSource)])%list
      /\ Cli.questions (Cli.events (snd run)) = Cli.questions (Cli.events w)).
Proof.
  split; [|split]; intros base target run.
  - exact (proj2 (proj2 (scaffold_run base Cli.authConfigSource
                           (Cli.usesTypeScript config) w))).
  - exact (proj2 (proj2 (scaffold_run base Cli.authSource
                           (Cli.usesTypeScript config) w))).
  - exact (proj2 (proj2 (scaffold_run base Cli.httpSource
                           (Cli.usesTypeScript config) w))).
Qed.

(** X22.  When a step finds its [.ts] file with text in it, or else its
    [.js] file, it writes nothing and leaves every file alone, in a
    TypeScript project and otherwise; it asks [Ready to continue?] with
    default yes, completes on yes and exits with code 1 on no. *)
Theorem scaffolding_asks_when_file_exists (config : Cli.ProjectConfig)
    (w : Cli.CliWorld) :
  (let base := pathJoin (Cli.convexFolderPath config) "auth.config" in
      let run := Cli.configureAuthConfig answer pathJoin writable config w in
      Cli.isNonBlankFile w (base ++ ".ts") = true
      \/ (Cli.files w (base ++ ".ts") <> Some Cli.Directory
          /\ Cli.isNonBlankFile w (base ++ ".js") = true) ->
      Cli.files (snd run) = Cli.files w
      /\ Cli.writes (Cli.events (snd run)) = Cli.writes (Cli.events w)
      /\ Cli.questions (Cli.events (snd run))
         = (Cli.questions (Cli.events w) ++ [("Ready to continue?", true)])%list
      /\ fst run = if answer "Ready to continue?" true
                   then Cli.Done tt else Cli.Exited 1)
  /\ (let base := pathJoin (Cli.convexFolderPath config) "auth" in
      let run := Cli.initializeAuth answer pathJoin writable config w in
      Cli.isNonBlankFile w (base ++ ".ts") = true
      \/ (Cli.files w (base ++ ".ts") <> Some Cli.Directory
          /\ Cli.isNonBlankFile w (base ++ ".js") = true) ->
      Cli.files (snd run) = Cli.files w
      /\ Cli.writes (Cli.events (snd run)) = Cli.writes (Cli.events w)
      /\ Cli.questions (Cli.events (snd run))
         = (Cli.questions (Cli.events w) ++ [("Ready to continue?", true)])%list
      /\ fst run = if answer "Ready to continue?" true
                   then Cli.Done tt else Cli.Exited 1)
  /\ (let base := pathJoin (Cli.convexFolderPath config) "http" in
      let run := Cli.configureHttp answer pathJoin writable config w in
      Cli.isNonBlankFile w (base ++ ".ts") = true
      \/ (Cli.files w (base ++ ".ts") <> Some Cli.Directory
          /\ Cli.isNonBlankFile w (base ++ ".js") = true) ->
      Cli.files (snd run) = Cli.files w
      /\ Cli.writes (Cli.events (snd run)) = Cli.writes (Cli.events w)
      /\ Cli.questions (Cli.events (snd run))
         = (Cli.questions (Cli.events w) ++ [("Ready to continue?", true)])%list
      /\ fst run = if answer "Ready to continue?" true
                   then Cli.Done tt else Cli.Exited 1).
Proof.
  split; [|split]; intros base run.
  - exact (proj1 (proj2 (scaffold_run base Cli.authConfigSource
                           (Cli.usesTypeScript config) w))).
  - exact (proj1 (proj2 (scaffold_run base Cli.authSource
                           (Cli.usesTypeScript config) w))).
  - exact (proj1 (proj2 (scaffold_run base Cli.httpSource
                           (Cli.usesTypeScript config) w))).
Qed.

Lemma andThen_run (A B : Type) (m : Cli.Run A) (k : A -> Cli.Run B)
    (w w' : Cli.CliWorld) (o : Cli.Outcome A) :
  m w = (o, w') ->
  Cli.andThen m k w =
    match o with
    | Cli.Done a => k a w'
    | Cli.Raised e => (Cli.Raised e, w')
    | Cli.Exited code => (Cli.Exited code, w')
    end.
Proof. intros H. unfold Cli.andThen. rewrite H. reflexivity. Qed.

Lemma execSync_run (command : string) (w : Cli.CliWorld) :
  Cli.execSync execOutput command w =
    (match execOutput command with
     | Some output => Cli.Done output
     | None => Cli.Raised "Command failed"
     end,
     Cli.mkCliWorld (Cli.files w) (Cli.step w)
       (Cli.events w ++ [Cli.EvExec command])%list).
Proof.
  unfold Cli.execSync, Cli.andThen, Cli.record, Cli.done. simpl.
  destruct (execOutput command); reflexivity.
Qed.

Lemma setEnvVar_run (config : Cli.ProjectConfig) (name value : string)
    (w : Cli.CliWorld) :
  let command := "npx convex env set " ++ Cli.deploymentOptions config ++ " -- "
                 ++ name ++ " '" ++ value ++ "'" in
  Cli.setEnvVar execOutput config name value w =
    (match execOutput command with
     | Some _ => Cli.Done tt
     | None => Cli.Raised "Command failed"
     end,
     Cli.mkCliWorld (Cli.files w) (Cli.step w)
       (Cli.events w ++ [Cli.EvExec command])%list).
Proof.
  intros command. unfold Cli.setEnvVar.
  rewrite (@andThen_run _ _ _ _ _ _ _ (execSync_run _ w)). fold command.
  destruct (execOutput command); reflexivity.
Qed.

Lemma backendEnvVar_run (config : Cli.ProjectConfig) (name : string)
    (w : Cli.CliWorld) :
  let command := "npx convex env get " ++ Cli.deploymentOptions config ++ " " ++ name in
  Cli.backendEnvVar execOutput config name w =
    (match execOutput command with
     | Some output => Cli.Done output
     | None => Cli.Raised "Command failed"
     end,
     Cli.mkCliWorld (Cli.files w) (Cli.step w)
       (Cli.events w ++ [Cli.EvExec command])%list).
Proof. intros command. unfold Cli.backendEnvVar. apply execSync_run. Qed.

Lemma promptForConfirmation_run (message : string) (default : option bool)
    (w : Cli.CliWorld) :
  Cli.promptForConfirmation answer message default w =
    (Cli.Done (answer message match default with Some d => d | None => true end),
     Cli.mkCliWorld (Cli.files w) (Cli.step w)
       (Cli.events w
        ++ [Cli.EvPrompt message match default with Some d => d | None => true end])%list).
Proof. reflexivity. Qed.

Lemma logStep_run (config : Cli.ProjectConfig) (message : string) (w : Cli.CliWorld) :
  Cli.logStep config message w
  = (Cli.Done tt, Cli.mkCliWorld (Cli.files w) (Cli.step w + 1) (Cli.events w)).
Proof. reflexivity. Qed.

(** X23.  [configureSiteUrl] reads [SITE_URL] first.  When it is empty the
    variable is set without a question; when it is not, the user is asked
    (default no) and the variable is set only on yes; when the read fails
    nothing else is run.  The value set is the Vite address
    [http://localhost:5173] in a Vite project and [http://localhost:3000]
    otherwise. *)
Theorem configureSiteUrl_asks_before_overwrite (config : Cli.ProjectConfig)
    (w : Cli.CliWorld) :
  let value := if Cli.isVite config then "http://localhost:5173"
               else "http://localhost:3000" in
  let get := "npx convex env get " ++ Cli.deploymentOptions config ++ " SITE_URL" in
  let set := "npx convex env set " ++ Cli.deploymentOptions config
             ++ " -- SITE_URL '" ++ value ++ "'" in
  let question := "The " ++ Cli.printDeployment bold config
                  ++ " already has SITE_URL configured. Overwrite it to "
                  ++ value ++ "?" in
  let run := Cli.configureSiteUrl execOutput answer bold config w in
  let ran := Cli.commands (Cli.events (snd run)) in
  let asked := Cli.questions (Cli.events (snd run)) in
  match execOutput get with
  | None =>
      ran = (Cli.commands (Cli.events w) ++ [get])%list
      /\ asked = Cli.questions (Cli.events w)
      /\ exists message, fst run = Cli.Raised message
  | Some existing =>
      if String.eqb existing "" then
        ran = (Cli.commands (Cli.events w) ++ [get; set])%list
        /\ asked = Cli.questions (Cli.events w)
      else
        asked = (Cli.questions (Cli.events w) ++ [(question, false)])%list
        /\ if answer question false
           then ran = (Cli.commands (Cli.events w) ++ [get; set])%list
           else ran = (Cli.commands (Cli.events w) ++ [get])%list
                /\ fst run = Cli.Done tt
  end.
Proof.
  intros value get set question run ran asked.
  subst ran asked run.
  unfold Cli.configureSiteUrl.
  rewrite (@andThen_run _ _ _ _ _ _ _ (logStep_run _ _ w)).
  rewrite (@andThen_run _ _ _ _ _ _ _ (backendEnvVar_run config "SITE_URL" _)).
  change ("npx convex env get " ++ Cli.deploymentOptions config ++ " " ++ "SITE_URL")
    with get.
  fold value.
  destruct (execOutput get) as [existing|].
  2:{ cbn [fst snd Cli.events]. rewrite commands_app, questions_app.
      cbn [Cli.commands Cli.questions]. rewrite app_nil_r.
      repeat split. eexists. reflexivity. }
  destruct (String.eqb existing ""); cbn [negb].
  - rewrite setEnvVar_run. cbn [fst snd Cli.events].
    change ("npx convex env set " ++ Cli.deploymentOptions config ++ " -- "
            ++ "SITE_URL" ++ " '" ++ value ++ "'") with set.
    rewrite !commands_app, !questions_app. cbn [Cli.commands Cli.questions].
    rewrite !app_nil_r, <- app_assoc. split; reflexivity.
  - rewrite (@andThen_run _ _ _ _ _ _ _ (promptForConfirmation_run _ _ _)).
    fold question.
    destruct (answer question false); cbn [negb].
    + rewrite setEnvVar_run. cbn [fst snd Cli.events].
      change ("npx convex env set " ++ Cli.deploymentOptions config ++ " -- "
              ++ "SITE_URL" ++ " '" ++ value ++ "'") with set.
      rewrite !commands_app, !questions_app. cbn [Cli.commands Cli.questions].
      rewrite !app_nil_r, <- !app_assoc. split; reflexivity.
    + cbn [fst snd Cli.events Cli.done].
      rewrite !commands_app, !questions_app. cbn [Cli.commands Cli.questions].
      rewrite !app_nil_r. repeat split.
Qed.

(** X24.  [configureKeys] reads [JWT_PRIVATE_KEY] and then [JWKS].  When
    both are empty the two are set without a question; when one of them is
    not, the user is asked (default no) and on no nothing is set.  The keys
    are set in the order [JWT_PRIVATE_KEY], [JWKS], and [JWKS] is not set
    when setting [JWT_PRIVATE_KEY] failed. *)
Theorem configureKeys_asks_before_overwrite (config : Cli.ProjectConfig)
    (jwtPrivateKey jwks : string) (w : Cli.CliWorld)
    (existingPrivateKey existingJwks : string) :
  let getKey := "npx convex env get " ++ Cli.deploymentOptions config
                ++ " JWT_PRIVATE_KEY" in
  let getJwks := "npx convex env get " ++ Cli.deploymentOptions config ++ " JWKS" in
  let setKey := "npx convex env set " ++ Cli.deploymentOptions config
                ++ " -- JWT_PRIVATE_KEY '" ++ jwtPrivateKey ++ "'" in
  let setJwks := "npx convex env set " ++ Cli.deploymentOptions config
                 ++ " -- JWKS '" ++ jwks ++ "'" in
  let question := "The " ++ Cli.printDeployment bold config
                  ++ " already has JWT_PRIVATE_KEY or JWKS configured. Overwrite them?" in
  let run := Cli.configureKeys execOutput answer bold jwtPrivateKey jwks config w in
  let ran := Cli.commands (Cli.events (snd run)) in
  let asked := Cli.questions (Cli.events (snd run)) in
  execOutput getKey = Some existingPrivateKey ->
  execOutput getJwks = Some existingJwks ->
  let setting :=
    match execOutput setKey with
    | Some _ => ran = (Cli.commands (Cli.events w)
                       ++ [getKey; getJwks; setKey; setJwks])%list
    | None => ran = (Cli.commands (Cli.events w) ++ [getKey; getJwks; setKey])%list
              /\ exists message, fst run = Cli.Raised message
    end in
  if String.eqb existingPrivateKey "" && String.eqb existingJwks "" then
    asked = Cli.questions (Cli.events w) /\ setting
  else
    asked = (Cli.questions (Cli.events w) ++ [(question, false)])%list
    /\ if answer question false then setting
       else ran = (Cli.commands (Cli.events w) ++ [getKey; getJwks])%list
            /\ fst run = Cli.Done tt.
Proof.
  intros getKey getJwks setKey setJwks question run ran asked Hkey Hjwks setting.
  subst setting ran asked run.
  assert (Hset : forall w0,
    let both := Cli.andThen (Cli.setEnvVar execOutput config "JWT_PRIVATE_KEY"
                               jwtPrivateKey)
                  (fun _ => Cli.setEnvVar execOutput config "JWKS" jwks) w0 in
    Cli.questions (Cli.events (snd both)) = Cli.questions (Cli.events w0)
    /\ match execOutput setKey with
       | Some _ => Cli.commands (Cli.events (snd both))
                   = (Cli.commands (Cli.events w0) ++ [setKey; setJwks])%list
       | None => Cli.commands (Cli.events (snd both))
                 = (Cli.commands (Cli.events w0) ++ [setKey])%list
                 /\ exists message, fst both = Cli.Raised message
       end).
  { intros w0 both. subst both.
    rewrite (@andThen_run _ _ _ _ _ _ _ (setEnvVar_run config _ _ w0)).
    change ("npx convex env set " ++ Cli.deploymentOptions config ++ " -- "
            ++ "JWT_PRIVATE_KEY" ++ " '" ++ jwtPrivateKey ++ "'") with setKey.
    destruct (execOutput setKey).
    - rewrite setEnvVar_run. cbn [fst snd Cli.events].
      change ("npx convex env set " ++ Cli.deploymentOptions config ++ " -- "
              ++ "JWKS" ++ " '" ++ jwks ++ "'") with setJwks.
      rewrite !commands_app, !questions_app. cbn [Cli.commands Cli.questions].
      rewrite !app_nil_r, <- !app_assoc. split; reflexivity.
    - cbn [fst snd Cli.events].
      rewrite !commands_app, !questions_app. cbn [Cli.commands Cli.questions].
      rewrite !app_nil_r. repeat split. eexists. reflexivity. }
  unfold Cli.configureKeys.
  rewrite (@andThen_run _ _ _ _ _ _ _ (logStep_run _ _ w)).
  rewrite (@andThen_run _ _ _ _ _ _ _ (backendEnvVar_run config "JWT_PRIVATE_KEY" _)).
  change ("npx convex env get " ++ Cli.deploymentOptions config ++ " "
          ++ "JWT_PRIVATE_KEY") with getKey.
  rewrite Hkey.
  rewrite (@andThen_run _ _ _ _ _ _ _ (backendEnvVar_run config "JWKS" _)).
  change ("npx convex env get " ++ Cli.deploymentOptions config ++ " " ++ "JWKS")
    with getJwks.
  rewrite Hjwks. cbv zeta.
  rewrite <- Bool.negb_andb.
  destruct (String.eqb existingPrivateKey "" && String.eqb existingJwks "");
    cbn [negb].
  - match goal with |- context [Cli.andThen _ _ ?w0] =>
      destruct (Hset w0) as (Hq & Hc) end.
    cbv zeta in Hq, Hc.
    destruct (execOutput setKey); [|destruct Hc as (Hc & Hraised)];
      rewrite Hq, Hc; repeat split;
      try (match goal with H : exists _, _ |- _ => exact H end);
      cbn [Cli.events];
      rewrite ?questions_app, ?commands_app; cbn [Cli.commands Cli.questions];
      rewrite ?app_nil_r, <- ?app_assoc; reflexivity.
  - rewrite (@andThen_run _ _ _ _ _ _ _ (promptForConfirmation_run _ _ _)).
    fold question.
    destruct (answer question false); cbn [negb].
    + match goal with |- context [Cli.andThen _ _ ?w0] =>
        destruct (Hset w0) as (Hq & Hc) end.
      cbv zeta in Hq, Hc.
      destruct (execOutput setKey); [|destruct Hc as (Hc & Hraised)];
        rewrite Hq, Hc; repeat split;
        try (match goal with H : exists _, _ |- _ => exact H end);
        cbn [Cli.events];
        rewrite ?questions_app, ?commands_app; cbn [Cli.commands Cli.questions];
        rewrite ?app_nil_r, <- ?app_assoc; reflexivity.
    + cbn [fst snd Cli.events Cli.done].
      rewrite !commands_app, !questions_app. cbn [Cli.commands Cli.questions].
      rewrite !app_nil_r, <- !app_assoc. repeat split.
Qed.

(** X25.  [checkSourceControl] lets a run go on silently only in a git
    work tree that is clean: with uncommitted changes it asks
    [Continue anyway?] with default no, without a [.git] entry it asks the
    same with default yes and runs no command, and in both cases a no exits
    with code 1. *)
Theorem checkSourceControl_gate (w : Cli.CliWorld) :
  let run := Cli.checkSourceControl execOutput answer w in
  let asked := Cli.questions (Cli.events (snd run)) in
  let ran := Cli.commands (Cli.events (snd run)) in
  match Cli.files w ".git" with
  | None =>
      ran = Cli.commands (Cli.events w)
      /\ asked = (Cli.questions (Cli.events w) ++ [("Continue anyway?", true)])%list
      /\ fst run = if answer "Continue anyway?" true
                   then Cli.Done tt else Cli.Exited 1
  | Some _ =>
      ran = (Cli.commands (Cli.events w) ++ ["git status --porcelain"])%list
      /\ match execOutput "git status --porcelain" with
         | None => asked = Cli.questions (Cli.events w)
                   /\ exists message, fst run = Cli.Raised message
         | Some status =>
             if String.eqb status "" then
               asked = Cli.questions (Cli.events w) /\ fst run = Cli.Done tt
             else
               asked = (Cli.questions (Cli.events w)
                        ++ [("Continue anyway?", false)])%list
               /\ fst run = if answer "Continue anyway?" false
                            then Cli.Done tt else Cli.Exited 1
         end
  end.
Proof.
  intros run asked ran. subst asked ran run.
  assert (Hprompt : forall default w0,
    Cli.promptForConfirmationOrExit answer "Continue anyway?" default w0
    = (if answer "Continue anyway?" match default with Some d => d | None => true end
       then Cli.Done tt else Cli.Exited 1,
       Cli.mkCliWorld (Cli.files w0) (Cli.step w0)
         (Cli.events w0
          ++ [Cli.EvPrompt "Continue anyway?"
                match default with Some d => d | None => true end])%list)).
  { intros default w0. unfold Cli.promptForConfirmationOrExit.
    rewrite (@andThen_run _ _ _ _ _ _ _ (promptForConfirmation_run _ _ _)).
    destruct (answer "Continue anyway?" _); reflexivity. }
  unfold Cli.checkSourceControl.
  assert (Hexists : Cli.existsSync ".git" w
                    = (Cli.Done match Cli.files w ".git" with
                                | Some _ => true | None => false end, w))
    by reflexivity.
  rewrite (@andThen_run _ _ _ _ _ _ _ Hexists).
  destruct (Cli.files w ".git") as [entry|].
  - rewrite (@andThen_run _ _ _ _ _ _ _ (execSync_run _ _)).
    destruct (execOutput "git status --porcelain") as [status|].
    + destruct (String.eqb status ""); cbn [negb].
      * cbn [fst snd Cli.events Cli.done].
        rewrite !commands_app, !questions_app. cbn [Cli.commands Cli.questions].
        rewrite !app_nil_r. repeat split.
      * rewrite Hprompt. cbn [fst snd Cli.events].
        rewrite !commands_app, !questions_app. cbn [Cli.commands Cli.questions].
        rewrite !app_nil_r, <- ?app_assoc. repeat split.
    + cbn [fst snd Cli.events].
      rewrite !commands_app, !questions_app. cbn [Cli.commands Cli.questions].
      rewrite !app_nil_r. repeat split. eexists. reflexivity.
  - rewrite Hprompt. cbn [fst snd Cli.events].
    rewrite !commands_app, !questions_app. cbn [Cli.commands Cli.questions].
    rewrite !app_nil_r. repeat split.
Qed.
End CliSteps.

Lemma scaffolding_keeps_written_files_witness :
  Cli.files
    (snd (Cli.configureAuthConfig (fun _ _ => true)
            (fun folder name => (folder ++ "/" ++ name)%string) (fun _ => true)
            Cli.plainConfig
            (Cli.freshWorld
               (fun p => if String.eqb p "convex/auth.config.js"
                         then Some (Cli.File "export default {};") else None))))
    "convex/auth.config.js"%string
  = Some (Cli.File "export default {};").
Proof.
  exact (proj1 (scaffolding_keeps_written_files (fun _ _ => true)
                  (fun folder name => (folder ++ "/" ++ name)%string) (fun _ => true)
                  Cli.plainConfig
                  (Cli.freshWorld
                     (fun p => if String.eqb p "convex/auth.config.js"
                               then Some (Cli.File "export default {};") else None))
                  "convex/auth.config.js"%string)
           eq_refl).
Defined.

Lemma scaffolding_creates_missing_file_witness :
  Cli.files
    (snd (Cli.configureHttp (fun _ _ => true)
            (fun folder name => (folder ++ "/" ++ name)%string) (fun _ => true)
            Cli.plainConfig (Cli.freshWorld (fun _ => None))))
    "convex/http.ts"%string
  = Some (Cli.File Cli.httpSource).
Proof.
  assert (Hno : @None Cli.FsEntry <> Some Cli.Directory) by discriminate.
  exact (proj1 (proj2
           (proj2 (proj2 (scaffolding_creates_missing_file (fun _ _ => true)
                            (fun folder name => (folder ++ "/" ++ name)%string)
                            (fun _ => true) Cli.plainConfig
                            (Cli.freshWorld (fun _ => None))))
              eq_refl eq_refl Hno Hno eq_refl))).
Defined.

Lemma scaffolding_asks_when_file_exists_witness :
  fst (Cli.initializeAuth (fun _ _ => false)
         (fun folder name => (folder ++ "/" ++ name)%string) (fun _ => true)
         Cli.plainConfig
         (Cli.freshWorld
            (fun p => if String.eqb p "convex/auth.ts"
                      then Some (Cli.File "export const auth = 1;") else None)))
  = Cli.Exited 1.
Proof.
  exact (proj2 (proj2 (proj2
           (proj1 (proj2 (scaffolding_asks_when_file_exists (fun _ _ => false)
                            (fun folder name => (folder ++ "/" ++ name)%string)
                            (fun _ => true) Cli.plainConfig
                            (Cli.freshWorld
                               (fun p => if String.eqb p "convex/auth.ts"
                                         then Some (Cli.File "export const auth = 1;")
                                         else None))))
              (or_introl eq_refl))))).
Defined.

Lemma configureKeys_asks_before_overwrite_witness :
  Cli.questions
    (Cli.events
       (snd (Cli.configureKeys (fun _ => Some ""%string) (fun _ _ => false)
               (fun s => s) "private" "jwks" Cli.plainConfig
               (Cli.freshWorld (fun _ => None)))))
  = [].
Proof.
  exact (proj1 (@configureKeys_asks_before_overwrite (fun _ => Some ""%string)
                  (fun _ _ => false) (fun s => s) Cli.plainConfig "private" "jwks"
                  (Cli.freshWorld (fun _ => None)) "" "" eq_refl eq_refl)).
Defined.
